(** * distance_50Hz: the serial line-protocol session of the VL53L0X monitor

    A shallow embedding of the browser program ([app.js] and its earlier
    revisions) and the properties of its line framer, line handling,
    session flags, record store, axis scaling and command encoding.

    Conventions of the embedding.
    - JavaScript strings are [string]: sequences of 8-bit code units (the
      wire protocol is line-oriented ASCII).
    - The numbers held in records come from [Number] applied to a run of
      decimal digits; they are modelled by [N] and printed in plain decimal,
      which is what JavaScript does for integers up to [2^53].
    - Chart coordinates and axis limits are rationals ([Q]); [Math.ceil] is
      [Qceiling] and [Math.max] is [Qmax].
    - A rate or a length typed into the page is a whole number ([option Z],
      [None] for [NaN]); a fraction typed has no counterpart here.
    - The script computes in double precision, the embedding exactly.  The
      module [Exact] names the ranges of whole numbers within which the two
      agree; the properties that depend on the value of a number are stated
      for numbers within these ranges.
    - The module-level [let] variables of the program ([port], [writer],
      [reading], ...) and the parts of the page and of the chart that the
      handlers write are the fields of one [Session] record; every handler
      is a function on that record.  Everything written to the serial port
      is appended to the field [wire], every [alert] to [alerts]. *)

From Stdlib Require Import ZArith NArith QArith Qround Qminmax.
From Stdlib Require Import List String Ascii Bool Lia Lqa.
From Stdlib Require Import DecimalString DecimalN DecimalPos.
Import ListNotations.

Local Open Scope string_scope.
Local Open Scope list_scope.

(** ** JavaScript text primitives used by the program *)

Module JS.

Definition LF : ascii := "010"%char.
Definition CR : ascii := "013"%char.

Definition isLF (c : ascii) : bool := Ascii.eqb c LF.
Definition isCR (c : ascii) : bool := Ascii.eqb c CR.

(** [\d] of a regular expression without the unicode flag: [0-9]. *)
Definition isDigit (c : ascii) : bool :=
  let n := N_of_ascii c in (48 <=? n)%N && (n <=? 57)%N.

(** [\s] restricted to 8-bit code units: TAB, LF, VT, FF, CR, SPACE, NBSP. *)
Definition isSpace (c : ascii) : bool :=
  let n := N_of_ascii c in
  ((9 <=? n)%N && (n <=? 13)%N) || (n =? 32)%N || (n =? 160)%N.

(** The truth value of a string: only the empty string is falsy. *)
Definition truthy (s : string) : bool :=
  match s with EmptyString => false | String _ _ => true end.

(** [s.startsWith(p)], also [s.indexOf(p) === 0]. *)
Definition startsWith (s p : string) : bool := String.prefix p s.

(** [rows.join(sep)]. *)
Definition join (sep : string) (ls : list string) : string := String.concat sep ls.

(** Puts one more character in front of the first piece of a split. *)
Definition consHead (c : ascii) (ls : list string) : list string :=
  match ls with
  | [] => [String c EmptyString]
  | l :: ls' => String c l :: ls'
  end.

(** [s.split(/\r?\n/)]: the separator is matched at the leftmost position
    where [\r?\n] matches, that is at an LF, or at a CR that an LF follows
    at once; the pieces between the separators are returned, the last one
    included (the empty string splits into one empty piece). *)
Fixpoint split_crlf (s : string) : list string :=
  match s with
  | EmptyString => [EmptyString]
  | String c rest =>
      if isLF c then EmptyString :: split_crlf rest
      else
        match rest with
        | EmptyString => [String c EmptyString]
        | String c' rest' =>
            if isCR c && isLF c' then EmptyString :: split_crlf rest'
            else consHead c (split_crlf rest)
        end
  end.

(** Puts a text in front of the first piece of a split. *)
Definition withPrefix (cur : string) (ls : list string) : list string :=
  match ls with
  | [] => []
  | l :: ls' => (cur ++ l)%string :: ls'
  end.

(** [s.split('\n')], used when an exported file is read back. *)
Fixpoint split_lf (s : string) : list string :=
  match s with
  | EmptyString => [EmptyString]
  | String c rest =>
      if isLF c then EmptyString :: split_lf rest
      else consHead c (split_lf rest)
  end.

(** [s.replace(/\r$/, '')]: one CR is removed when it is the last character. *)
Fixpoint stripCR (s : string) : string :=
  match s with
  | EmptyString => EmptyString
  | String c EmptyString => if isCR c then EmptyString else s
  | String c rest => String c (stripCR rest)
  end.

(** The longest prefix of characters satisfying [p], and what follows it. *)
Fixpoint span (p : ascii -> bool) (s : string) : string * string :=
  match s with
  | EmptyString => (EmptyString, EmptyString)
  | String c rest =>
      if p c then let '(a, b) := span p rest in (String c a, b)
      else (EmptyString, s)
  end.

(** Does every character satisfy [p]?  Does the first one? *)
Fixpoint all (p : ascii -> bool) (s : string) : bool :=
  match s with
  | EmptyString => true
  | String c rest => p c && all p rest
  end.

Definition headIs (p : ascii -> bool) (s : string) : bool :=
  match s with
  | EmptyString => false
  | String c _ => p c
  end.

Definition digitVal (c : ascii) : N := (N_of_ascii c - 48)%N.

(** [Number(ds)] for a run of decimal digits [ds]: the number itself up to
    [2^53]; beyond, the script holds the nearest double. *)
Definition numberOfDigits (ds : string) : N :=
  fold_left (fun acc c => (10 * acc + digitVal c)%N) (list_ascii_of_string ds) 0%N.

(** [String(n)] for a non-negative integer, and for an integer: the decimal
    digits, which is what the script prints for whole numbers below
    [10^21]. *)
Definition showN (n : N) : string := NilEmpty.string_of_uint (N.to_uint n).
Definition showZ (z : Z) : string := NilEmpty.string_of_int (Z.to_int z).

(** Does the string end with a CR? *)
Fixpoint endsWithCR (s : string) : bool :=
  match s with
  | EmptyString => false
  | String c EmptyString => isCR c
  | String _ rest => endsWithCR rest
  end.

Definition startsWithLF (s : string) : bool :=
  match s with String c _ => isLF c | EmptyString => false end.

(** Every CR of the text is followed at once by an LF. *)
Fixpoint crOnlyBeforeLF (s : string) : bool :=
  match s with
  | EmptyString => true
  | String c rest => (if isCR c then startsWithLF rest else true) && crOnlyBeforeLF rest
  end.

Fixpoint hasCR (s : string) : bool :=
  match s with
  | EmptyString => false
  | String c rest => isCR c || hasCR rest
  end.

(** Does the text hold a CR, a CR and an LF in a row? *)
Fixpoint hasCRCRLF (s : string) : bool :=
  match s with
  | String a ((String b (String c _)) as t) =>
      (isCR a && isCR b && isLF c) || hasCRCRLF t
  | _ => false
  end.

End JS.

(** ** Handlers that can throw

    A handler body runs on the session and either completes or throws; what
    it wrote to the session before throwing stays written. *)

Module Eff.

Inductive Completion (A : Type) : Type :=
| Normal (a : A)
| Throw (e : string).
Arguments Normal {A} a.
Arguments Throw {A} e.

Definition M (S A : Type) : Type := S -> Completion A * S.

Definition ret {S A} (a : A) : M S A := fun s => (Normal a, s).

Definition bind {S A B} (m : M S A) (k : A -> M S B) : M S B :=
  fun s =>
    match m s with
    | (Normal a, s1) => k a s1
    | (Throw e, s1) => (Throw e, s1)
    end.

Definition throw {S A} (e : string) : M S A := fun s => (Throw e, s).

(** [try { body } catch (e) { handler(e) }] *)
Definition tryCatch {S A} (body : M S A) (handler : string -> M S A) : M S A :=
  fun s =>
    match body s with
    | (Normal a, s1) => (Normal a, s1)
    | (Throw e, s1) => handler e s1
    end.

(** A statement that cannot throw. *)
Definition exec {S} (f : S -> S) : M S unit := fun s => (Normal tt, f s).

Definition state {S A} (r : Completion A * S) : S := snd r.
Definition completion {S A} (r : Completion A * S) : Completion A := fst r.

Declare Scope eff_scope.
Delimit Scope eff_scope with eff.
Notation "x <- m ;; k" := (bind m (fun x => k))
  (at level 61, m at next level, right associativity) : eff_scope.
Notation "m ;; k" := (bind m (fun _ => k))
  (at level 61, right associativity) : eff_scope.

End Eff.

(** ** app.js *)

Module App.

Definition nl : string := String JS.LF EmptyString.

(** *** State *)

(** One element of [records]: [{tMs, distMm}]. *)
Record Sample := mkSample { tMs : N; distMm : N }.

(** One element of the chart's data set: [{x: seconds, y: cm}]. *)
Record Point := mkPoint { px : Q; py : Q }.

(** The parts of the Chart.js object that the program reads and writes:
    [chart.data.datasets[0].data], [chart.options.scales.x.min],
    [chart.options.scales.x.max], [chart.options.scales.y.suggestedMax].
    The last one is set when the chart is built and only numbers are
    assigned to it, so the [?? Y_INIT_MAX_CM] fallback is never taken. *)
Record Chart := mkChart {
  data : list Point;
  xMin : Q;
  xMax : Q;
  suggestedMax : Q
}.

Definition PortId := nat.

Record Session := mkSession {
  port : option PortId;        (* let port *)
  reader : option PortId;      (* let reader *)
  writer : option PortId;      (* let writer *)
  reading : bool;
  deviceReady : bool;
  wantRunning : bool;
  lastHz : Z;
  records : list Sample;
  chart : Chart;
  status : string;             (* statusEl.textContent *)
  logText : string;            (* logEl.textContent *)
  alerts : list string;        (* every alert(...) shown so far *)
  wire : list string           (* every text given to writer.write so far *)
}.

Definition MAX_POINTS : N := 10000.
Definition X_SPAN_DEFAULT_SEC : Q := 10.
Definition Y_INIT_MAX_CM : Q := 100.

Definition emptyChart : Chart :=
  mkChart [] 0 X_SPAN_DEFAULT_SEC Y_INIT_MAX_CM.

(** The state when the script has been loaded. *)
Definition initial : Session :=
  mkSession None None None false false false 50 [] emptyChart "" "" [] [].

Definition set_port v s := mkSession v (reader s) (writer s) (reading s) (deviceReady s)
  (wantRunning s) (lastHz s) (records s) (chart s) (status s) (logText s) (alerts s) (wire s).
Definition set_reader v s := mkSession (port s) v (writer s) (reading s) (deviceReady s)
  (wantRunning s) (lastHz s) (records s) (chart s) (status s) (logText s) (alerts s) (wire s).
Definition set_writer v s := mkSession (port s) (reader s) v (reading s) (deviceReady s)
  (wantRunning s) (lastHz s) (records s) (chart s) (status s) (logText s) (alerts s) (wire s).
Definition set_reading v s := mkSession (port s) (reader s) (writer s) v (deviceReady s)
  (wantRunning s) (lastHz s) (records s) (chart s) (status s) (logText s) (alerts s) (wire s).
Definition set_deviceReady v s := mkSession (port s) (reader s) (writer s) (reading s) v
  (wantRunning s) (lastHz s) (records s) (chart s) (status s) (logText s) (alerts s) (wire s).
Definition set_wantRunning v s := mkSession (port s) (reader s) (writer s) (reading s)
  (deviceReady s) v (lastHz s) (records s) (chart s) (status s) (logText s) (alerts s) (wire s).
Definition set_lastHz v s := mkSession (port s) (reader s) (writer s) (reading s)
  (deviceReady s) (wantRunning s) v (records s) (chart s) (status s) (logText s) (alerts s) (wire s).
Definition set_records v s := mkSession (port s) (reader s) (writer s) (reading s)
  (deviceReady s) (wantRunning s) (lastHz s) v (chart s) (status s) (logText s) (alerts s) (wire s).
Definition set_chart v s := mkSession (port s) (reader s) (writer s) (reading s)
  (deviceReady s) (wantRunning s) (lastHz s) (records s) v (status s) (logText s) (alerts s) (wire s).
Definition setStatus msg s := mkSession (port s) (reader s) (writer s) (reading s)
  (deviceReady s) (wantRunning s) (lastHz s) (records s) (chart s) msg (logText s) (alerts s) (wire s).
Definition logDebug msg s := mkSession (port s) (reader s) (writer s) (reading s)
  (deviceReady s) (wantRunning s) (lastHz s) (records s) (chart s) (status s)
  (logText s ++ msg ++ nl)%string (alerts s) (wire s).
Definition alert msg s := mkSession (port s) (reader s) (writer s) (reading s)
  (deviceReady s) (wantRunning s) (lastHz s) (records s) (chart s) (status s) (logText s)
  (alerts s ++ [msg]) (wire s).
Definition write txt s := mkSession (port s) (reader s) (writer s) (reading s)
  (deviceReady s) (wantRunning s) (lastHz s) (records s) (chart s) (status s) (logText s)
  (alerts s) (wire s ++ [txt]).

(** *** CSV *)

Definition csvRow (r : Sample) : string :=
  (JS.showN (tMs r) ++ "," ++ JS.showN (distMm r))%string.

Definition toCSV (rows : list Sample) : string :=
  let header := ("t_ms,dist_mm" ++ nl)%string in
  (header ++ JS.join nl (map csvRow rows))%string.

(** *** LineBreakTransformer *)

Record LineBreakTransformer := mkLBT { chunks : string }.

Definition newTransformer : LineBreakTransformer := mkLBT "".

(** [transform(chunk, controller)]: the lines given to [controller.enqueue],
    in order, and the transformer afterwards. *)
Definition transform (t : LineBreakTransformer) (chunk : string)
  : list string * LineBreakTransformer :=
  let chunks1 := (chunks t ++ chunk)%string in
  let lines := JS.split_crlf chunks1 in
  (removelast lines, mkLBT (last lines "")).

(** [flush(controller)]. *)
Definition flush (t : LineBreakTransformer) : list string :=
  if JS.truthy (chunks t) then [chunks t] else [].

(** The transform stream fed with the chunks one after the other. *)
Fixpoint feedAll (t : LineBreakTransformer) (cs : list string)
  : list string * LineBreakTransformer :=
  match cs with
  | [] => ([], t)
  | c :: cs' =>
      let '(ls, t1) := transform t c in
      let '(ls', t2) := feedAll t1 cs' in
      (ls ++ ls', t2)
  end.

(** Everything the stream delivers for the chunks [cs], the source being
    closed after the last chunk. *)
Definition framed (cs : list string) : list string :=
  let '(ls, t) := feedAll newTransformer cs in ls ++ flush t.

(** The whole text received, chunk after chunk. *)
Definition received (cs : list string) : string :=
  fold_right String.append EmptyString cs.

Definition cr : string := String JS.CR EmptyString.

(** The text of a sequence of lines, each one ended by CR LF ([true]) or
    by LF alone ([false]). *)
Definition terminated (ls : list (string * bool)) : string :=
  fold_right (fun (l : string * bool) (acc : string) =>
                (fst l ++ (if snd l then cr ++ nl else nl) ++ acc)%string)
    EmptyString ls.

Fixpoint hasLF (s : string) : bool :=
  match s with
  | EmptyString => false
  | String c rest => JS.isLF c || hasLF rest
  end.

(** A line without CR and without LF. *)
Definition plain (l : string) : bool := negb (JS.hasCR l) && negb (hasLF l).

(** *** Sending *)

(** [writer.write] is taken to complete: the text is on the wire once the
    call is made, and the line is then noted in the log. *)
Definition sendLine (line : string) (s : Session) : Session :=
  match writer s with
  | None => s
  | Some _ => logDebug ("# " ++ line) (write (line ++ nl)%string s)
  end.

(** *** Records and axes *)

(** [a.push(v); if (a.length > cap) a.shift();] *)
Definition pushBounded {A : Type} (cap : N) (a : list A) (v : A) : list A :=
  let a1 := a ++ [v] in
  if (cap <? N.of_nat (List.length a1))%N then tl a1 else a1.

(** [latestCm * 1.1] is computed exactly here; in double precision the
    product can come out one unit in the last place higher, which moves the
    ceiling up by one at a few values and leaves the comparisons as they are. *)
Definition updateChartAutoAxis (c : Chart) : Chart :=
  match rev (data c) with
  | [] => c
  | latest :: _ =>
      let nowSec := px latest in
      let xmin := Qmax 0 (nowSec - X_SPAN_DEFAULT_SEC) in
      let xmax := Qmax X_SPAN_DEFAULT_SEC nowSec in
      let latestCm := py latest in
      let curMax := suggestedMax c in
      let target := Qmax Y_INIT_MAX_CM (inject_Z (Qceiling (latestCm * (11 # 10)))) in
      mkChart (data c) xmin xmax (Qmax curMax target)
  end.

Definition pushPoint (t d : N) (s : Session) : Session :=
  let s1 := set_records (pushBounded MAX_POINTS (records s) (mkSample t d)) s in
  let c := chart s1 in
  let arr := pushBounded MAX_POINTS (data c)
               (mkPoint (Z.of_N t # 1000) (Z.of_N d # 10)) in
  set_chart (updateChartAutoAxis (mkChart arr (xMin c) (xMax c) (suggestedMax c))) s1.

(** The data lines of a stretch of the stream, handled one after the
    other: a [pushPoint] for each pair [(tMs, distMm)]. *)
Definition pushAll (ps : list (N * N)) (s : Session) : Session :=
  fold_left (fun s p => pushPoint (fst p) (snd p) s) ps s.

(** The last [cap] elements of a list. *)
Definition lastN {A : Type} (cap : N) (l : list A) : list A :=
  skipn (List.length l - N.to_nat cap) l.

Definition clearDataAndAxes (s : Session) : Session :=
  set_chart emptyChart (set_records [] s).

(** *** The reader loop *)

Fixpoint dropSpaces (s : string) : string :=
  match s with
  | String c rest => if JS.isSpace c then dropSpaces rest else s
  | EmptyString => s
  end.

(** [value.match(/^(\d+)\s*,\s*(\d+)/)]: the two captured groups.  Every
    quantifier is greedy and no shorter choice can make the rest match, so
    the first group is the longest run of digits at the start, and the
    second the longest run of digits after the comma and its spaces. *)
Definition matchData (value : string) : option (string * string) :=
  let '(g1, r1) := JS.span JS.isDigit value in
  if JS.truthy g1 then
    match dropSpaces r1 with
    | String c r2 =>
        if Ascii.eqb c ","%char then
          let '(g2, _) := JS.span JS.isDigit (dropSpaces r2) in
          if JS.truthy g2 then Some (g1, g2) else None
        else None
    | EmptyString => None
    end
  else None.

Definition startCommand (hz : Z) : string := ("START hz=" ++ JS.showZ hz)%string.

(** The body of [while (reading) { ... }] for one line [value] read from
    the stream ([done] being false). *)
Definition onValue (value : string) (s : Session) : Session :=
  if negb (JS.truthy value) then s
  else if JS.startsWith value "ESP-ROM:" then s
  else if JS.startsWith value "#" then
    let s1 := logDebug value s in
    if JS.startsWith value "# READY" then
      let s2 := setStatus "READY" (set_deviceReady true s1) in
      if wantRunning s2 then sendLine (startCommand (lastHz s2)) s2 else s2
    else if JS.startsWith value "# START" then
      setStatus ("RUNNING @ " ++ JS.showZ (lastHz s1) ++ " Hz")%string s1
    else if JS.startsWith value "# STOP" then setStatus "STOPPED" s1
    else if JS.startsWith value "# RESET" then
      setStatus "READY" (clearDataAndAxes s1)
    else if JS.startsWith value "# CAL OK" || JS.startsWith value "# OFFSET" then
      setStatus "CALIBRATED" s1
    else s1
  else
    match matchData value with
    | Some (g1, g2) => pushPoint (JS.numberOfDigits g1) (JS.numberOfDigits g2) s
    | None => s
    end.

(** *** Button handlers *)

Import Eff.
Local Open Scope eff_scope.

(** What the browser answers while the Connect handler runs:
    [navigator.serial.requestPort()] gives a port or fails (no
    [navigator.serial], no port chosen, permission denied); [port.open]
    and [port.setSignals] complete or fail with a message. *)
Record ConnectEnv := mkConnectEnv {
  requestPortResult : PortId + string;
  openResult : option string;
  setSignalsResult : option string
}.

Definition requestPort (env : ConnectEnv) : M Session PortId :=
  match requestPortResult env with
  | inl p => ret p
  | inr e => throw e
  end.

Definition orThrow (r : option string) : M Session unit :=
  match r with
  | None => ret tt
  | Some e => throw e
  end.

(** The part of [startReaderLoop()] that runs before its first [await]:
    the reader of the piped stream is taken. *)
Definition startReaderLoop (s : Session) : Session := set_reader (port s) s.

Definition btnConnect (env : ConnectEnv) : M Session unit :=
  tryCatch
    (p <- requestPort env ;;
     exec (set_port (Some p)) ;;
     orThrow (openResult env) ;;
     orThrow (setSignalsResult env) ;;
     exec (set_writer (Some p)) ;;
     exec (set_reading true) ;;
     exec (set_deviceReady false) ;;
     exec (set_wantRunning false) ;;
     exec clearDataAndAxes ;;
     exec (setStatus "CONNECTING…") ;;
     exec startReaderLoop ;;
     exec (sendLine "HELP"))
    (fun e => exec (alert ("Serial接続に失敗: " ++ e)%string)).

(** The reader loop ends once its reader is cancelled, and its [finally]
    clears [reader]. *)
Definition btnDisconnect (s : Session) : Session :=
  let s1 := set_reading false (set_wantRunning false s) in
  let s2 := set_reader None s1 in
  let s3 := set_writer None s2 in
  setStatus "DISCONNECTED" (set_port None s3).

(** [x || d] for a number [x], [None] standing for [NaN]. *)
Definition orElse (x : option Z) (d : Z) : Z :=
  match x with
  | Some z => if (z =? 0)%Z then d else z
  | None => d
  end.

(** [hzValue] is [Number(hzNum.value)] for a whole number typed, [None]
    for [NaN]. *)
Definition btnStart (hzValue : option Z) (s : Session) : Session :=
  match port s with
  | None => alert "先にConnectしてください" s
  | Some _ =>
      let s1 := set_wantRunning true (set_lastHz (orElse hzValue 50) s) in
      if deviceReady s1 then sendLine (startCommand (lastHz s1)) s1
      else setStatus "WAITING READY…" s1
  end.

Definition btnStop (s : Session) : Session :=
  let s1 := set_wantRunning false s in
  match writer s1 with
  | Some _ => sendLine "STOP" s1
  | None => s1
  end.

Definition btnReset (s : Session) : Session :=
  let s1 := clearDataAndAxes (set_wantRunning false s) in
  match writer s1 with
  | Some _ => sendLine "RESET" s1
  | None => s1
  end.

(** [cmValue] is [Number(knownCm.value)] for a whole number typed, [None]
    for [NaN]. *)
Definition btnCal (cmValue : option Z) (s : Session) : Session :=
  match port s with
  | None => alert "先にConnectしてください" s
  | Some _ => sendLine ("CAL cm=" ++ JS.showZ (orElse cmValue 0))%string s
  end.

(** The text handed to the download, and the session afterwards. *)
Definition btnCsv (s : Session) : string * Session := (toCSV (records s), s).

(** *** The session states named by the design, read off the variables

    [port] is what the handlers test to tell a connected session
    ([if (!port) alert(...)]); [deviceReady] is what makes Start send its
    command at once; [wantRunning] is the wish to run. *)
Inductive Phase := Disconnected | AwaitingReady | Ready | Running.

Definition phase (s : Session) : Phase :=
  match port s with
  | None => Disconnected
  | Some _ =>
      if deviceReady s then (if wantRunning s then Running else Ready)
      else AwaitingReady
  end.

(** Two sessions met below: the browser grants port 1 and every call
    succeeds; then the device reports [# READY]. *)
Definition grantAll : ConnectEnv := mkConnectEnv (inl 1%nat) None None.

Definition connected : Session := Eff.state (btnConnect grantAll initial).

Definition connectedReady : Session := onValue "# READY" connected.

(** *** Reading an exported file back

    The file is cut into lines, the header line is dropped, and every other
    line is read the way the reader loop reads a data line. *)
Definition parseRow (line : string) : option Sample :=
  match matchData line with
  | Some (g1, g2) => Some (mkSample (JS.numberOfDigits g1) (JS.numberOfDigits g2))
  | None => None
  end.

Fixpoint keepSome {A : Type} (l : list (option A)) : list A :=
  match l with
  | [] => []
  | Some a :: l' => a :: keepSome l'
  | None :: l' => keepSome l'
  end.

Definition parseCSV (text : string) : list Sample :=
  keepSome (map parseRow (tl (JS.split_lf text))).

End App.

(** ** The millimetre-only revision of the script

    The device sends a bare number of millimetres per line; the page keeps a
    table, a log and a chart in milliseconds and millimetres. *)

Module Legacy.

Import Eff.
Local Open Scope eff_scope.

Definition nl : string := App.nl.

(** One element of [records]: [{t, mm}]; also one chart point [{x, y}]. *)
Record Rec := mkRec { t : Q; mm : Q }.

Record Session := mkSession {
  port : option nat;
  reader : option nat;
  writer : option nat;
  reading : bool;
  records : list Rec;
  ds : list Rec;               (* chart.data.datasets[0].data *)
  xMax : Q;                    (* chart.options.scales.x.max *)
  yMax : Q;                    (* chart.options.scales.y.max *)
  chartTimer : bool;           (* is the redraw timer set? *)
  logLines : list string;      (* the lines of logEl.textContent *)
  alerts : list string;
  wire : list string
}.

Definition INITIAL_Y_MAX : Q := 1000.
Definition INITIAL_X_SPAN : Q := 10000.
Definition MAX_POINTS : nat := 2000.
Definition MAX_RECORDS : nat := 5000.

Definition initial : Session :=
  mkSession None None None false [] [] INITIAL_X_SPAN INITIAL_Y_MAX false [] [] [].

Definition set_reading v s := mkSession (port s) (reader s) (writer s) v (records s) (ds s)
  (xMax s) (yMax s) (chartTimer s) (logLines s) (alerts s) (wire s).
Definition set_reader v s := mkSession (port s) v (writer s) (reading s) (records s) (ds s)
  (xMax s) (yMax s) (chartTimer s) (logLines s) (alerts s) (wire s).
Definition set_records v s := mkSession (port s) (reader s) (writer s) (reading s) v (ds s)
  (xMax s) (yMax s) (chartTimer s) (logLines s) (alerts s) (wire s).
Definition set_ds v s := mkSession (port s) (reader s) (writer s) (reading s) (records s) v
  (xMax s) (yMax s) (chartTimer s) (logLines s) (alerts s) (wire s).
Definition set_xMax v s := mkSession (port s) (reader s) (writer s) (reading s) (records s)
  (ds s) v (yMax s) (chartTimer s) (logLines s) (alerts s) (wire s).
Definition set_yMax v s := mkSession (port s) (reader s) (writer s) (reading s) (records s)
  (ds s) (xMax s) v (chartTimer s) (logLines s) (alerts s) (wire s).
Definition set_chartTimer v s := mkSession (port s) (reader s) (writer s) (reading s)
  (records s) (ds s) (xMax s) (yMax s) v (logLines s) (alerts s) (wire s).
Definition log msg s := mkSession (port s) (reader s) (writer s) (reading s) (records s)
  (ds s) (xMax s) (yMax s) (chartTimer s) (logLines s ++ [msg]) (alerts s) (wire s).
Definition alert msg s := mkSession (port s) (reader s) (writer s) (reading s) (records s)
  (ds s) (xMax s) (yMax s) (chartTimer s) (logLines s) (alerts s ++ [msg]) (wire s).
Definition write txt s := mkSession (port s) (reader s) (writer s) (reading s) (records s)
  (ds s) (xMax s) (yMax s) (chartTimer s) (logLines s) (alerts s) (wire s ++ [txt]).

Definition sendLine (line : string) : M Session unit :=
  fun s =>
    match writer s with
    | None => throw "Error: writer not ready" s
    | Some _ => exec (write (line ++ nl)%string) s
    end.

(** [a > b] on numbers. *)
Definition gtb (a b : Q) : bool := negb (Qle_bool a b).

Definition ceilTo (v step : Q) : Q := inject_Z (Qceiling (v / step)) * step.

Definition stepCandidates : list Q := [100; 200; 250; 500; 1000; 2000; 5000].

(** The [for (const step of stepCandidates)] loop of [niceCeil]: the value
    returned from inside the loop, or [None] when the loop runs to its end.
    The quotient and the product are exact here; the doubles of the script
    give the same for whole numbers up to [2^32]. *)
Fixpoint niceCeilLoop (v : Q) (steps : list Q) : option Q :=
  match steps with
  | [] => None
  | step :: steps' =>
      let n := ceilTo v step in
      if Qle_bool v n then Some n else niceCeilLoop v steps'
  end.

Definition niceCeilWith (v : Q) (steps : list Q) : Q :=
  match niceCeilLoop v steps with
  | Some n => n
  | None => ceilTo v (List.last steps 0)
  end.

Definition niceCeil (v : Q) : Q := niceCeilWith v stepCandidates.

Definition ensureAxes (t mm : Q) (s : Session) : Session :=
  let s1 :=
    if gtb t (xMax s) then
      let blocks := inject_Z (Qceiling (t / INITIAL_X_SPAN)) in
      set_xMax (blocks * INITIAL_X_SPAN) s
    else s in
  if gtb mm (yMax s1) then set_yMax (niceCeil mm) s1 else s1.

(** [a.splice(0, a.length - cap)] when [a.length > cap]. *)
Definition trimTo {A : Type} (cap : nat) (a : list A) : list A :=
  if (cap <? List.length a)%nat then skipn (List.length a - cap) a else a.

Definition addRecord (t mm : Q) (s : Session) : Session :=
  let s1 := set_records (trimTo MAX_RECORDS (records s ++ [mkRec t mm])) s in
  let s2 := set_ds (trimTo MAX_POINTS (ds s1 ++ [mkRec t mm])) s1 in
  ensureAxes t mm s2.

Definition addAll (rs : list Rec) (s : Session) : Session :=
  fold_left (fun s r => addRecord (t r) (mm r) s) rs s.

(** The inner loop of [startReading]: as long as the buffer holds an LF,
    the text before the first one, less one CR at its end, is a line and
    the buffer keeps what follows.  [cur] is the text already passed over. *)
Fixpoint drain (cur : string) (buf : string) : list string * string :=
  match buf with
  | EmptyString => ([], cur)
  | String c rest =>
      if JS.isLF c then
        let '(ls, b) := drain EmptyString rest in (JS.stripCR cur :: ls, b)
      else drain (cur ++ String c EmptyString)%string rest
  end.

(** One chunk read: the lines given to [parseLine] and the buffer kept. *)
Definition onChunk (buf value : string) : list string * string :=
  if JS.truthy value then drain EmptyString (buf ++ value)%string else ([], buf).

Fixpoint onChunks (buf : string) (cs : list string) : list string * string :=
  match cs with
  | [] => ([], buf)
  | c :: cs' =>
      let '(ls, b1) := onChunk buf c in
      let '(ls', b2) := onChunks b1 cs' in
      (ls ++ ls', b2)
  end.

(** [Math.min(Math.max(Number(hzNum.value) || 50, 1), 50)] for a whole
    number typed, [None] for [NaN]. *)
Definition clampHz (hzValue : option Z) : Z :=
  Z.min (Z.max (App.orElse hzValue 50) 1) 50.

(** The part of [startReading()] that runs before its first [await]. *)
Definition startReading (s : Session) : Session :=
  match port s with
  | None => s
  | Some p => set_reader (Some p) (set_reading true s)
  end.

Definition btnStart (hzValue : option Z) : M Session unit :=
  fun s =>
    match port s, writer s with
    | Some _, Some _ =>
        let hz := clampHz hzValue in
        (sendLine ("START hz=" ++ JS.showZ hz)%string ;;
         exec (log ("# START hz=" ++ JS.showZ hz)%string) ;;
         exec startReading ;;
         exec (set_chartTimer true)) s
    | _, _ => exec (alert "先にConnectしてください") s
    end.

Definition btnStop : M Session unit :=
  tryCatch (sendLine "STOP") (fun _ => ret tt) ;;
  exec (set_reading false) ;;
  exec (set_chartTimer false) ;;
  exec (log "# STOP sent").

Definition btnRate (hzValue : option Z) : M Session unit :=
  let hz := clampHz hzValue in
  sendLine ("RATE hz=" ++ JS.showZ hz)%string ;;
  exec (log ("# RATE hz=" ++ JS.showZ hz)%string).

(** *** Start and Rate for any number typed

    The same two handlers with the number typed taken as any finite number,
    a fraction included ([None] for [NaN]).  [Math.max] and [Math.min] give
    back one of their arguments, so no rounding takes place; [str] is the
    printing of the number in [`START hz=${hz}`]. *)
Definition orElseNum (x : option Q) (d : Q) : Q :=
  match x with
  | Some q => if Qeq_bool q 0 then d else q
  | None => d
  end.

Definition clampNum (hzValue : option Q) : Q :=
  Qmin (Qmax (orElseNum hzValue 50) 1) 50.

Definition btnStartNum (str : Q -> string) (hzValue : option Q) : M Session unit :=
  fun s =>
    match port s, writer s with
    | Some _, Some _ =>
        let hz := clampNum hzValue in
        (sendLine ("START hz=" ++ str hz)%string ;;
         exec (log ("# START hz=" ++ str hz)%string) ;;
         exec startReading ;;
         exec (set_chartTimer true)) s
    | _, _ => exec (alert "先にConnectしてください") s
    end.

Definition btnRateNum (str : Q -> string) (hzValue : option Q) : M Session unit :=
  let hz := clampNum hzValue in
  sendLine ("RATE hz=" ++ str hz)%string ;;
  exec (log ("# RATE hz=" ++ str hz)%string).

(** *** CSV

    [`${r.t},${r.mm}`] prints the two numbers of a record.  The time is
    whole ([Math.round]) and the distance is whole when the device sends
    whole millimetres; a whole number of magnitude up to [2^53] prints as
    its decimal digits, with [-] before a negative one, and that is what
    [showNum] gives.  What the script prints for a fraction or for a larger
    number is not given here. *)
Definition showNum (q : Q) : string := JS.showZ (Qnum q).

Definition csvRow (r : Rec) : string :=
  (showNum (t r) ++ "," ++ showNum (mm r))%string.

Definition toCSV (list : list Rec) : string :=
  JS.join nl ("time_ms,distance_mm" :: map csvRow list).

(** The text handed to the download, and the session afterwards. *)
Definition btnCsv (s : Session) : string * Session := (toCSV (records s), s).

End Legacy.

(** ** Sequences of events in app.js

    The handlers and the body of the reader loop run one at a time; a run of
    the page is a sequence of clicks and of lines read, in any order. *)

Module AppRun.

Inductive Event :=
| Line (value : string)
| Connect (env : App.ConnectEnv)
| Disconnect
| Start (hzValue : option Z)
| Stop
| Reset
| Cal (cmValue : option Z)
| Csv.

Definition step (s : App.Session) (e : Event) : App.Session :=
  match e with
  | Line value => App.onValue value s
  | Connect env => Eff.state (App.btnConnect env s)
  | Disconnect => App.btnDisconnect s
  | Start hzValue => App.btnStart hzValue s
  | Stop => App.btnStop s
  | Reset => App.btnReset s
  | Cal cmValue => App.btnCal cmValue s
  | Csv => snd (App.btnCsv s)
  end.

Definition run (es : list Event) (s : App.Session) : App.Session :=
  fold_left step es s.

(** Is this an event other than a click on Connect? *)
Definition notConnect (e : Event) : bool :=
  match e with
  | Connect _ => false
  | _ => true
  end.

(** The case in which the reader loop sends the start command: the line
    starts with [# READY], [wantRunning] is set and a writer is held. *)
Definition writesStart (value : string) (s : App.Session) : bool :=
  JS.startsWith value "# READY" && App.wantRunning s
  && match App.writer s with Some _ => true | None => false end.

(** The chart point [{ x: tMs / 1000, y: distMm / 10 }] of a record. *)
Definition toPoint (r : App.Sample) : App.Point :=
  App.mkPoint (Z.of_N (App.tMs r) # 1000) (Z.of_N (App.distMm r) # 10).

(** The texts the handlers give to [sendLine], ended by the LF that
    [sendLine] adds. *)
Inductive Command : string -> Prop :=
| cmd_help : Command ("HELP" ++ App.nl)
| cmd_start (hz : Z) : hz <> 0%Z -> Command (App.startCommand hz ++ App.nl)
| cmd_stop : Command ("STOP" ++ App.nl)
| cmd_reset : Command ("RESET" ++ App.nl)
| cmd_cal (cm : Z) : Command (("CAL cm=" ++ JS.showZ cm) ++ App.nl).

(** The events that call [clearDataAndAxes]: a [# RESET] line, a click on
    Reset, and a click on Connect when the port is granted, opens and takes
    the signals. *)
Definition clears (e : Event) : bool :=
  match e with
  | Line value => JS.startsWith value "# RESET"
  | Reset => true
  | Connect env =>
      match App.requestPortResult env, App.openResult env, App.setSignalsResult env with
      | inl _, None, None => true
      | _, _, _ => false
      end
  | _ => false
  end.

(** What is to hold of the records and the chart in every state of a run:
    the records are within the capacity and the chart plots them. *)
Definition storeInv (s : App.Session) : Prop :=
  (N.of_nat (List.length (App.records s)) <= App.MAX_POINTS)%N
  /\ App.data (App.chart s) = map toPoint (App.records s).

(** What is to hold of the axes: a time window of 10 s from 0 or later, an
    upper limit of 100 cm or more, and no plotted point above that limit. *)
Definition axesInv (s : App.Session) : Prop :=
  App.xMax (App.chart s) - App.xMin (App.chart s) == 10
  /\ 0 <= App.xMin (App.chart s)
  /\ App.Y_INIT_MAX_CM <= App.suggestedMax (App.chart s)
  /\ Forall (fun p => App.py p <= App.suggestedMax (App.chart s))
       (App.data (App.chart s)).

(** What is to hold of the port: only commands were written, the rate to
    send is not 0, and a writer or a wish to run goes with a port. *)
Definition portInv (s : App.Session) : Prop :=
  Forall Command (App.wire s)
  /\ App.lastHz s <> 0%Z
  /\ (App.writer s <> None -> App.port s <> None)
  /\ (App.wantRunning s = true -> App.port s <> None).

End AppRun.

(** ** The millimetre-only revision: Clear *)

Module LegacyRun.

(** The Clear button: records, log, chart data and axis limits go back to
    their first values (the table of the page is emptied too). *)
Definition btnClear (s : Legacy.Session) : Legacy.Session :=
  Legacy.mkSession (Legacy.port s) (Legacy.reader s) (Legacy.writer s) (Legacy.reading s)
    [] [] Legacy.INITIAL_X_SPAN Legacy.INITIAL_Y_MAX (Legacy.chartTimer s) []
    (Legacy.alerts s) (Legacy.wire s).

Inductive Event :=
| Add (t mm : Q)
| Clear.

Definition step (s : Legacy.Session) (e : Event) : Legacy.Session :=
  match e with
  | Add t mm => Legacy.addRecord t mm s
  | Clear => btnClear s
  end.

Definition run (es : list Event) (s : Legacy.Session) : Legacy.Session :=
  fold_left step es s.

End LegacyRun.

(** ** The revision with the span and limit inputs

    [updateChartAutoAxis] reads the span of the time axis and the least upper
    limit of the distance axis from two inputs of the page, and the latest
    sample from [records]. *)

Module Full.

Record Chart := mkChart {
  data : list App.Point;
  xMin : option Q;              (* chart.options.scales.x.min, unset at first *)
  xMax : option Q;              (* chart.options.scales.x.max, unset at first *)
  suggestedMax : Q
}.

Record Store := mkStore {
  records : list App.Sample;
  chart : Chart
}.

Definition initial : Store := mkStore [] (mkChart [] None None 100).

(** [x || d] for a number [x], [None] standing for [NaN]. *)
Definition orElse (x : option Q) (d : Q) : Q :=
  match x with
  | Some q => if Qeq_bool q 0 then d else q
  | None => d
  end.

(** [xSpanValue] is [Number(xSpanInput?.value)], [yMaxValue] is
    [Number(yMaxInput?.value)].  The difference [nowSec - spanSec] is exact
    here; the doubles of the script give a window of the same width for a
    whole span and a time up to [2^32] ms. *)
Definition updateChartAutoAxis (xSpanValue yMaxValue : option Q) (st : Store) : Store :=
  let c := chart st in
  let spanSec := orElse xSpanValue 10 in
  let nowSec :=
    match rev (records st) with
    | r :: _ => (Z.of_N (App.tMs r) # 1000)
    | [] => 0
    end in
  let xmin := Qmax 0 (nowSec - spanSec) in
  let xmax := Qmax spanSec nowSec in
  let userYMax := orElse yMaxValue 100 in
  let latestCm :=
    match rev (records st) with
    | r :: _ => (Z.of_N (App.distMm r) # 10)
    | [] => 0
    end in
  let currentMax := suggestedMax c in
  let target := Qmax userYMax (latestCm * (11 # 10)) in
  mkStore (records st)
    (mkChart (data c) (Some xmin) (Some xmax)
       (Qmax currentMax (inject_Z (Qceiling target)))).

Definition pushPoint (xSpanValue yMaxValue : option Q) (t d : N) (st : Store) : Store :=
  let recs := App.pushBounded App.MAX_POINTS (records st) (App.mkSample t d) in
  let c := chart st in
  let arr := App.pushBounded App.MAX_POINTS (data c)
               (App.mkPoint (Z.of_N t # 1000) (Z.of_N d # 10)) in
  updateChartAutoAxis xSpanValue yMaxValue
    (mkStore recs (mkChart arr (xMin c) (xMax c) (suggestedMax c))).

End Full.

(** ** The second copy of the script in app.js

    It has no Reset and no calibration: its reader loop knows the lines
    [# READY], [# START] and [# STOP] only, and its Connect handler empties
    records and chart data without touching the axes.  The rest is as in the
    first copy. *)

Module App2.

Import Eff.
Local Open Scope eff_scope.

Definition onValue (value : string) (s : App.Session) : App.Session :=
  if negb (JS.truthy value) then s
  else if JS.startsWith value "ESP-ROM:" then s
  else if JS.startsWith value "#" then
    let s1 := App.logDebug value s in
    if JS.startsWith value "# READY" then
      let s2 := App.setStatus "READY" (App.set_deviceReady true s1) in
      if App.wantRunning s2 then App.sendLine (App.startCommand (App.lastHz s2)) s2 else s2
    else if JS.startsWith value "# START" then
      App.setStatus ("RUNNING @ " ++ JS.showZ (App.lastHz s1) ++ " Hz")%string s1
    else if JS.startsWith value "# STOP" then App.setStatus "STOPPED" s1
    else s1
  else
    match App.matchData value with
    | Some (g1, g2) => App.pushPoint (JS.numberOfDigits g1) (JS.numberOfDigits g2) s
    | None => s
    end.

(** [records.length = 0; chart.data.datasets[0].data = [];] *)
Definition clearData (s : App.Session) : App.Session :=
  let c := App.chart s in
  App.set_chart (App.mkChart [] (App.xMin c) (App.xMax c) (App.suggestedMax c))
    (App.set_records [] s).

Definition btnConnect (env : App.ConnectEnv) : M App.Session unit :=
  tryCatch
    (p <- App.requestPort env ;;
     exec (App.set_port (Some p)) ;;
     App.orThrow (App.openResult env) ;;
     App.orThrow (App.setSignalsResult env) ;;
     exec (App.set_writer (Some p)) ;;
     exec (App.set_reading true) ;;
     exec (App.set_deviceReady false) ;;
     exec (App.set_wantRunning false) ;;
     exec clearData ;;
     exec (App.setStatus "CONNECTING…") ;;
     exec App.startReaderLoop ;;
     exec (App.sendLine "HELP"))
    (fun e => exec (App.alert ("Serial接続に失敗: " ++ e)%string)).

End App2.

(** ** From the chunks read to the session *)

Module Stream.

(** The reader loop run on every line that the transform stream delivers
    for the chunks [cs], the stream being closed after the last chunk. *)
Definition feed (cs : list string) (s : App.Session) : App.Session :=
  fold_left (fun s value => App.onValue value s) (App.framed cs) s.

(** What the device sends for a list of samples: one line [<tMs>,<distMm>]
    for each, ended by CR LF ([true]) or by LF alone ([false]). *)
Definition sent (rows : list (App.Sample * bool)) : string :=
  App.terminated (map (fun p => (App.csvRow (fst p), snd p)) rows).

End Stream.

(** ** Where the numbers of the script are exact

    The script computes in double precision.  A whole number up to [2^53]
    is held as it is: [Number] of its digits is the number, and it prints in
    plain decimal.  On whole numbers up to [2^32] the quotients, products
    and ceilings that the script takes (by 10, 100, 1000, 10000 and by 1.1)
    are off by less than what would change a comparison or a ceiling.  The
    properties that depend on the value of a number are stated for numbers
    within these ranges. *)

Module Exact.

Definition safe : N := 9007199254740992.

Definition limit : N := 4294967296.

(** A record whose two fields are whole numbers up to [2^53]. *)
Definition safeSample (r : App.Sample) : bool :=
  (App.tMs r <=? safe)%N && (App.distMm r <=? safe)%N.

(** What [Number(input.value)] gives for a whole number typed, of magnitude
    up to [2^53], or for nothing valid typed ([None]). *)
Definition safeInput (x : option Z) : bool :=
  match x with
  | Some z => (Z.abs z <=? Z.of_N safe)%Z
  | None => true
  end.

(** A whole number of magnitude up to [2^32]. *)
Definition whole (q : Q) : bool :=
  (Qden q =? 1)%positive && (Z.abs (Qnum q) <=? Z.of_N limit)%Z.

Definition wholeInput (x : option Q) : bool :=
  match x with
  | Some q => whole q
  | None => true
  end.

(** A line received by app.js whose numbers are in range: when it is a data
    line, its two fields are up to [2^32]. *)
Definition lineInRange (e : AppRun.Event) : bool :=
  match e with
  | AppRun.Line value =>
      match App.matchData value with
      | Some (g1, g2) =>
          (JS.numberOfDigits g1 <=? limit)%N && (JS.numberOfDigits g2 <=? limit)%N
      | None => true
      end
  | _ => true
  end.

(** A click in app.js whose number is in range: the rate or the length
    typed is whole and of magnitude up to [2^53], or nothing valid. *)
Definition typedInRange (e : AppRun.Event) : bool :=
  match e with
  | AppRun.Start hzValue => safeInput hzValue
  | AppRun.Cal cmValue => safeInput cmValue
  | _ => true
  end.

(** A whole number from 0 up to [2^53], and a record of the millimetre-only
    revision with two such fields. *)
Definition count (q : Q) : bool :=
  (Qden q =? 1)%positive && (0 <=? Qnum q)%Z && (Qnum q <=? Z.of_N safe)%Z.

Definition safeRec (r : Legacy.Rec) : bool :=
  count (Legacy.t r) && count (Legacy.mm r).

(** An event of the millimetre-only revision whose numbers are in range. *)
Definition wholeEvent (e : LegacyRun.Event) : bool :=
  match e with
  | LegacyRun.Add t mm => whole t && whole mm
  | LegacyRun.Clear => true
  end.

End Exact.

(** * Properties *)

(** ** Strings and lists *)

Lemma append_nil_r (s : string) : (s ++ "")%string = s.
Proof. induction s as [|c s IH]; simpl; [reflexivity | now rewrite IH]. Qed.

Lemma append_assoc (a b c : string) : ((a ++ b) ++ c)%string = (a ++ (b ++ c))%string.
Proof. induction a as [|x a IH]; simpl; [reflexivity | now rewrite IH]. Qed.

Lemma string_ind2 (P : string -> Prop) :
  P EmptyString ->
  (forall c, P (String c EmptyString)) ->
  (forall c c' r, P r -> P (String c' r) -> P (String c (String c' r))) ->
  forall s, P s.
Proof.
  intros H0 H1 H2 s.
  assert (both : P s /\ forall c, P (String c s)).
  { induction s as [|c' r [IHr IHc]].
    - split; [exact H0 | exact H1].
    - split; [apply IHc | intro c; apply H2; [exact IHr | apply IHc]]. }
  exact (proj1 both).
Qed.

Lemma removelast_cons {A} (x : A) (l : list A) :
  l <> [] -> removelast (x :: l) = x :: removelast l.
Proof. destruct l; [congruence | reflexivity]. Qed.

Lemma last_cons {A} (x : A) (l : list A) (d : A) :
  l <> [] -> last (x :: l) d = last l d.
Proof. destruct l; [congruence | reflexivity]. Qed.

Lemma last_app_nonempty {A} (l1 l2 : list A) (d : A) :
  l2 <> [] -> last (l1 ++ l2) d = last l2 d.
Proof.
  intros H. induction l1 as [|x l1 IH]; simpl; [reflexivity|].
  destruct (l1 ++ l2) eqn:E.
  - apply app_eq_nil in E. tauto.
  - exact IH.
Qed.

(** ** The split on [\r?\n] *)

Lemma split_crlf_two (c c' : ascii) (r : string) :
  JS.split_crlf (String c (String c' r)) =
  if JS.isLF c then EmptyString :: JS.split_crlf (String c' r)
  else if JS.isCR c && JS.isLF c' then EmptyString :: JS.split_crlf r
  else JS.consHead c (JS.split_crlf (String c' r)).
Proof. reflexivity. Qed.

Lemma split_crlf_one (c : ascii) :
  JS.split_crlf (String c EmptyString) =
  if JS.isLF c then [EmptyString; EmptyString] else [String c EmptyString].
Proof. reflexivity. Qed.

Lemma consHead_nonempty (c : ascii) (l : list string) : JS.consHead c l <> [].
Proof. destruct l; discriminate. Qed.

Lemma split_crlf_nonempty (s : string) : JS.split_crlf s <> [].
Proof.
  induction s as [| c | c c' r IHr IHc] using string_ind2.
  - discriminate.
  - rewrite split_crlf_one. destruct (JS.isLF c); discriminate.
  - rewrite split_crlf_two.
    destruct (JS.isLF c); [discriminate|].
    destruct (JS.isCR c && JS.isLF c'); [discriminate|].
    apply consHead_nonempty.
Qed.

Lemma split_crlf_cons (c : ascii) (s : string) :
  JS.isLF c = false ->
  JS.isCR c && JS.startsWithLF s = false ->
  JS.split_crlf (String c s) = JS.consHead c (JS.split_crlf s).
Proof.
  intros HLF HCR. destruct s as [|c' r].
  - rewrite split_crlf_one, HLF. reflexivity.
  - rewrite split_crlf_two, HLF. simpl in HCR. now rewrite HCR.
Qed.

Lemma split_crlf_single_head (c : ascii) (r x : string) :
  JS.split_crlf (String c r) = [x] -> exists x', x = String c x'.
Proof.
  destruct r as [|c' r'].
  - rewrite split_crlf_one. destruct (JS.isLF c); intros H; [discriminate H|].
    injection H as <-. eauto.
  - rewrite split_crlf_two.
    pose proof (split_crlf_nonempty r') as Hr'.
    pose proof (split_crlf_nonempty (String c' r')) as Hr.
    destruct (JS.isLF c).
    + intros H. injection H as _ H. contradiction.
    + destruct (JS.isCR c && JS.isLF c').
      * intros H. injection H as _ H. contradiction.
      * destruct (JS.split_crlf (String c' r')) as [|y ys]; [contradiction|].
        simpl. intros H. injection H as <- _. eauto.
Qed.

(** Splitting a text given in two parts: the complete pieces of the first
    part stay, and its last piece is continued by the second part. *)
Lemma split_crlf_app (a b : string) :
  JS.split_crlf (a ++ b) =
  removelast (JS.split_crlf a) ++ JS.split_crlf (last (JS.split_crlf a) "" ++ b).
Proof.
  revert b. induction a as [| c | c c' r IHr IHc] using string_ind2; intros b.
  - reflexivity.
  - rewrite split_crlf_one.
    destruct (JS.isLF c) eqn:HLF; simpl; [|reflexivity].
    now rewrite HLF.
  - change ((String c (String c' r) ++ b)%string) with (String c (String c' (r ++ b))).
    rewrite !split_crlf_two.
    change (String c' (r ++ b)) with ((String c' r ++ b)%string).
    destruct (JS.isLF c) eqn:HLF.
    + rewrite IHc.
      rewrite removelast_cons by apply split_crlf_nonempty.
      rewrite last_cons by apply split_crlf_nonempty. reflexivity.
    + destruct (JS.isCR c && JS.isLF c') eqn:HCRLF.
      * rewrite IHr.
        rewrite removelast_cons by apply split_crlf_nonempty.
        rewrite last_cons by apply split_crlf_nonempty. reflexivity.
      * rewrite IHc.
        destruct (JS.split_crlf (String c' r)) as [|x xs] eqn:E;
          [now apply split_crlf_nonempty in E|].
        destruct xs as [|y ys].
        -- destruct (split_crlf_single_head _ _ _ E) as [x' ->].
           cbn [removelast last JS.consHead app].
           change ((String c (String c' x') ++ b)%string)
             with (String c (String c' x' ++ b)%string).
           rewrite split_crlf_cons; [reflexivity | exact HLF | exact HCRLF].
        -- cbn [JS.consHead].
           rewrite !removelast_cons by discriminate.
           rewrite !last_cons by discriminate.
           reflexivity.
Qed.

(** ** LineBreakTransformer *)

Lemma transform_twice (t : App.LineBreakTransformer) (c1 c2 : string) :
  (let '(l1, t1) := App.transform t c1 in
   let '(l2, t2) := App.transform t1 c2 in (l1 ++ l2, t2))
  = App.transform t (c1 ++ c2).
Proof.
  unfold App.transform. cbn [App.chunks].
  rewrite <- append_assoc, (split_crlf_app (App.chunks t ++ c1) c2).
  set (A := JS.split_crlf (App.chunks t ++ c1)).
  set (B := JS.split_crlf (last A "" ++ c2)).
  assert (HB : B <> []) by apply split_crlf_nonempty.
  rewrite removelast_app by exact HB.
  rewrite last_app_nonempty by exact HB.
  reflexivity.
Qed.

Lemma feedAll_received (cs : list string) (t : App.LineBreakTransformer) :
  cs <> [] -> App.feedAll t cs = App.transform t (App.received cs).
Proof.
  revert t. induction cs as [|c cs IH]; intros t Hcs; [congruence|].
  destruct cs as [|c' cs'].
  - cbn [App.feedAll App.received fold_right]. rewrite append_nil_r.
    destruct (App.transform t c) as [ls t1]. now rewrite List.app_nil_r.
  - change (App.received (c :: c' :: cs'))
      with ((c ++ App.received (c' :: cs'))%string).
    rewrite <- transform_twice.
    cbn [App.feedAll] in *.
    destruct (App.transform t c) as [ls t1].
    rewrite (IH t1) by discriminate. reflexivity.
Qed.

(** The lines delivered depend on the text received only. *)
Lemma framed_received (cs : list string) :
  App.framed cs =
  removelast (JS.split_crlf (App.received cs))
  ++ App.flush (App.mkLBT (last (JS.split_crlf (App.received cs)) "")).
Proof.
  unfold App.framed. destruct cs as [|c cs']; [reflexivity|].
  rewrite feedAll_received by discriminate. reflexivity.
Qed.

Lemma split_crlf_line (l : string) (b : bool) (rest : string) :
  App.plain l = true ->
  JS.split_crlf (l ++ (if b then App.cr ++ App.nl else App.nl) ++ rest)
  = l :: JS.split_crlf rest.
Proof.
  unfold App.plain. induction l as [|c l IH]; intros Hp.
  - destruct b; reflexivity.
  - cbn [JS.hasCR App.hasLF] in Hp.
    rewrite !negb_orb in Hp.
    apply andb_prop in Hp as [H1 H2].
    apply andb_prop in H1 as [HcCR HlCR]. apply andb_prop in H2 as [HcLF HlLF].
    apply negb_true_iff in HcCR, HcLF.
    change ((String c l ++ (if b then App.cr ++ App.nl else App.nl) ++ rest)%string)
      with (String c (l ++ (if b then App.cr ++ App.nl else App.nl) ++ rest)%string).
    rewrite split_crlf_cons; [| exact HcLF | now rewrite HcCR].
    rewrite IH by (now rewrite HlCR, HlLF). reflexivity.
Qed.

Lemma split_crlf_terminated (ls : list (string * bool)) :
  Forall (fun l => App.plain (fst l) = true) ls ->
  JS.split_crlf (App.terminated ls) = map fst ls ++ [EmptyString].
Proof.
  induction 1 as [|l ls Hl _ IH]; [reflexivity|].
  cbn [App.terminated fold_right map app].
  rewrite split_crlf_line by exact Hl.
  f_equal. exact IH.
Qed.

Lemma hasCR_endsWithCR (l : string) : JS.hasCR l = false -> JS.endsWithCR l = false.
Proof.
  induction l as [|c l IH]; [reflexivity|].
  cbn [JS.hasCR]. intros H. apply orb_false_elim in H as [Hc Hl].
  destruct l; [exact Hc | now apply IH].
Qed.

Lemma consHead_Forall (P : string -> Prop) (c : ascii) (l : list string) :
  (forall x, P x -> P (String c x)) -> P (String c EmptyString) ->
  Forall P l -> Forall P (JS.consHead c l).
Proof.
  intros Hc H1 Hl. destruct Hl as [|x l Hx Hl]; simpl; constructor; auto.
Qed.

(** When CR only occurs right before LF, no piece of the split holds a CR. *)
Lemma split_crlf_noCR (s : string) :
  JS.crOnlyBeforeLF s = true ->
  Forall (fun l => JS.hasCR l = false) (JS.split_crlf s).
Proof.
  induction s as [| c | c c' r IHr IHc] using string_ind2; intros H.
  - repeat constructor.
  - rewrite split_crlf_one. simpl in H.
    destruct (JS.isLF c); [repeat constructor|].
    destruct (JS.isCR c) eqn:HCR; [discriminate|].
    repeat constructor. simpl. now rewrite HCR.
  - rewrite split_crlf_two.
    change (JS.crOnlyBeforeLF (String c (String c' r)))
      with ((if JS.isCR c then JS.isLF c' else true) && JS.crOnlyBeforeLF (String c' r)) in H.
    apply andb_prop in H as [Hc Hrest].
    destruct (JS.isLF c).
    + constructor; [reflexivity | now apply IHc].
    + destruct (JS.isCR c) eqn:HCR.
      * rewrite Hc. cbn [andb]. constructor; [reflexivity|].
        apply IHr. cbn [JS.crOnlyBeforeLF] in Hrest.
        now apply andb_prop in Hrest as [_ Hr].
      * cbn [andb]. apply consHead_Forall.
        -- intros x Hx. simpl. now rewrite HCR.
        -- simpl. now rewrite HCR.
        -- now apply IHc.
Qed.

Lemma In_removelast {A} (l : list A) (x : A) : In x (removelast l) -> In x l.
Proof.
  induction l as [|a l IH]; [tauto|].
  destruct l as [|b l']; [simpl; tauto|].
  intros [->|H]; [now left | right; now apply IH].
Qed.

Lemma In_last {A} (l : list A) (d : A) : l <> [] -> In (last l d) l.
Proof.
  induction l as [|a l IH]; [congruence|]. intros _.
  destruct l as [|b l']; [now left|]. right. apply IH. discriminate.
Qed.

Lemma framed_subset (cs : list string) (l : string) :
  In l (App.framed cs) -> In l (JS.split_crlf (App.received cs)).
Proof.
  rewrite framed_received. intros H. apply in_app_or in H as [H|H].
  - now apply In_removelast.
  - unfold App.flush in H. cbn [App.chunks] in H.
    destruct (JS.truthy _); [|contradiction].
    destruct H as [<-|[]]. apply In_last, split_crlf_nonempty.
Qed.

(** C3 as it was stated fails: a line that ends with CR CR LF is delivered
    with one CR left at its end. *)
Lemma C3_trailing_cr_counterexample :
  ~ (forall (cs : list string) (l : string),
        In l (App.framed cs) -> JS.endsWithCR l = false).
Proof.
  intros H.
  specialize (H [("a" ++ App.cr ++ App.cr ++ App.nl)%string] ("a" ++ App.cr)%string).
  assert (Hin : In ("a" ++ App.cr)%string
                  (App.framed [("a" ++ App.cr ++ App.cr ++ App.nl)%string]))
    by (left; reflexivity).
  apply H in Hin. discriminate Hin.
Qed.

(** ** The read loop of the millimetre-only revision

    Its loop cuts the buffer at each LF and removes one CR before it: the
    lines it hands to [parseLine] are the complete pieces of the split on
    [\r?\n], whatever the chunking, and what it keeps is the last piece.  It
    has no flush: a last line without LF is never handed over. *)

Lemma stripCR_keeps (cur : string) : JS.endsWithCR cur = false -> JS.stripCR cur = cur.
Proof.
  induction cur as [|c cur IH]; [reflexivity|].
  destruct cur as [|c' cur'].
  - cbn. now intros ->.
  - intros H. change (JS.stripCR (String c (String c' cur')))
      with (String c (JS.stripCR (String c' cur'))).
    now rewrite IH.
Qed.

Lemma stripCR_snoc (cur : string) (c : ascii) :
  JS.isCR c = true -> JS.stripCR (cur ++ String c EmptyString) = cur.
Proof.
  intros Hc. induction cur as [|a cur IH]; [cbn; now rewrite Hc|].
  cbn [String.append].
  destruct (cur ++ String c EmptyString)%string as [|b r] eqn:E.
  - destruct cur; discriminate E.
  - change (JS.stripCR (String a (String b r))) with (String a (JS.stripCR (String b r))).
    now rewrite IH.
Qed.

Lemma endsWithCR_snoc (cur : string) (c : ascii) :
  JS.endsWithCR (cur ++ String c EmptyString) = JS.isCR c.
Proof.
  induction cur as [|a cur IH]; [reflexivity|].
  cbn [String.append].
  destruct (cur ++ String c EmptyString)%string as [|b r] eqn:E.
  - destruct cur; discriminate E.
  - exact IH.
Qed.

Lemma withPrefix_empty (ls : list string) : JS.withPrefix "" ls = ls.
Proof. destruct ls; reflexivity. Qed.

Lemma withPrefix_consHead (cur : string) (c : ascii) (ls : list string) :
  ls <> [] ->
  JS.withPrefix cur (JS.consHead c ls)
  = JS.withPrefix (cur ++ String c EmptyString) ls.
Proof.
  destruct ls as [|l ls]; [congruence|]. intros _. cbn.
  now rewrite append_assoc.
Qed.

(** The loop, started after the text [cur] that holds no pending separator,
    agrees with the split on [\r?\n]. *)
Lemma drain_split_crlf (s cur : string) :
  JS.endsWithCR cur && JS.startsWithLF s = false ->
  Legacy.drain cur s
  = (removelast (JS.withPrefix cur (JS.split_crlf s)),
     last (JS.withPrefix cur (JS.split_crlf s)) "").
Proof.
  revert cur. induction s as [| c | c c' r IHr IHc] using string_ind2; intros cur Hpre.
  - cbn. now rewrite append_nil_r.
  - rewrite split_crlf_one. cbn [Legacy.drain].
    destruct (JS.isLF c) eqn:HLF.
    + cbn [JS.startsWithLF] in Hpre. rewrite HLF, andb_true_r in Hpre.
      cbn. now rewrite append_nil_r, stripCR_keeps.
    + reflexivity.
  - rewrite split_crlf_two.
    change (Legacy.drain cur (String c (String c' r)))
      with (if JS.isLF c
            then let '(ls, b) := Legacy.drain EmptyString (String c' r) in
                 (JS.stripCR cur :: ls, b)
            else Legacy.drain (cur ++ String c EmptyString) (String c' r)).
    destruct (JS.isLF c) eqn:HLF.
    + cbn [JS.startsWithLF] in Hpre. rewrite HLF, andb_true_r in Hpre.
      rewrite (IHc "") by reflexivity. rewrite withPrefix_empty.
      cbn [JS.withPrefix]. rewrite append_nil_r, stripCR_keeps by exact Hpre.
      rewrite removelast_cons, last_cons by apply split_crlf_nonempty.
      reflexivity.
    + destruct (JS.isCR c && JS.isLF c') eqn:HCRLF.
      * apply andb_prop in HCRLF as [HCR HLF'].
        cbn [Legacy.drain]. rewrite HLF'.
        rewrite (IHr "") by reflexivity. rewrite withPrefix_empty.
        cbn [JS.withPrefix]. rewrite append_nil_r, stripCR_snoc by exact HCR.
        rewrite removelast_cons, last_cons by apply split_crlf_nonempty.
        reflexivity.
      * rewrite IHc.
        -- now rewrite withPrefix_consHead by apply split_crlf_nonempty.
        -- rewrite endsWithCR_snoc. exact HCRLF.
Qed.

Lemma split_crlf_noLF (b : string) : App.hasLF b = false -> JS.split_crlf b = [b].
Proof.
  induction b as [|c b IH]; [reflexivity|].
  cbn [App.hasLF]. intros H. apply orb_false_elim in H as [Hc Hb].
  rewrite split_crlf_cons, (IH Hb); [reflexivity | exact Hc |].
  destruct b as [|c' b']; [apply andb_false_r|].
  cbn [App.hasLF] in Hb. apply orb_false_elim in Hb as [Hc' _].
  cbn [JS.startsWithLF]. rewrite Hc'. apply andb_false_r.
Qed.

Lemma split_crlf_pieces_noLF (s : string) :
  Forall (fun l => App.hasLF l = false) (JS.split_crlf s).
Proof.
  induction s as [| c | c c' r IHr IHc] using string_ind2.
  - repeat constructor.
  - rewrite split_crlf_one. destruct (JS.isLF c) eqn:HLF; repeat constructor.
    cbn. now rewrite HLF.
  - rewrite split_crlf_two. destruct (JS.isLF c) eqn:HLF.
    + constructor; [reflexivity | exact IHc].
    + destruct (JS.isCR c && JS.isLF c').
      * constructor; [reflexivity | exact IHr].
      * apply consHead_Forall; [| | exact IHc]; cbn; now rewrite HLF.
Qed.

Lemma last_split_crlf_noLF (s : string) :
  App.hasLF (last (JS.split_crlf s) "") = false.
Proof.
  pose proof (split_crlf_pieces_noLF s) as H. rewrite Forall_forall in H.
  apply H, In_last, split_crlf_nonempty.
Qed.

Lemma legacy_onChunk_transform (buf value : string) :
  App.hasLF buf = false ->
  Legacy.onChunk buf value
  = (fst (App.transform (App.mkLBT buf) value),
     App.chunks (snd (App.transform (App.mkLBT buf) value))).
Proof.
  intros Hbuf. unfold Legacy.onChunk, App.transform. cbn [App.chunks fst snd].
  destruct value as [|c v]; cbn [JS.truthy].
  - now rewrite append_nil_r, split_crlf_noLF.
  - rewrite drain_split_crlf by reflexivity. now rewrite withPrefix_empty.
Qed.

Lemma legacy_onChunks_feedAll (cs : list string) (buf : string) :
  App.hasLF buf = false ->
  Legacy.onChunks buf cs
  = (fst (App.feedAll (App.mkLBT buf) cs),
     App.chunks (snd (App.feedAll (App.mkLBT buf) cs))).
Proof.
  revert buf. induction cs as [|c cs IH]; intros buf Hbuf; [reflexivity|].
  cbn [Legacy.onChunks App.feedAll].
  rewrite legacy_onChunk_transform by exact Hbuf.
  destruct (App.transform (App.mkLBT buf) c) as [ls [b1]] eqn:E.
  cbn [fst snd App.chunks].
  assert (Hb1 : App.hasLF b1 = false).
  { unfold App.transform in E. injection E as _ <-. apply last_split_crlf_noLF. }
  rewrite (IH b1 Hb1).
  destruct (App.feedAll (App.mkLBT b1) cs) as [ls' t2]. reflexivity.
Qed.

(** The lines handed to [parseLine] and the buffer kept depend on the text
    received only. *)
Lemma legacy_onChunks_received (cs : list string) :
  Legacy.onChunks "" cs
  = (removelast (JS.split_crlf (App.received cs)),
     last (JS.split_crlf (App.received cs)) "").
Proof.
  rewrite legacy_onChunks_feedAll by reflexivity.
  destruct cs as [|c cs']; [reflexivity|].
  change (App.mkLBT "") with App.newTransformer.
  rewrite feedAll_received by discriminate. reflexivity.
Qed.

(** ** The record store *)

Lemma pushBounded_length {A} (cap : N) (a : list A) (v : A) :
  (N.of_nat (List.length a) <= cap)%N ->
  (N.of_nat (List.length (App.pushBounded cap a v)) <= cap)%N.
Proof.
  intros H. unfold App.pushBounded.
  destruct (N.ltb_spec cap (N.of_nat (List.length (a ++ [v])))) as [Hlt|Hle];
    [|exact Hle].
  rewrite length_app in Hlt. cbn [List.length] in Hlt.
  destruct a as [|x a]; simpl in *; rewrite ?length_app; simpl; lia.
Qed.

Lemma pushBounded_lastN {A} (cap : N) (a : list A) (v : A) :
  (N.of_nat (List.length a) <= cap)%N ->
  App.pushBounded cap a v = App.lastN cap (a ++ [v]).
Proof.
  intros H. unfold App.pushBounded, App.lastN.
  rewrite length_app. cbn [List.length].
  destruct (N.ltb_spec cap (N.of_nat (List.length a + 1))) as [Hlt|Hle].
  - replace (List.length a + 1 - N.to_nat cap)%nat with 1%nat by lia.
    destruct (a ++ [v]); reflexivity.
  - replace (List.length a + 1 - N.to_nat cap)%nat with 0%nat by lia.
    reflexivity.
Qed.

Lemma lastN_app_lastN {A} (cap : N) (l r : list A) :
  App.lastN cap (App.lastN cap l ++ r) = App.lastN cap (l ++ r).
Proof.
  unfold App.lastN.
  set (k := (List.length l - N.to_nat cap)%nat).
  rewrite !length_app, length_skipn.
  replace (List.length l + List.length r - N.to_nat cap)%nat
    with ((List.length l - k + List.length r - N.to_nat cap) + k)%nat by lia.
  rewrite <- skipn_skipn.
  f_equal. rewrite skipn_app.
  replace (k - List.length l)%nat with 0%nat by lia. reflexivity.
Qed.

Lemma lastN_short {A} (cap : N) (l : list A) :
  (N.of_nat (List.length l) <= cap)%N -> App.lastN cap l = l.
Proof.
  intros H. unfold App.lastN.
  replace (List.length l - N.to_nat cap)%nat with 0%nat by lia. reflexivity.
Qed.

Lemma lastN_length {A} (cap : N) (l : list A) :
  (N.of_nat (List.length (App.lastN cap l)) <= cap)%N.
Proof. unfold App.lastN. rewrite length_skipn. lia. Qed.

Lemma records_pushPoint (t d : N) (s : App.Session) :
  App.records (App.pushPoint t d s)
  = App.pushBounded App.MAX_POINTS (App.records s) (App.mkSample t d).
Proof. reflexivity. Qed.

Lemma records_pushAll (ps : list (N * N)) (s : App.Session) :
  (N.of_nat (List.length (App.records s)) <= App.MAX_POINTS)%N ->
  App.records (App.pushAll ps s)
  = App.lastN App.MAX_POINTS
      (App.records s ++ map (fun p => App.mkSample (fst p) (snd p)) ps).
Proof.
  revert s. induction ps as [|p ps IH]; intros s H.
  - cbn [App.pushAll fold_left map]. rewrite List.app_nil_r.
    symmetry. now apply lastN_short.
  - change (App.pushAll (p :: ps) s)
      with (App.pushAll ps (App.pushPoint (fst p) (snd p) s)).
    rewrite IH; rewrite records_pushPoint.
    + rewrite pushBounded_lastN by exact H.
      rewrite lastN_app_lastN, <- app_assoc. reflexivity.
    + now apply pushBounded_length.
Qed.

Lemma trimTo_length {A} (cap : nat) (a : list A) :
  (List.length (Legacy.trimTo cap a) <= cap)%nat.
Proof.
  unfold Legacy.trimTo.
  destruct (Nat.ltb_spec cap (List.length a)) as [Hlt|Hle]; [|exact Hle].
  rewrite length_skipn. lia.
Qed.

Lemma trimTo_lastN {A} (cap : nat) (a : list A) :
  Legacy.trimTo cap a = App.lastN (N.of_nat cap) a.
Proof.
  unfold Legacy.trimTo, App.lastN. rewrite Nat2N.id.
  destruct (Nat.ltb_spec cap (List.length a)) as [Hlt|Hle]; [reflexivity|].
  replace (List.length a - cap)%nat with 0%nat by lia. reflexivity.
Qed.

Lemma legacy_records_addRecord (t mm : Q) (s : Legacy.Session) :
  Legacy.records (Legacy.addRecord t mm s)
  = Legacy.trimTo Legacy.MAX_RECORDS (Legacy.records s ++ [Legacy.mkRec t mm]).
Proof.
  unfold Legacy.addRecord, Legacy.ensureAxes.
  repeat match goal with |- context [if ?b then _ else _] => destruct b end;
    reflexivity.
Qed.

Lemma legacy_records_addAll (rs : list Legacy.Rec) (s : Legacy.Session) :
  (List.length (Legacy.records s) <= Legacy.MAX_RECORDS)%nat ->
  Legacy.records (Legacy.addAll rs s)
  = App.lastN (N.of_nat Legacy.MAX_RECORDS) (Legacy.records s ++ rs).
Proof.
  revert s. induction rs as [|r rs IH]; intros s H.
  - cbn [Legacy.addAll fold_left]. rewrite List.app_nil_r.
    symmetry. apply lastN_short. lia.
  - cbn [Legacy.addAll fold_left].
    change (fold_left (fun s0 r0 => Legacy.addRecord (Legacy.t r0) (Legacy.mm r0) s0) rs)
      with (Legacy.addAll rs).
    rewrite IH; rewrite legacy_records_addRecord.
    + rewrite trimTo_lastN, lastN_app_lastN, <- app_assoc.
      destruct r; reflexivity.
    + apply trimTo_length.
Qed.

(** C2: whatever data lines are handled, [records] never holds more than
    [MAX_POINTS] = 10000 samples, and it holds the most recent ones in arrival
    order: the oldest sample leaves first.  With a capacity of 3, pushing
    1, 2, 3, 4, 5 leaves 3, 4, 5.  (The millimetre-only revision trims its
    records to the most recent 5000 in the same way.) *)
Theorem C2_store_bounded_fifo :
  App.MAX_POINTS = 10000%N
  /\ (forall (ps : list (N * N)) (s : App.Session),
        (N.of_nat (List.length (App.records s)) <= App.MAX_POINTS)%N ->
        (N.of_nat (List.length (App.records (App.pushAll ps s))) <= App.MAX_POINTS)%N
        /\ App.records (App.pushAll ps s)
           = App.lastN App.MAX_POINTS
               (App.records s ++ map (fun p => App.mkSample (fst p) (snd p)) ps))
  /\ (forall ps : list (N * N),
        (N.of_nat (List.length (App.records (App.pushAll ps App.initial))) <= 10000)%N)
  /\ fold_left (App.pushBounded 3) [1; 2; 3; 4; 5]%N [] = [3; 4; 5]%N
  /\ (forall (rs : list Legacy.Rec) (s : Legacy.Session),
        (List.length (Legacy.records s) <= Legacy.MAX_RECORDS)%nat ->
        (List.length (Legacy.records (Legacy.addAll rs s)) <= Legacy.MAX_RECORDS)%nat
        /\ Legacy.records (Legacy.addAll rs s)
           = App.lastN (N.of_nat Legacy.MAX_RECORDS) (Legacy.records s ++ rs)).
Proof.
  split; [reflexivity|]. split; [|split; [|split]].
  - intros ps s H. rewrite records_pushAll by exact H.
    split; [apply lastN_length | reflexivity].
  - intros ps. rewrite records_pushAll by (cbn; lia). apply lastN_length.
  - reflexivity.
  - intros rs s H. rewrite legacy_records_addAll by exact H.
    split; [|reflexivity].
    pose proof (lastN_length (N.of_nat Legacy.MAX_RECORDS) (Legacy.records s ++ rs)).
    lia.
Qed.

Lemma C2_store_witness :
  ((N.of_nat (List.length (App.records (App.pushAll [(1, 10); (2, 20)]%N App.initial)))
    <= App.MAX_POINTS)%N
   /\ App.records (App.pushAll [(1, 10); (2, 20)]%N App.initial)
      = App.lastN App.MAX_POINTS
          (App.records App.initial
           ++ map (fun p => App.mkSample (fst p) (snd p)) [(1, 10); (2, 20)]%N))
  /\ ((List.length
         (Legacy.records (Legacy.addAll [Legacy.mkRec 1 10] Legacy.initial))
       <= Legacy.MAX_RECORDS)%nat
      /\ Legacy.records (Legacy.addAll [Legacy.mkRec 1 10] Legacy.initial)
         = App.lastN (N.of_nat Legacy.MAX_RECORDS)
             (Legacy.records Legacy.initial ++ [Legacy.mkRec 1 10])).
Proof.
  destruct C2_store_bounded_fifo as (_ & Happ & _ & _ & Hleg).
  split.
  - apply Happ. cbn. lia.
  - apply Hleg. apply Nat.le_0_l.
Defined.

(** ** Axis scaling *)

Lemma ceilTo_ge (v step : Q) : 0 < step -> v <= Legacy.ceilTo v step.
Proof.
  intros Hs. unfold Legacy.ceilTo.
  assert (Hne : ~ step == 0) by (intros E; rewrite E in Hs; discriminate Hs).
  setoid_replace v with ((v / step) * step) at 1 by (field; exact Hne).
  apply Qmult_le_compat_r; [apply Qle_ceiling | now apply Qlt_le_weak].
Qed.

(** The loop of [niceCeil] returns in its first round. *)
Lemma niceCeilLoop_first (v step : Q) (steps : list Q) :
  0 < step ->
  Legacy.niceCeilLoop v (step :: steps) = Some (Legacy.ceilTo v step).
Proof.
  intros Hs. cbn [Legacy.niceCeilLoop].
  assert (H : Qle_bool v (Legacy.ceilTo v step) = true)
    by (apply Qle_bool_iff, ceilTo_ge, Hs).
  now rewrite H.
Qed.

Lemma niceCeil_hundreds (v : Q) : Legacy.niceCeil v = Legacy.ceilTo v 100.
Proof.
  unfold Legacy.niceCeil, Legacy.niceCeilWith, Legacy.stepCandidates.
  now rewrite niceCeilLoop_first.
Qed.

Lemma niceCeil_ge (v : Q) : v <= Legacy.niceCeil v.
Proof. rewrite niceCeil_hundreds. now apply ceilTo_ge. Qed.

Lemma suggestedMax_update (c : App.Chart) :
  App.suggestedMax c <= App.suggestedMax (App.updateChartAutoAxis c).
Proof.
  unfold App.updateChartAutoAxis.
  destruct (rev (App.data c)) as [|latest rest]; [apply Qle_refl|].
  cbn [App.suggestedMax]. apply Q.le_max_l.
Qed.

Lemma suggestedMax_pushPoint (t d : N) (s : App.Session) :
  App.suggestedMax (App.chart s)
  <= App.suggestedMax (App.chart (App.pushPoint t d s)).
Proof.
  unfold App.pushPoint. cbn [App.chart App.set_chart App.set_records].
  match goal with
  | |- _ <= App.suggestedMax (App.updateChartAutoAxis ?c) =>
      apply (Qle_trans _ (App.suggestedMax c)); [apply Qle_refl | apply suggestedMax_update]
  end.
Qed.

Lemma suggestedMax_pushAll (ps : list (N * N)) (s : App.Session) :
  App.suggestedMax (App.chart s)
  <= App.suggestedMax (App.chart (App.pushAll ps s)).
Proof.
  revert s. induction ps as [|p ps IH]; intros s; [apply Qle_refl|].
  change (App.pushAll (p :: ps) s)
    with (App.pushAll ps (App.pushPoint (fst p) (snd p) s)).
  eapply Qle_trans; [apply suggestedMax_pushPoint | apply IH].
Qed.

Lemma pushAll_app (ps1 ps2 : list (N * N)) (s : App.Session) :
  App.pushAll (ps1 ++ ps2) s = App.pushAll ps2 (App.pushAll ps1 s).
Proof. unfold App.pushAll. apply fold_left_app. Qed.

Lemma yMax_ensureAxes (t mm : Q) (s : Legacy.Session) :
  Legacy.yMax s <= Legacy.yMax (Legacy.ensureAxes t mm s).
Proof.
  unfold Legacy.ensureAxes.
  destruct (Legacy.gtb t (Legacy.xMax s)); cbn [Legacy.yMax Legacy.set_xMax];
    (destruct (Legacy.gtb mm (Legacy.yMax s)) eqn:G;
     cbn [Legacy.yMax Legacy.set_yMax]; [|apply Qle_refl]);
    unfold Legacy.gtb in G; apply negb_true_iff in G;
    (apply Qlt_le_weak, Qlt_le_trans with mm; [|apply niceCeil_ge]);
    apply Qnot_le_lt; intros Hle; apply Qle_bool_iff in Hle; congruence.
Qed.

Lemma yMax_addRecord (t mm : Q) (s : Legacy.Session) :
  Legacy.yMax s <= Legacy.yMax (Legacy.addRecord t mm s).
Proof.
  unfold Legacy.addRecord.
  match goal with
  | |- _ <= Legacy.yMax (Legacy.ensureAxes _ _ ?s2) =>
      apply (Qle_trans _ (Legacy.yMax s2)); [apply Qle_refl | apply yMax_ensureAxes]
  end.
Qed.

Lemma yMax_addAll (rs : list Legacy.Rec) (s : Legacy.Session) :
  Legacy.yMax s <= Legacy.yMax (Legacy.addAll rs s).
Proof.
  revert s. induction rs as [|r rs IH]; intros s; [apply Qle_refl|].
  cbn [Legacy.addAll fold_left].
  eapply Qle_trans; [apply yMax_addRecord | apply IH].
Qed.

(** C6 fails on the code: the loop of [niceCeil] tries the step 100 first,
    and a multiple of 100 at or above [v] always exists, so it returns the
    next multiple of 100 and the other steps of the ladder are never used:
    [niceCeil(201)] is 300 and [niceCeil(523)] is 600. *)
Theorem C6_niceCeil_rounds_to_hundreds :
  Legacy.niceCeil 201 == 300
  /\ Legacy.niceCeil 523 == 600
  /\ ~ Legacy.niceCeil 201 == 250
  /\ ~ Legacy.niceCeil 523 == 1000
  /\ (forall v : Q, Legacy.niceCeil v = inject_Z (Qceiling (v / 100)) * 100).
Proof.
  split; [reflexivity|]. split; [reflexivity|].
  split; [intros H; discriminate H|]. split; [intros H; discriminate H|].
  intros v. apply niceCeil_hundreds.
Qed.

(** ** Session flags and commands *)

(** Opens a session record and shows the variables the hypotheses speak of. *)
Ltac open_session s :=
  destruct s as [po re wr rd dr wa hz recs ch st lg al wi];
  cbn [App.port App.writer App.deviceReady App.wantRunning App.lastHz] in *.

Ltac open_legacy_session s :=
  destruct s as [po re wr rd recs d xm ym ct lg al wi];
  cbn [Legacy.port Legacy.writer] in *.

Lemma prefix_split (p s : string) :
  String.prefix p s = true -> exists r, s = (p ++ r)%string.
Proof.
  revert s. induction p as [|a p IH]; intros s H.
  - exists s. reflexivity.
  - destruct s as [|b s]; [discriminate H|].
    cbn [String.prefix] in H. destruct (ascii_dec a b) as [->|]; [|discriminate H].
    destruct (IH _ H) as [r ->]. exists r. reflexivity.
Qed.

(** C1: a session that waits for the device (port and writer held,
    [deviceReady] false) with [wantRunning] true and [lastHz] 25 handles the
    line [# READY] by writing the one command line [START hz=25]; it is then
    ready and wanting to run, the state called Running (the status line
    shows READY until the device answers [# START]). *)
Theorem C1_ready_sends_start (s : App.Session) (value : string) :
  App.port s <> None ->
  App.writer s <> None ->
  App.deviceReady s = false ->
  App.wantRunning s = true ->
  App.lastHz s = 25%Z ->
  JS.startsWith value "# READY" = true ->
  App.phase s = App.AwaitingReady
  /\ App.wire (App.onValue value s) = App.wire s ++ [("START hz=25" ++ App.nl)%string]
  /\ App.deviceReady (App.onValue value s) = true
  /\ App.wantRunning (App.onValue value s) = true
  /\ App.phase (App.onValue value s) = App.Running
  /\ App.status (App.onValue value s) = "READY".
Proof.
  intros Hport Hwriter Hready Hwant Hhz Hvalue.
  apply prefix_split in Hvalue as [r ->].
  open_session s. subst dr wa hz.
  destruct po as [p|]; [|congruence]. destruct wr as [w|]; [|congruence].
  destruct r; repeat split; reflexivity.
Qed.

Lemma C1_ready_witness :
  App.phase (App.btnStart (Some 25%Z) App.connected) = App.AwaitingReady
  /\ App.wire (App.onValue "# READY" (App.btnStart (Some 25%Z) App.connected))
     = App.wire (App.btnStart (Some 25%Z) App.connected)
       ++ [("START hz=25" ++ App.nl)%string]
  /\ App.deviceReady (App.onValue "# READY" (App.btnStart (Some 25%Z) App.connected)) = true
  /\ App.wantRunning (App.onValue "# READY" (App.btnStart (Some 25%Z) App.connected)) = true
  /\ App.phase (App.onValue "# READY" (App.btnStart (Some 25%Z) App.connected))
     = App.Running
  /\ App.status (App.onValue "# READY" (App.btnStart (Some 25%Z) App.connected))
     = "READY".
Proof.
  apply (C1_ready_sends_start (App.btnStart (Some 25%Z) App.connected) "# READY");
    try reflexivity; discriminate.
Defined.

Lemma clampHz_range (hzValue : option Z) :
  (1 <= Legacy.clampHz hzValue <= 50)%Z.
Proof. unfold Legacy.clampHz. lia. Qed.

Lemma clampHz_default :
  Legacy.clampHz None = 50%Z /\ Legacy.clampHz (Some 0%Z) = 50%Z.
Proof. split; reflexivity. Qed.

Lemma legacy_btnStart_wire (hzValue : option Z) (s : Legacy.Session) :
  Legacy.port s <> None -> Legacy.writer s <> None ->
  Legacy.wire (Eff.state (Legacy.btnStart hzValue s))
  = Legacy.wire s
    ++ [("START hz=" ++ JS.showZ (Legacy.clampHz hzValue) ++ Legacy.nl)%string].
Proof.
  intros Hp Hw. open_legacy_session s.
  destruct po as [p|]; [|congruence]. destruct wr as [w|]; [|congruence].
  reflexivity.
Qed.

Lemma legacy_btnRate_wire (hzValue : option Z) (s : Legacy.Session) :
  Legacy.writer s <> None ->
  Legacy.wire (Eff.state (Legacy.btnRate hzValue s))
  = Legacy.wire s
    ++ [("RATE hz=" ++ JS.showZ (Legacy.clampHz hzValue) ++ Legacy.nl)%string].
Proof.
  intros Hw. open_legacy_session s. destruct wr as [w|]; [|congruence].
  reflexivity.
Qed.

(** C7 fails on [app.js]: its Start handler takes [Number(hzNum.value) || 50]
    as it is, so the input 100 puts [START hz=100] on the wire (and 0 or an
    invalid input gives 50).  The millimetre-only revision does clamp: its
    START and RATE handlers bring every input into 1..50. *)
Theorem C7_app_start_sends_unclamped_rate :
  App.wire (App.btnStart (Some 100%Z) App.connectedReady)
  = App.wire App.connectedReady ++ [("START hz=100" ++ App.nl)%string]
  /\ App.lastHz (App.btnStart (Some 100%Z) App.connectedReady) = 100%Z
  /\ App.lastHz (App.btnStart None App.connectedReady) = 50%Z
  /\ (forall hzValue : option Z, (1 <= Legacy.clampHz hzValue <= 50)%Z).
Proof.
  split; [vm_compute; reflexivity|]. split; [vm_compute; reflexivity|].
  split; [vm_compute; reflexivity|].
  exact clampHz_range.
Qed.

(** C8 fails on the code when the port is granted and [port.open] rejects:
    the handler has already stored the port in [port] and its [catch] only
    shows the alert, so the session keeps the port; the Start handler, which
    tests [port] to tell whether Connect was done, then accepts the click and
    records the wish to run.  (When [requestPort] itself fails, nothing but
    the alert changes, and nothing is tried again.) *)
Theorem C8_open_failure_keeps_port :
  let env := App.mkConnectEnv (inl 7%nat) (Some "NetworkError: Failed to open serial port.") None in
  let s := Eff.state (App.btnConnect env App.initial) in
  Eff.completion (App.btnConnect env App.initial) = Eff.Normal tt
  /\ App.port s = Some 7%nat
  /\ App.phase s <> App.Disconnected
  /\ App.writer s = None /\ App.reader s = None /\ App.reading s = false
  /\ List.length (App.alerts s) = 1%nat
  /\ App.wire s = []
  /\ App.alerts (App.btnStart (Some 25%Z) s) = App.alerts s
  /\ App.wantRunning (App.btnStart (Some 25%Z) s) = true
  /\ (forall (e : string) (o1 o2 : option string) (s0 : App.Session),
        App.btnConnect (App.mkConnectEnv (inr e) o1 o2) s0
        = (Eff.Normal tt, App.alert ("Serial接続に失敗: " ++ e)%string s0)).
Proof.
  cbv zeta. repeat (split; [vm_compute; reflexivity|]).
  split; [vm_compute; discriminate|].
  repeat (split; [vm_compute; reflexivity|]).
  intros e o1 o2 s0. reflexivity.
Qed.

(** C9 (as amended): in [app.js], [sendLine] without a writer returns at
    once: nothing is thrown, nothing is written, the session is unchanged,
    and so no handler puts anything on the wire while no writer is held.  In
    the millimetre-only revision [sendLine] without a writer throws
    [Error('writer not ready')]; it writes nothing and leaves the session as
    it was. *)
Theorem C9_send_without_writer :
  (forall (line : string) (s : App.Session),
      App.writer s = None -> App.sendLine line s = s)
  /\ (forall (v : option Z) (s : App.Session),
        App.writer s = None ->
        App.wire (App.btnStart v s) = App.wire s
        /\ App.wire (App.btnStop s) = App.wire s
        /\ App.wire (App.btnReset s) = App.wire s
        /\ App.wire (App.btnCal v s) = App.wire s)
  /\ (forall (line : string) (s : Legacy.Session),
        Legacy.writer s = None ->
        Legacy.sendLine line s = (Eff.Throw "Error: writer not ready", s)).
Proof.
  split; [|split].
  - intros line s H. unfold App.sendLine. now rewrite H.
  - intros v s H. open_session s. subst wr.
    repeat split.
    + unfold App.btnStart. cbn [App.port].
      destruct po; [|reflexivity]. destruct dr; reflexivity.
    + unfold App.btnCal. cbn [App.port]. destruct po; reflexivity.
  - intros line s H. unfold Legacy.sendLine. now rewrite H.
Qed.

Lemma C9_send_witness :
  App.sendLine "STOP" (App.btnDisconnect App.connectedReady)
  = App.btnDisconnect App.connectedReady
  /\ App.wire (App.btnStop (App.btnDisconnect App.connectedReady))
     = App.wire (App.btnDisconnect App.connectedReady)
  /\ Legacy.sendLine "STOP" Legacy.initial
     = (Eff.Throw "Error: writer not ready", Legacy.initial).
Proof.
  destruct C9_send_without_writer as (Happ & Hbtn & Hleg).
  split; [|split].
  - apply Happ. reflexivity.
  - apply (Hbtn None (App.btnDisconnect App.connectedReady)). reflexivity.
  - apply Hleg. reflexivity.
Defined.

(** C9 as it was stated fails in the millimetre-only revision: there
    [sendLine] throws when no writer is held. *)
Lemma C9_legacy_sendLine_throws_counterexample :
  ~ (forall (line : string) (s : Legacy.Session),
        Legacy.writer s = None ->
        Eff.completion (Legacy.sendLine line s) = Eff.Normal tt).
Proof.
  intros H. specialize (H "STOP" Legacy.initial eq_refl). discriminate H.
Qed.

(** ** Decimal digits *)

Lemma digits_of_uint (d : Decimal.uint) :
  JS.all JS.isDigit (NilEmpty.string_of_uint d) = true.
Proof. induction d; simpl; auto. Qed.

Lemma fold_digits_pos (d : Decimal.uint) (p : positive) :
  fold_left (fun acc c => (10 * acc + JS.digitVal c)%N)
    (list_ascii_of_string (NilEmpty.string_of_uint d)) (Npos p)
  = Npos (Pos.of_uint_acc d p).
Proof.
  revert p. induction d as [|d IH|d IH|d IH|d IH|d IH|d IH|d IH|d IH|d IH|d IH];
    intros p; [reflexivity|..];
    cbn [NilEmpty.string_of_uint list_ascii_of_string fold_left Pos.of_uint_acc];
    rewrite <- IH; f_equal;
    match goal with
    | |- context [JS.digitVal ?c] =>
        let v := eval vm_compute in (JS.digitVal c) in
        change (JS.digitVal c) with v
    end; lia.
Qed.

Lemma fold_digits_zero (d : Decimal.uint) :
  fold_left (fun acc c => (10 * acc + JS.digitVal c)%N)
    (list_ascii_of_string (NilEmpty.string_of_uint d)) 0%N
  = N.of_uint d.
Proof.
  induction d as [|d IH|d IH|d IH|d IH|d IH|d IH|d IH|d IH|d IH|d IH];
    [reflexivity | exact IH | ..];
    cbn [NilEmpty.string_of_uint list_ascii_of_string fold_left];
    apply (fold_digits_pos d).
Qed.

Lemma numberOfDigits_showN (n : N) : JS.numberOfDigits (JS.showN n) = n.
Proof.
  unfold JS.numberOfDigits, JS.showN.
  rewrite fold_digits_zero. apply DecimalN.Unsigned.of_to.
Qed.

Lemma showN_digits (n : N) : JS.all JS.isDigit (JS.showN n) = true.
Proof. apply digits_of_uint. Qed.

Lemma showN_nonempty (n : N) : JS.showN n <> EmptyString.
Proof.
  unfold JS.showN. destruct n as [|p]; [discriminate|].
  cbn [N.to_uint]. pose proof (DecimalPos.Unsigned.to_uint_nonnil p) as H.
  destruct (Pos.to_uint p); [congruence | discriminate..].
Qed.

(** ** Data lines *)

Lemma digit_not_space (c : ascii) : JS.isDigit c = true -> JS.isSpace c = false.
Proof.
  unfold JS.isDigit, JS.isSpace. intros H.
  apply andb_prop in H as [H1 H2].
  apply N.leb_le in H1, H2.
  destruct (N.leb_spec 9 (N_of_ascii c)), (N.leb_spec (N_of_ascii c) 13),
    (N.eqb_spec (N_of_ascii c) 32), (N.eqb_spec (N_of_ascii c) 160);
    cbn; try reflexivity; lia.
Qed.

Lemma space_not_digit (c : ascii) : JS.isSpace c = true -> JS.isDigit c = false.
Proof.
  intros H. destruct (JS.isDigit c) eqn:D; [|reflexivity].
  apply digit_not_space in D. congruence.
Qed.

Lemma span_all (p : ascii -> bool) (g r : string) :
  JS.all p g = true -> JS.headIs p r = false ->
  JS.span p (g ++ r) = (g, r).
Proof.
  intros Hg Hr. induction g as [|c g IH].
  - destruct r as [|c r]; [reflexivity|].
    cbn in *. now rewrite Hr.
  - cbn [JS.all] in Hg. apply andb_prop in Hg as [Hc Hg].
    cbn [String.append JS.span]. rewrite Hc, (IH Hg). reflexivity.
Qed.

Lemma dropSpaces_app (w r : string) :
  JS.all JS.isSpace w = true -> App.dropSpaces (w ++ r) = App.dropSpaces r.
Proof.
  induction w as [|c w IH]; intros H; [reflexivity|].
  cbn [JS.all] in H. apply andb_prop in H as [Hc Hw].
  cbn [String.append App.dropSpaces]. rewrite Hc. now apply IH.
Qed.

Lemma dropSpaces_id (r : string) :
  JS.headIs JS.isSpace r = false -> App.dropSpaces r = r.
Proof. destruct r as [|c r]; [reflexivity|]. cbn. now intros ->. Qed.

Lemma headIs_app (p : ascii -> bool) (g r : string) :
  g <> EmptyString -> JS.headIs p (g ++ r) = JS.headIs p g.
Proof. destruct g; [congruence | reflexivity]. Qed.

Lemma all_headIs (p : ascii -> bool) (g : string) :
  JS.all p g = true -> g <> EmptyString -> JS.headIs p g = true.
Proof.
  destruct g as [|c g]; [congruence|]. cbn. intros H _.
  now apply andb_prop in H as [H _].
Qed.

Lemma truthy_nonempty (g : string) : g <> EmptyString -> JS.truthy g = true.
Proof. destruct g; [congruence | reflexivity]. Qed.

Lemma spaces_then_no_digit (w r : string) :
  JS.all JS.isSpace w = true -> JS.headIs JS.isDigit r = false ->
  JS.headIs JS.isDigit (w ++ r) = false.
Proof.
  destruct w as [|c w]; [now intros _|].
  cbn. intros H _. apply andb_prop in H as [H _]. now apply space_not_digit.
Qed.

(** The pattern on a line made of digits, spaces, a comma, spaces, digits
    and a rest that does not go on with a digit. *)
Lemma matchData_fields (g1 w1 w2 g2 rest : string) :
  JS.all JS.isDigit g1 = true -> g1 <> EmptyString ->
  JS.all JS.isSpace w1 = true -> JS.all JS.isSpace w2 = true ->
  JS.all JS.isDigit g2 = true -> g2 <> EmptyString ->
  JS.headIs JS.isDigit rest = false ->
  App.matchData (g1 ++ w1 ++ "," ++ w2 ++ g2 ++ rest) = Some (g1, g2).
Proof.
  intros Hg1 Hn1 Hw1 Hw2 Hg2 Hn2 Hrest. unfold App.matchData.
  rewrite span_all;
    [| exact Hg1 | apply spaces_then_no_digit; [exact Hw1 | reflexivity]].
  rewrite truthy_nonempty by exact Hn1.
  rewrite dropSpaces_app by exact Hw1.
  cbn [String.append App.dropSpaces].
  change (JS.isSpace ",") with false. cbn iota.
  change (Ascii.eqb "," ",") with true. cbn iota.
  rewrite dropSpaces_app by exact Hw2.
  rewrite dropSpaces_id.
  - rewrite span_all by assumption. now rewrite truthy_nonempty.
  - rewrite headIs_app by exact Hn2.
    destruct g2 as [|c g2]; [congruence|].
    cbn in *. apply andb_prop in Hg2 as [Hc _]. now apply digit_not_space.
Qed.

Lemma digit_line_not_meta (value : string) :
  JS.headIs JS.isDigit value = true ->
  JS.truthy value = true
  /\ JS.startsWith value "ESP-ROM:" = false
  /\ JS.startsWith value "#" = false.
Proof.
  destruct value as [|c v]; [discriminate|]. cbn [JS.headIs]. intros Hc.
  split; [reflexivity|]. unfold JS.startsWith. cbn [String.prefix].
  split.
  - destruct (ascii_dec "E" c) as [<-|]; [discriminate Hc | reflexivity].
  - destruct (ascii_dec "#" c) as [<-|]; [discriminate Hc | reflexivity].
Qed.

(** C10: a line that begins with digits, optional spaces, a comma, optional
    spaces and digits is handled as a data line: the two runs of digits are
    the time and the distance given to [pushPoint], and what follows the
    second run of digits changes nothing.  So ["1000,523"], ["1000,523abc"]
    and ["1000,523,999"] all record the sample 1000, 523. *)
Theorem C10_data_line_uses_leading_fields :
  (forall (g1 w1 w2 g2 rest : string) (s : App.Session),
      JS.all JS.isDigit g1 = true -> g1 <> EmptyString ->
      JS.all JS.isSpace w1 = true -> JS.all JS.isSpace w2 = true ->
      JS.all JS.isDigit g2 = true -> g2 <> EmptyString ->
      JS.headIs JS.isDigit rest = false ->
      App.onValue (g1 ++ w1 ++ "," ++ w2 ++ g2 ++ rest) s
      = App.pushPoint (JS.numberOfDigits g1) (JS.numberOfDigits g2) s)
  /\ (forall s : App.Session,
        App.onValue "1000,523" s = App.pushPoint 1000 523 s
        /\ App.onValue "1000,523abc" s = App.pushPoint 1000 523 s
        /\ App.onValue "1000,523,999" s = App.pushPoint 1000 523 s)
  /\ App.records (App.onValue "1000,523abc" App.connectedReady)
     = [App.mkSample 1000 523].
Proof.
  assert (Hgen : forall (g1 w1 w2 g2 rest : string) (s : App.Session),
      JS.all JS.isDigit g1 = true -> g1 <> EmptyString ->
      JS.all JS.isSpace w1 = true -> JS.all JS.isSpace w2 = true ->
      JS.all JS.isDigit g2 = true -> g2 <> EmptyString ->
      JS.headIs JS.isDigit rest = false ->
      App.onValue (g1 ++ w1 ++ "," ++ w2 ++ g2 ++ rest) s
      = App.pushPoint (JS.numberOfDigits g1) (JS.numberOfDigits g2) s).
  { intros g1 w1 w2 g2 rest s Hg1 Hn1 Hw1 Hw2 Hg2 Hn2 Hrest.
    unfold App.onValue.
    destruct (digit_line_not_meta (g1 ++ w1 ++ "," ++ w2 ++ g2 ++ rest))
      as (Ht & He & Hm).
    { rewrite headIs_app by exact Hn1. now apply all_headIs. }
    rewrite Ht, He, Hm. cbn [negb].
    now rewrite matchData_fields. }
  split; [exact Hgen|]. split.
  - intros s. split; [|split].
    + apply (Hgen "1000" "" "" "523" "" s); (reflexivity || discriminate).
    + apply (Hgen "1000" "" "" "523" "abc" s); (reflexivity || discriminate).
    + apply (Hgen "1000" "" "" "523" ",999" s); (reflexivity || discriminate).
  - vm_compute. reflexivity.
Qed.

Lemma C10_data_line_witness :
  App.onValue ("42" ++ " " ++ "," ++ "  " ++ "007" ++ " mm") App.connectedReady
  = App.pushPoint (JS.numberOfDigits "42") (JS.numberOfDigits "007") App.connectedReady.
Proof.
  apply (proj1 C10_data_line_uses_leading_fields "42" " " "  " "007" " mm");
    (reflexivity || discriminate).
Defined.

(** ** CSV export *)

Lemma split_lf_nonempty (s : string) : JS.split_lf s <> [].
Proof.
  destruct s as [|c s]; cbn [JS.split_lf]; [discriminate|].
  destruct (JS.isLF c); [discriminate | apply consHead_nonempty].
Qed.

Lemma split_lf_line (l rest : string) :
  App.hasLF l = false ->
  JS.split_lf (l ++ App.nl ++ rest) = l :: JS.split_lf rest.
Proof.
  induction l as [|c l IH]; intros H; [reflexivity|].
  cbn [App.hasLF] in H. apply orb_false_elim in H as [Hc Hl].
  cbn [String.append JS.split_lf]. rewrite Hc, (IH Hl). reflexivity.
Qed.

Lemma split_lf_single (l : string) : App.hasLF l = false -> JS.split_lf l = [l].
Proof.
  induction l as [|c l IH]; intros H; [reflexivity|].
  cbn [App.hasLF] in H. apply orb_false_elim in H as [Hc Hl].
  cbn [JS.split_lf]. rewrite Hc, (IH Hl). reflexivity.
Qed.

Lemma split_lf_join (ls : list string) :
  Forall (fun l => App.hasLF l = false) ls -> ls <> [] ->
  JS.split_lf (JS.join App.nl ls) = ls.
Proof.
  unfold JS.join. induction 1 as [|l ls Hl Hls IH]; intros Hne; [congruence|].
  destruct ls as [|l' ls']; cbn [String.concat].
  - now apply split_lf_single.
  - rewrite split_lf_line by exact Hl. f_equal. apply IH. discriminate.
Qed.

Lemma hasLF_app (a b : string) : App.hasLF (a ++ b) = App.hasLF a || App.hasLF b.
Proof.
  induction a as [|c a IH]; [reflexivity|].
  cbn [String.append App.hasLF]. now rewrite IH, orb_assoc.
Qed.

Lemma digits_noLF (g : string) : JS.all JS.isDigit g = true -> App.hasLF g = false.
Proof.
  induction g as [|c g IH]; [reflexivity|].
  cbn [JS.all App.hasLF]. intros H. apply andb_prop in H as [Hc Hg].
  rewrite (IH Hg), orb_false_r.
  unfold JS.isLF. destruct (Ascii.eqb_spec c JS.LF) as [->|]; [discriminate Hc | reflexivity].
Qed.

Lemma csvRow_noLF (r : App.Sample) : App.hasLF (App.csvRow r) = false.
Proof.
  unfold App.csvRow. rewrite !hasLF_app.
  rewrite (digits_noLF _ (showN_digits (App.tMs r))).
  rewrite (digits_noLF _ (showN_digits (App.distMm r))). reflexivity.
Qed.

Lemma parseRow_csvRow (r : App.Sample) : App.parseRow (App.csvRow r) = Some r.
Proof.
  unfold App.parseRow, App.csvRow.
  pose proof (matchData_fields (JS.showN (App.tMs r)) "" "" (JS.showN (App.distMm r)) ""
                (showN_digits _) (showN_nonempty _) eq_refl eq_refl
                (showN_digits _) (showN_nonempty _) eq_refl) as H.
  cbn [String.append] in H. rewrite append_nil_r in H.
  cbn [String.append]. rewrite H, !numberOfDigits_showN.
  destruct r; reflexivity.
Qed.

Lemma keepSome_map_Some {A} (l : list A) : App.keepSome (map Some l) = l.
Proof. induction l as [|a l IH]; [reflexivity|]. cbn. now rewrite IH. Qed.

Lemma split_lf_toCSV (rows : list App.Sample) :
  JS.split_lf (App.toCSV rows)
  = "t_ms,dist_mm"
    :: match rows with
       | [] => [EmptyString]
       | _ :: _ => map App.csvRow rows
       end.
Proof.
  unfold App.toCSV. rewrite append_assoc.
  rewrite split_lf_line by reflexivity. f_equal.
  destruct rows as [|r rows]; [reflexivity|].
  apply split_lf_join; [|discriminate].
  apply Forall_forall. intros l Hin.
  apply in_map_iff in Hin as (r' & <- & _). apply csvRow_noLF.
Qed.


(** * Further properties of the code *)

(** ** The line framer: what the lines and the buffer hold *)

Lemma feedAll_new_received (cs : list string) :
  App.feedAll App.newTransformer cs
  = (removelast (JS.split_crlf (App.received cs)),
     App.mkLBT (last (JS.split_crlf (App.received cs)) "")).
Proof.
  destruct cs as [|c cs']; [reflexivity|].
  rewrite feedAll_received by discriminate. reflexivity.
Qed.

(** X1: no line that [LineBreakTransformer] enqueues holds an LF, whether
    it comes from [transform] or from [flush], and the text it keeps between
    two chunks holds none either. *)
Theorem X1_framer_lines_hold_no_LF (cs : list string) :
  Forall (fun l => App.hasLF l = false) (fst (App.feedAll App.newTransformer cs))
  /\ App.hasLF (App.chunks (snd (App.feedAll App.newTransformer cs))) = false
  /\ Forall (fun l => App.hasLF l = false) (App.framed cs).
Proof.
  pose proof (split_crlf_pieces_noLF (App.received cs)) as Hall.
  rewrite Forall_forall in Hall.
  rewrite feedAll_new_received. cbn [fst snd App.chunks].
  split; [|split].
  - apply Forall_forall. intros l Hl. apply Hall. now apply In_removelast.
  - apply last_split_crlf_noLF.
  - apply Forall_forall. intros l Hl. apply Hall. now apply framed_subset.
Qed.

Lemma isLF_eq (c : ascii) : JS.isLF c = true -> c = JS.LF.
Proof. unfold JS.isLF. intros H. now apply Ascii.eqb_eq in H. Qed.

Lemma isCR_eq (c : ascii) : JS.isCR c = true -> c = JS.CR.
Proof. unfold JS.isCR. intros H. now apply Ascii.eqb_eq in H. Qed.

(** The text is its complete pieces, each with the separator that ended
    it, and then its last piece. *)
Lemma split_crlf_reassemble (s : string) :
  exists bs : list bool,
    List.length bs = List.length (removelast (JS.split_crlf s))
    /\ s = (App.terminated (combine (removelast (JS.split_crlf s)) bs)
            ++ last (JS.split_crlf s) "")%string.
Proof.
  induction s as [| c | c c' r IHr IHc] using string_ind2.
  - exists []. split; reflexivity.
  - rewrite split_crlf_one. destruct (JS.isLF c) eqn:HLF.
    + exists [false]. apply isLF_eq in HLF. subst c. split; reflexivity.
    + exists []. split; reflexivity.
  - rewrite split_crlf_two. destruct (JS.isLF c) eqn:HLF.
    + destruct IHc as (bs & Hlen & Heq). exists (false :: bs).
      rewrite removelast_cons, last_cons by apply split_crlf_nonempty.
      apply isLF_eq in HLF. subst c. split; [cbn; now rewrite Hlen|].
      cbn [combine App.terminated fold_right fst snd].
      change (fold_right _ EmptyString ?l) with (App.terminated l).
      cbn [String.append App.nl]. now rewrite <- Heq.
    + destruct (JS.isCR c && JS.isLF c') eqn:HCRLF.
      * apply andb_prop in HCRLF as [HCR HLF'].
        apply isCR_eq in HCR. apply isLF_eq in HLF'. subst c c'.
        destruct IHr as (bs & Hlen & Heq). exists (true :: bs).
        rewrite removelast_cons, last_cons by apply split_crlf_nonempty.
        split; [cbn; now rewrite Hlen|].
        cbn [combine App.terminated fold_right fst snd].
        change (fold_right _ EmptyString ?l) with (App.terminated l).
        cbn [String.append App.nl App.cr]. now rewrite <- Heq.
      * destruct IHc as (bs & Hlen & Heq). exists bs.
        destruct (JS.split_crlf (String c' r)) as [|x xs] eqn:E;
          [now apply split_crlf_nonempty in E|].
        destruct xs as [|y ys].
        -- cbn [JS.consHead removelast last] in *.
           destruct bs; [|discriminate Hlen].
           split; [reflexivity|]. cbn in Heq |- *. now rewrite <- Heq.
        -- cbn [JS.consHead].
           rewrite removelast_cons, last_cons in * by discriminate.
           split; [exact Hlen|].
           destruct bs as [|b bs]; [discriminate Hlen|].
           cbn [combine App.terminated fold_right fst snd] in Heq |- *.
           cbn [String.append]. now rewrite <- Heq.
Qed.

(** X2: [LineBreakTransformer] drops nothing but line ends: after any
    chunks, the text received is the lines enqueued so far, each followed
    by LF or by CR LF, and then the text still kept in [chunks]. *)
Theorem X2_framer_loses_only_line_ends (cs : list string) :
  exists bs : list bool,
    List.length bs = List.length (fst (App.feedAll App.newTransformer cs))
    /\ App.received cs
       = (App.terminated (combine (fst (App.feedAll App.newTransformer cs)) bs)
          ++ App.chunks (snd (App.feedAll App.newTransformer cs)))%string.
Proof.
  rewrite feedAll_new_received. cbn [fst snd App.chunks].
  apply split_crlf_reassemble.
Qed.

(** X3: the read loop of the millimetre-only revision hands [parseLine] the
    same lines as [LineBreakTransformer] enqueues from [transform], and
    keeps the same text in its buffer; so these depend on the text received
    only, not on the chunks. *)
Theorem X3_legacy_loop_frames_like_transformer :
  (forall cs : list string,
      Legacy.onChunks "" cs
      = (fst (App.feedAll App.newTransformer cs),
         App.chunks (snd (App.feedAll App.newTransformer cs))))
  /\ (forall cs1 cs2 : list string,
        App.received cs1 = App.received cs2 ->
        Legacy.onChunks "" cs1 = Legacy.onChunks "" cs2).
Proof.
  split.
  - intros cs. apply legacy_onChunks_feedAll. reflexivity.
  - intros cs1 cs2 H. now rewrite !legacy_onChunks_received, H.
Qed.

Lemma X3_legacy_loop_witness :
  Legacy.onChunks "" [("12" ++ App.cr)%string; (App.nl ++ "3")%string]
  = Legacy.onChunks "" [("12" ++ App.cr ++ App.nl)%string; "3"].
Proof.
  apply (proj2 X3_legacy_loop_frames_like_transformer). reflexivity.
Defined.

(** ** The reader loop: which lines count *)

Lemma span_spec (p : ascii -> bool) (s a b : string) :
  JS.span p s = (a, b) ->
  s = (a ++ b)%string /\ JS.all p a = true /\ JS.headIs p b = false.
Proof.
  revert a b. induction s as [|c s IH]; intros a b H.
  - injection H as <- <-. repeat split.
  - cbn [JS.span] in H. destruct (p c) eqn:Hc.
    + destruct (JS.span p s) as [a' b'] eqn:E. injection H as <- <-.
      destruct (IH a' b' eq_refl) as (-> & Ha & Hb).
      repeat split; [|exact Hb]. cbn. now rewrite Hc, Ha.
    + injection H as <- <-. repeat split. exact Hc.
Qed.

Lemma dropSpaces_spec (s : string) :
  exists w : string,
    s = (w ++ App.dropSpaces s)%string
    /\ JS.all JS.isSpace w = true
    /\ JS.headIs JS.isSpace (App.dropSpaces s) = false.
Proof.
  induction s as [|c s (w & Heq & Hw & Hh)].
  - exists EmptyString. repeat split.
  - cbn [App.dropSpaces]. destruct (JS.isSpace c) eqn:Hc.
    + exists (String c w). cbn. rewrite <- Heq, Hc, Hw. repeat split. exact Hh.
    + exists EmptyString. repeat split. exact Hc.
Qed.

Lemma truthy_true (g : string) : JS.truthy g = true -> g <> EmptyString.
Proof. destruct g; [discriminate | discriminate]. Qed.

Lemma matchData_shape (value g1 g2 : string) :
  App.matchData value = Some (g1, g2) ->
  exists w1 w2 rest : string,
    value = (g1 ++ w1 ++ "," ++ w2 ++ g2 ++ rest)%string
    /\ JS.all JS.isDigit g1 = true /\ g1 <> EmptyString
    /\ JS.all JS.isSpace w1 = true /\ JS.all JS.isSpace w2 = true
    /\ JS.all JS.isDigit g2 = true /\ g2 <> EmptyString
    /\ JS.headIs JS.isDigit rest = false.
Proof.
  unfold App.matchData. intros H.
  destruct (JS.span JS.isDigit value) as [a r1] eqn:E1.
  destruct (span_spec _ _ _ _ E1) as (-> & Ha & _).
  destruct (JS.truthy a) eqn:Ta; [|discriminate H].
  destruct (dropSpaces_spec r1) as (w1 & Hr1 & Hw1 & _).
  destruct (App.dropSpaces r1) as [|c r2]; [discriminate H|].
  destruct (Ascii.eqb_spec c ","%char) as [->|]; [|discriminate H].
  destruct (dropSpaces_spec r2) as (w2 & Hr2 & Hw2 & _).
  destruct (JS.span JS.isDigit (App.dropSpaces r2)) as [b rest] eqn:E2.
  destruct (span_spec _ _ _ _ E2) as (Hb2 & Hb & Hrest).
  destruct (JS.truthy b) eqn:Tb; [|discriminate H].
  injection H as <- <-.
  exists w1, w2, rest. rewrite Hr1 at 1. rewrite Hr2 at 1. rewrite Hb2.
  repeat split; auto using truthy_true.
Qed.

(** X4: the pattern of the reader loop takes a line as data exactly when
    the line is a run of digits, spaces, a comma, spaces, a run of digits,
    and then anything that does not go on with a digit; the two runs of
    digits are the groups it captures.  So a sign, a leading space or a
    decimal point in the first field makes the line no data line. *)
Theorem X4_data_pattern_exact (value g1 g2 : string) :
  App.matchData value = Some (g1, g2)
  <-> exists w1 w2 rest : string,
        value = (g1 ++ w1 ++ "," ++ w2 ++ g2 ++ rest)%string
        /\ JS.all JS.isDigit g1 = true /\ g1 <> EmptyString
        /\ JS.all JS.isSpace w1 = true /\ JS.all JS.isSpace w2 = true
        /\ JS.all JS.isDigit g2 = true /\ g2 <> EmptyString
        /\ JS.headIs JS.isDigit rest = false.
Proof.
  split; [apply matchData_shape|].
  intros (w1 & w2 & rest & -> & H1 & N1 & W1 & W2 & H2 & N2 & HR).
  now apply matchData_fields.
Qed.

Lemma X4_data_pattern_witness :
  App.matchData "12 , 34mm" = Some ("12", "34")
  /\ exists w1 w2 rest : string,
       "1000,523" = ("1000" ++ w1 ++ "," ++ w2 ++ "523" ++ rest)%string
       /\ JS.all JS.isDigit "1000" = true /\ "1000" <> EmptyString
       /\ JS.all JS.isSpace w1 = true /\ JS.all JS.isSpace w2 = true
       /\ JS.all JS.isDigit "523" = true /\ "523" <> EmptyString
       /\ JS.headIs JS.isDigit rest = false.
Proof.
  split.
  - apply (proj2 (X4_data_pattern_exact "12 , 34mm" "12" "34")).
    exists " ", " ", "mm". repeat split; discriminate.
  - apply (proj1 (X4_data_pattern_exact "1000,523" "1000" "523")). reflexivity.
Defined.

Lemma matchData_no_digit (value : string) :
  JS.headIs JS.isDigit value = false -> App.matchData value = None.
Proof.
  intros H. unfold App.matchData.
  destruct value as [|c v]; [reflexivity|].
  cbn [JS.headIs] in H. cbn [JS.span]. now rewrite H.
Qed.

Lemma matchData_digits_only (value : string) :
  JS.all JS.isDigit value = true -> App.matchData value = None.
Proof.
  intros H. unfold App.matchData.
  pose proof (span_all JS.isDigit value "" H eq_refl) as E.
  rewrite append_nil_r in E. rewrite E.
  destruct (JS.truthy value); reflexivity.
Qed.

(** X5: the reader loop leaves the whole session as it is for a line that
    starts neither with a digit nor with [#] (the empty line and the boot
    text among them), and for a line made of digits only: the bare number
    that the millimetre-only device prints is not taken as a sample. *)
Theorem X5_other_lines_change_nothing :
  (forall (value : string) (s : App.Session),
      JS.headIs JS.isDigit value = false ->
      JS.startsWith value "#" = false ->
      App.onValue value s = s)
  /\ (forall (value : string) (s : App.Session),
        JS.all JS.isDigit value = true -> App.onValue value s = s).
Proof.
  split.
  - intros value s Hd Hm. unfold App.onValue.
    rewrite Hm, matchData_no_digit by exact Hd.
    destruct (negb (JS.truthy value)), (JS.startsWith value "ESP-ROM:"); reflexivity.
  - intros value s Hd. unfold App.onValue.
    rewrite matchData_digits_only by exact Hd.
    destruct (negb (JS.truthy value)), (JS.startsWith value "ESP-ROM:"),
      (JS.startsWith value "#") eqn:Hm; try reflexivity.
    exfalso. destruct value as [|c v]; [discriminate Hm|].
    cbn in Hd. apply andb_prop in Hd as [Hc _].
    unfold JS.startsWith in Hm. cbn [String.prefix] in Hm.
    destruct (ascii_dec "#" c) as [<-|]; discriminate.
Qed.

Lemma X5_other_lines_witness :
  App.onValue "ESP-ROM:esp32c3-api1-20210207" App.connectedReady = App.connectedReady
  /\ App.onValue "523" App.connectedReady = App.connectedReady.
Proof.
  destruct X5_other_lines_change_nothing as [Hother Hbare]. split.
  - apply Hother; reflexivity.
  - apply Hbare. reflexivity.
Defined.

Lemma ready_line_is_meta (value : string) :
  JS.startsWith value "# READY" = true ->
  JS.truthy value = true
  /\ JS.startsWith value "ESP-ROM:" = false
  /\ JS.startsWith value "#" = true.
Proof.
  intros H. apply prefix_split in H as [r ->]. destruct r; repeat split.
Qed.

Lemma wire_pushPoint (t d : N) (s : App.Session) :
  App.wire (App.pushPoint t d s) = App.wire s.
Proof. reflexivity. Qed.

Lemma wire_onValue (value : string) (s : App.Session) :
  App.wire (App.onValue value s)
  = if AppRun.writesStart value s
    then App.wire s ++ [(App.startCommand (App.lastHz s) ++ App.nl)%string]
    else App.wire s.
Proof.
  unfold AppRun.writesStart.
  destruct (JS.startsWith value "# READY") eqn:HR.
  - destruct (ready_line_is_meta value HR) as (Ht & He & Hm).
    unfold App.onValue. rewrite Ht, He, Hm, HR. cbn [negb andb].
    destruct s as [po re wr rd dr wa hz recs ch st lg al wi].
    destruct wa, wr; reflexivity.
  - cbn [andb]. unfold App.onValue. rewrite HR.
    repeat match goal with
           | |- context [if ?b then _ else _] => destruct b
           | |- context [match App.matchData ?v with _ => _ end] =>
               destruct (App.matchData v) as [[? ?]|]
           end; reflexivity.
Qed.

(** X6: the reader loop writes to the port in one case only: the line
    starts with [# READY], [wantRunning] is set and a writer is held; it
    then writes the single line [START hz=<lastHz>].  No other line, and no
    data line, makes it write. *)
Theorem X6_reader_loop_writes_only_on_ready (value : string) (s : App.Session) :
  App.wire (App.onValue value s)
  = if AppRun.writesStart value s
    then App.wire s ++ [(App.startCommand (App.lastHz s) ++ App.nl)%string]
    else App.wire s.
Proof. apply wire_onValue. Qed.

(** ** Start, Stop and the readiness of the device *)

(** X7: a click on Start while the device is not ready writes nothing and
    keeps the wish; the [# READY] line that follows sends the one line
    [START hz=<n>], [n] being the whole number typed as the rate (of
    magnitude up to [2^53]), or 50 when nothing valid or 0 was typed.  A
    click on Stop in between sends [STOP] and withdraws the wish: [# READY]
    then sends nothing. *)
Theorem X7_start_waits_for_ready (hzValue : option Z) (s : App.Session) :
  Exact.safeInput hzValue = true ->
  App.port s <> None ->
  App.writer s <> None ->
  App.deviceReady s = false ->
  App.wire (App.btnStart hzValue s) = App.wire s
  /\ App.phase (App.btnStart hzValue s) = App.AwaitingReady
  /\ App.wire (App.onValue "# READY" (App.btnStart hzValue s))
     = App.wire s ++ [(App.startCommand (App.orElse hzValue 50) ++ App.nl)%string]
  /\ App.phase (App.onValue "# READY" (App.btnStart hzValue s)) = App.Running
  /\ App.wire (App.onValue "# READY" (App.btnStop (App.btnStart hzValue s)))
     = App.wire s ++ [("STOP" ++ App.nl)%string]
  /\ App.phase (App.onValue "# READY" (App.btnStop (App.btnStart hzValue s))) = App.Ready.
Proof.
  intros _ Hp Hw Hr. open_session s. subst dr.
  destruct po as [p|]; [|congruence]. destruct wr as [w|]; [|congruence].
  split; [|split; [|split; [|split; [|split]]]]; reflexivity.
Qed.

Lemma X7_start_witness :
  App.wire (App.btnStart (Some 25%Z) App.connected) = App.wire App.connected
  /\ App.phase (App.btnStart (Some 25%Z) App.connected) = App.AwaitingReady
  /\ App.wire (App.onValue "# READY" (App.btnStart (Some 25%Z) App.connected))
     = App.wire App.connected
       ++ [(App.startCommand (App.orElse (Some 25%Z) 50) ++ App.nl)%string]
  /\ App.phase (App.onValue "# READY" (App.btnStart (Some 25%Z) App.connected))
     = App.Running
  /\ App.wire (App.onValue "# READY" (App.btnStop (App.btnStart (Some 25%Z) App.connected)))
     = App.wire App.connected ++ [("STOP" ++ App.nl)%string]
  /\ App.phase (App.onValue "# READY" (App.btnStop (App.btnStart (Some 25%Z) App.connected)))
     = App.Ready.
Proof.
  apply (X7_start_waits_for_ready (Some 25%Z) App.connected);
    (discriminate || reflexivity).
Defined.

(** ** Connect, Disconnect and Reset *)

(** X8: when the port is granted and opens, Connect starts the session
    afresh whatever was there before: port, writer and reader are those of
    the new port, the loop is reading, the device counts as not ready, the
    wish to run and all records are dropped, the axes are the first ones,
    and the one line written is [HELP]. *)
Theorem X8_connect_starts_afresh (p : App.PortId) (s : App.Session) :
  let r := App.btnConnect (App.mkConnectEnv (inl p) None None) s in
  Eff.completion r = Eff.Normal tt
  /\ App.port (Eff.state r) = Some p
  /\ App.writer (Eff.state r) = Some p
  /\ App.reader (Eff.state r) = Some p
  /\ App.reading (Eff.state r) = true
  /\ App.phase (Eff.state r) = App.AwaitingReady
  /\ App.wantRunning (Eff.state r) = false
  /\ App.records (Eff.state r) = []
  /\ App.chart (Eff.state r) = App.emptyChart
  /\ App.lastHz (Eff.state r) = App.lastHz s
  /\ App.alerts (Eff.state r) = App.alerts s
  /\ App.wire (Eff.state r) = App.wire s ++ [("HELP" ++ App.nl)%string].
Proof. cbv zeta. destruct s. repeat split. Qed.

Ltac split_line_cases :=
  repeat match goal with
         | |- context [if ?b then _ else _] => destruct b
         | |- context [match App.matchData ?v with _ => _ end] =>
             destruct (App.matchData v) as [[? ?]|]
         end.

Lemma writer_step_notConnect (e : AppRun.Event) (s : App.Session) :
  AppRun.notConnect e = true -> App.writer s = None ->
  App.writer (AppRun.step s e) = None /\ App.wire (AppRun.step s e) = App.wire s.
Proof.
  intros He Hw. destruct e as [value| env | | hzv | | | cm | ];
    try discriminate He; cbn [AppRun.step].
  - split.
    + open_session s. subst wr. unfold App.onValue.
      split_line_cases; reflexivity.
    + rewrite wire_onValue.
      unfold AppRun.writesStart. rewrite Hw. now rewrite andb_false_r.
  - split; reflexivity.
  - open_session s. subst wr. unfold App.btnStart. cbn [App.port].
    destruct po; [destruct dr|]; split; reflexivity.
  - open_session s. subst wr. split; reflexivity.
  - open_session s. subst wr. split; reflexivity.
  - open_session s. subst wr. unfold App.btnCal. cbn [App.port].
    destruct po; split; reflexivity.
  - split; [exact Hw | reflexivity].
Qed.

Lemma wire_run_notConnect (es : list AppRun.Event) (s : App.Session) :
  forallb AppRun.notConnect es = true -> App.writer s = None ->
  App.wire (AppRun.run es s) = App.wire s.
Proof.
  revert s. induction es as [|e es IH]; intros s Hes Hw; [reflexivity|].
  cbn [forallb] in Hes. apply andb_prop in Hes as [He Hes].
  destruct (writer_step_notConnect e s He Hw) as [Hw' Hwire].
  cbn [AppRun.run fold_left]. change (fold_left AppRun.step es) with (AppRun.run es).
  rewrite (IH _ Hes Hw'). exact Hwire.
Qed.

(** X9: Disconnect lets go of port, writer and reader, stops the reading and
    drops the wish to run, and writes nothing (no [STOP] is sent); records
    and chart stay, so the export after it is the one before it.  From then
    on, whatever is clicked and whatever line still comes in, nothing is
    written until Connect is clicked again. *)
Theorem X9_disconnect_keeps_records_and_silence (s : App.Session) :
  App.phase (App.btnDisconnect s) = App.Disconnected
  /\ App.writer (App.btnDisconnect s) = None
  /\ App.reader (App.btnDisconnect s) = None
  /\ App.reading (App.btnDisconnect s) = false
  /\ App.wantRunning (App.btnDisconnect s) = false
  /\ App.records (App.btnDisconnect s) = App.records s
  /\ App.chart (App.btnDisconnect s) = App.chart s
  /\ App.wire (App.btnDisconnect s) = App.wire s
  /\ fst (App.btnCsv (App.btnDisconnect s)) = fst (App.btnCsv s)
  /\ (forall es : list AppRun.Event,
        forallb AppRun.notConnect es = true ->
        App.wire (AppRun.run es (App.btnDisconnect s)) = App.wire s).
Proof.
  repeat (split; [reflexivity|]).
  intros es Hes. now rewrite wire_run_notConnect.
Qed.

Lemma X9_disconnect_witness :
  App.wire
    (AppRun.run [AppRun.Start (Some 25%Z); AppRun.Line "# READY"; AppRun.Stop;
                 AppRun.Cal (Some 10%Z); AppRun.Reset]
       (App.btnDisconnect App.connectedReady))
  = App.wire App.connectedReady.
Proof.
  apply (proj2 (proj2 (proj2 (proj2 (proj2 (proj2 (proj2 (proj2 (proj2
           (X9_disconnect_keeps_records_and_silence App.connectedReady)))))))))).
  reflexivity.
Defined.

Lemma reset_line_is_meta (value : string) :
  JS.startsWith value "# RESET" = true ->
  JS.truthy value = true
  /\ JS.startsWith value "ESP-ROM:" = false
  /\ JS.startsWith value "#" = true
  /\ JS.startsWith value "# READY" = false
  /\ JS.startsWith value "# START" = false
  /\ JS.startsWith value "# STOP" = false.
Proof.
  intros H. apply prefix_split in H as [r ->]. destruct r; repeat split.
Qed.

(** X10: a line that starts with [# RESET] empties the records and puts the
    chart back to its first state (no data, time axis 0..10, upper limit
    100), shows READY, writes nothing and leaves port, writer and the two
    flags alone; the export is then the header line alone.  The Reset button
    does the same to records and chart, drops the wish to run, and sends
    [RESET] when a writer is held. *)
Theorem X10_reset_empties_store :
  (forall (value : string) (s : App.Session),
      JS.startsWith value "# RESET" = true ->
      App.records (App.onValue value s) = []
      /\ App.chart (App.onValue value s) = App.emptyChart
      /\ App.status (App.onValue value s) = "READY"
      /\ App.wire (App.onValue value s) = App.wire s
      /\ App.port (App.onValue value s) = App.port s
      /\ App.writer (App.onValue value s) = App.writer s
      /\ App.deviceReady (App.onValue value s) = App.deviceReady s
      /\ App.wantRunning (App.onValue value s) = App.wantRunning s
      /\ fst (App.btnCsv (App.onValue value s)) = ("t_ms,dist_mm" ++ App.nl)%string)
  /\ (forall s : App.Session,
        App.records (App.btnReset s) = []
        /\ App.chart (App.btnReset s) = App.emptyChart
        /\ App.wantRunning (App.btnReset s) = false
        /\ App.wire (App.btnReset s)
           = match App.writer s with
             | Some _ => App.wire s ++ [("RESET" ++ App.nl)%string]
             | None => App.wire s
             end).
Proof.
  split.
  - intros value s H.
    destruct (reset_line_is_meta value H) as (Ht & He & Hm & H1 & H2 & H3).
    unfold App.btnCsv, App.onValue. rewrite Ht, He, Hm, H1, H2, H3, H.
    cbn [negb fst]. repeat split.
  - intros s. destruct s as [po re wr rd dr wa hz recs ch st lg al wi].
    destruct wr; repeat split.
Qed.

Lemma X10_reset_witness :
  App.records (App.onValue "# RESET done" (App.pushPoint 1000 523 App.connectedReady)) = []
  /\ App.chart (App.onValue "# RESET done" (App.pushPoint 1000 523 App.connectedReady))
     = App.emptyChart.
Proof.
  destruct (proj1 X10_reset_empties_store "# RESET done"
              (App.pushPoint 1000 523 App.connectedReady) eq_refl) as (H1 & H2 & _).
  split; assumption.
Defined.

(** ** The axes after a sample *)

Lemma rev_pushBounded {A} (cap : N) (a : list A) (v : A) :
  (1 <= cap)%N -> exists l, rev (App.pushBounded cap a v) = v :: l.
Proof.
  intros Hcap. unfold App.pushBounded.
  destruct (N.ltb_spec cap (N.of_nat (List.length (a ++ [v])))) as [Hlt|Hle].
  - destruct a as [|x a]; [cbn in Hlt; lia|].
    cbn [app tl]. rewrite rev_app_distr. eexists. reflexivity.
  - rewrite rev_app_distr. eexists. reflexivity.
Qed.

Lemma MAX_POINTS_positive : (1 <= App.MAX_POINTS)%N.
Proof. unfold App.MAX_POINTS. lia. Qed.

Lemma chart_pushPoint (t d : N) (s : App.Session) :
  let c := App.chart (App.pushPoint t d s) in
  App.xMin c = Qmax 0 ((Z.of_N t # 1000) - App.X_SPAN_DEFAULT_SEC)
  /\ App.xMax c = Qmax App.X_SPAN_DEFAULT_SEC (Z.of_N t # 1000)
  /\ App.suggestedMax c
     = Qmax (App.suggestedMax (App.chart s))
         (Qmax App.Y_INIT_MAX_CM
            (inject_Z (Qceiling ((Z.of_N d # 10) * (11 # 10)))))
  /\ App.data c
     = App.pushBounded App.MAX_POINTS (App.data (App.chart s))
         (App.mkPoint (Z.of_N t # 1000) (Z.of_N d # 10)).
Proof.
  cbv zeta. unfold App.pushPoint.
  cbn [App.chart App.set_chart App.set_records].
  unfold App.updateChartAutoAxis. cbn [App.data App.suggestedMax].
  destruct (rev_pushBounded App.MAX_POINTS (App.data (App.chart s))
              (App.mkPoint (Z.of_N t # 1000) (Z.of_N d # 10)) MAX_POINTS_positive)
    as [l E].
  rewrite E. cbn [App.xMin App.xMax App.suggestedMax App.data App.px App.py].
  repeat split.
Qed.

Lemma Qnonneg_of_N (n : N) (p : positive) : 0 <= Z.of_N n # p.
Proof. unfold Qle. cbn. lia. Qed.

Lemma sliding_window (now span : Q) :
  0 <= now -> 0 < span ->
  Qmax span now - Qmax 0 (now - span) == span
  /\ 0 <= Qmax 0 (now - span)
  /\ Qmax 0 (now - span) <= now
  /\ now <= Qmax span now.
Proof.
  intros Hnow Hspan.
  destruct (Q.max_spec span now) as [[H1 E1]|[H1 E1]];
    destruct (Q.max_spec 0 (now - span)) as [[H2 E2]|[H2 E2]];
    rewrite E1, E2; repeat split; lra.
Qed.

Lemma ceiling_of_scaled (y : Q) : 0 <= y -> y <= inject_Z (Qceiling (y * (11 # 10))).
Proof.
  intros Hy. apply Qle_trans with (y * (11 # 10)); [lra | apply Qle_ceiling].
Qed.

Lemma axes_pushPoint (t d : N) (s : App.Session) :
  let c := App.chart (App.pushPoint t d s) in
  let x := Z.of_N t # 1000 in
  let y := Z.of_N d # 10 in
  App.xMax c - App.xMin c == 10
  /\ 0 <= App.xMin c
  /\ App.xMin c <= x /\ x <= App.xMax c
  /\ App.Y_INIT_MAX_CM <= App.suggestedMax c
  /\ y * (11 # 10) <= App.suggestedMax c
  /\ y <= App.suggestedMax c.
Proof.
  cbv zeta. destruct (chart_pushPoint t d s) as (-> & -> & -> & _).
  pose proof (Qnonneg_of_N t 1000) as Ht. pose proof (Qnonneg_of_N d 10) as Hd.
  destruct (sliding_window (Z.of_N t # 1000) App.X_SPAN_DEFAULT_SEC Ht eq_refl)
    as (Hw & H0 & Hlo & Hhi).
  assert (Hy : (Z.of_N d # 10) * (11 # 10)
               <= Qmax App.Y_INIT_MAX_CM
                    (inject_Z (Qceiling ((Z.of_N d # 10) * (11 # 10))))).
  { eapply Qle_trans; [apply Qle_ceiling | apply Q.le_max_r]. }
  assert (Hm : forall a b, b <= Qmax a b) by (intros; apply Q.le_max_r).
  repeat split; try assumption.
  - eapply Qle_trans; [apply Q.le_max_l | apply Hm].
  - eapply Qle_trans; [exact Hy | apply Hm].
  - eapply Qle_trans; [|eapply Qle_trans; [exact Hy | apply Hm]]. lra.
Qed.

(** X11: after a [pushPoint] of a time and a distance that are whole
    numbers up to [2^32], the time axis is a window exactly 10 s wide that
    starts at 0 or later and holds the new point, and the upper limit of the
    distance axis is at least 100 cm and at least the new distance with its
    10 per cent of margin. *)
Theorem X11_new_point_is_inside_the_axes (t d : N) (s : App.Session) :
  (t <= Exact.limit)%N ->
  (d <= Exact.limit)%N ->
  let c := App.chart (App.pushPoint t d s) in
  let x := Z.of_N t # 1000 in
  let y := Z.of_N d # 10 in
  App.xMax c - App.xMin c == 10
  /\ 0 <= App.xMin c
  /\ App.xMin c <= x /\ x <= App.xMax c
  /\ App.Y_INIT_MAX_CM <= App.suggestedMax c
  /\ y * (11 # 10) <= App.suggestedMax c
  /\ y <= App.suggestedMax c.
Proof. intros _ _. apply axes_pushPoint. Qed.

Lemma X11_new_point_witness :
  let c := App.chart (App.pushPoint 12000 523 App.connectedReady) in
  let x := Z.of_N 12000 # 1000 in
  let y := Z.of_N 523 # 10 in
  App.xMax c - App.xMin c == 10
  /\ 0 <= App.xMin c
  /\ App.xMin c <= x /\ x <= App.xMax c
  /\ App.Y_INIT_MAX_CM <= App.suggestedMax c
  /\ y * (11 # 10) <= App.suggestedMax c
  /\ y <= App.suggestedMax c.
Proof.
  apply (X11_new_point_is_inside_the_axes 12000 523 App.connectedReady);
    vm_compute; discriminate.
Defined.

(** ** What holds in every state of a run *)

Lemma run_invariant (I : App.Session -> Prop) :
  (forall s e, I s -> I (AppRun.step s e)) ->
  forall es s, I s -> I (AppRun.run es s).
Proof.
  intros Hstep es. induction es as [|e es IH]; intros s Hs; [exact Hs|].
  cbn [AppRun.run fold_left]. apply IH, Hstep, Hs.
Qed.

(** One event leaves records and chart alone, or does one [pushPoint], or
    clears them. *)
Lemma step_store_cases (e : AppRun.Event) (s : App.Session) :
  (App.records (AppRun.step s e) = App.records s
   /\ App.chart (AppRun.step s e) = App.chart s)
  \/ (exists t d,
         App.records (AppRun.step s e) = App.records (App.pushPoint t d s)
         /\ App.chart (AppRun.step s e) = App.chart (App.pushPoint t d s))
  \/ (App.records (AppRun.step s e) = []
      /\ App.chart (AppRun.step s e) = App.emptyChart).
Proof.
  destruct e as [value| [[p|err] [e1|] [e2|]] | | hzv | | | cm | ];
    cbn [AppRun.step];
    try (left; split; reflexivity);
    try (right; right; split; reflexivity).
  - unfold App.onValue. destruct s as [po re [w|] rd dr wa hz recs ch st lg al wi];
      split_line_cases;
      first [ left; split; reflexivity
            | right; right; split; reflexivity
            | right; left; do 2 eexists; split; reflexivity ].
  - destruct s as [[p|] re [w|] rd [|] wa hz recs ch st lg al wi];
      left; split; reflexivity.
  - destruct s as [po re [w|] rd dr wa hz recs ch st lg al wi];
      left; split; reflexivity.
  - destruct s as [po re [w|] rd dr wa hz recs ch st lg al wi];
      right; right; split; reflexivity.
  - destruct s as [[p|] re [w|] rd dr wa hz recs ch st lg al wi];
      left; split; reflexivity.
Qed.

Lemma map_pushBounded {A B} (f : A -> B) (cap : N) (a : list A) (v : A) :
  map f (App.pushBounded cap a v) = App.pushBounded cap (map f a) (f v).
Proof.
  unfold App.pushBounded. rewrite !length_app, length_map. cbn [List.length].
  destruct (cap <? N.of_nat (List.length a + 1))%N.
  - destruct a as [|x a]; [reflexivity|]. cbn [app tl map]. apply map_app.
  - apply map_app.
Qed.

Lemma In_pushBounded {A} (cap : N) (a : list A) (v x : A) :
  In x (App.pushBounded cap a v) -> In x a \/ x = v.
Proof.
  unfold App.pushBounded. intros H.
  assert (Hin : In x (a ++ [v])).
  { destruct (cap <? N.of_nat (List.length (a ++ [v])))%N; [|exact H].
    destruct (a ++ [v]); [contradiction | now right]. }
  apply in_app_or in Hin as [Hin|[<-|[]]]; auto.
Qed.

Lemma storeInv_step (s : App.Session) (e : AppRun.Event) :
  AppRun.storeInv s -> AppRun.storeInv (AppRun.step s e).
Proof.
  intros [Hlen Hdata]. unfold AppRun.storeInv.
  destruct (step_store_cases e s) as [[-> ->]|[(t & d & -> & ->)|[-> ->]]].
  - now split.
  - destruct (chart_pushPoint t d s) as (_ & _ & _ & ->).
    rewrite records_pushPoint, map_pushBounded, Hdata.
    split; [now apply pushBounded_length | reflexivity].
  - split; [cbn; lia | reflexivity].
Qed.

Lemma axesInv_step (s : App.Session) (e : AppRun.Event) :
  AppRun.axesInv s -> AppRun.axesInv (AppRun.step s e).
Proof.
  intros (Hw & H0 & Hy & Hall). unfold AppRun.axesInv.
  destruct (step_store_cases e s) as [[_ ->]|[(t & d & _ & ->)|[_ ->]]].
  - repeat split; assumption.
  - destruct (axes_pushPoint t d s) as (Hw' & H0' & _ & _ & Hy' & _ & Hd').
    repeat split; try assumption.
    destruct (chart_pushPoint t d s) as (_ & _ & Hmax & Hdat).
    rewrite Hdat. apply Forall_forall. intros q Hq.
    apply In_pushBounded in Hq as [Hq| ->].
    + rewrite Forall_forall in Hall.
      eapply Qle_trans; [apply (Hall q Hq)|]. rewrite Hmax. apply Q.le_max_l.
    + exact Hd'.
  - repeat split; try (cbn; lra). constructor.
Qed.

Lemma orElse_nonzero (x : option Z) (d : Z) : d <> 0%Z -> App.orElse x d <> 0%Z.
Proof.
  intros Hd. unfold App.orElse. destruct x as [z|]; [|exact Hd].
  destruct (Z.eqb_spec z 0); assumption.
Qed.

Lemma portInv_send (line : string) (s : App.Session) :
  AppRun.Command (line ++ App.nl) ->
  Forall AppRun.Command (App.wire s) ->
  Forall AppRun.Command (App.wire (App.sendLine line s)).
Proof.
  intros Hc Hw. unfold App.sendLine. destruct (App.writer s); [|exact Hw].
  cbn [App.wire App.logDebug App.write].
  apply Forall_app. split; [exact Hw | now constructor].
Qed.

Lemma flags_onValue (value : string) (s : App.Session) :
  App.port (App.onValue value s) = App.port s
  /\ App.writer (App.onValue value s) = App.writer s
  /\ App.wantRunning (App.onValue value s) = App.wantRunning s
  /\ App.lastHz (App.onValue value s) = App.lastHz s.
Proof.
  unfold App.onValue. destruct s as [po re [w|] rd dr wa hz recs ch st lg al wi];
    split_line_cases; repeat split.
Qed.

Ltac wire_grows :=
  apply Forall_app; split; [assumption | constructor; [|constructor]].

Ltac port_side :=
  first [ assumption | discriminate | intros _; discriminate | intros; congruence ].

Lemma portInv_step (s : App.Session) (e : AppRun.Event) :
  AppRun.portInv s -> AppRun.portInv (AppRun.step s e).
Proof.
  intros (Hw & Hhz & Hwp & Hrp). unfold AppRun.portInv.
  destruct e as [value| [[p|err] [e1|] [e2|]] | | hzv | | | cm | ];
    cbn [AppRun.step].
  - destruct (flags_onValue value s) as (-> & -> & -> & ->).
    rewrite wire_onValue. repeat split; try assumption.
    destruct (AppRun.writesStart value s); [|exact Hw].
    wire_grows. now apply AppRun.cmd_start.
  - open_session s. cbn in *. repeat split; port_side.
  - open_session s. cbn in *. repeat split; port_side.
  - open_session s. cbn in *. repeat split; port_side.
  - open_session s. cbn in *. repeat split; try port_side.
    wire_grows. apply AppRun.cmd_help.
  - open_session s. cbn in *. repeat split; port_side.
  - open_session s. cbn in *. repeat split; port_side.
  - open_session s. cbn in *. repeat split; port_side.
  - open_session s. cbn in *. repeat split; port_side.
  - open_session s. cbn in *. repeat split; port_side.
  - assert (Hne : App.orElse hzv 50 <> 0%Z) by (apply orElse_nonzero; discriminate).
    open_session s. unfold App.btnStart. cbn [App.port].
    destruct po as [p|]; [|cbn in *; repeat split; port_side].
    destruct dr, wr; cbn [App.deviceReady App.set_wantRunning App.set_lastHz
                          App.sendLine App.writer App.lastHz App.wire App.port
                          App.wantRunning App.logDebug App.write App.setStatus];
      repeat split; try port_side.
    wire_grows. now apply (AppRun.cmd_start (App.orElse hzv 50)).
  - open_session s. unfold App.btnStop.
    destruct wr; cbn [App.set_wantRunning App.sendLine App.writer App.lastHz App.wire
                      App.port App.wantRunning App.logDebug App.write];
      repeat split; try port_side.
    wire_grows. apply AppRun.cmd_stop.
  - open_session s. unfold App.btnReset.
    destruct wr; cbn [App.set_wantRunning App.clearDataAndAxes App.set_chart
                      App.set_records App.sendLine App.writer App.lastHz App.wire
                      App.port App.wantRunning App.logDebug App.write];
      repeat split; try port_side.
    wire_grows. apply AppRun.cmd_reset.
  - open_session s. unfold App.btnCal. cbn [App.port].
    destruct po as [p|], wr;
      cbn [App.sendLine App.writer App.lastHz App.wire App.port App.wantRunning
           App.logDebug App.write App.alert];
      repeat split; try port_side.
    wire_grows. apply (AppRun.cmd_cal (App.orElse cm 0)).
  - repeat split; assumption.
Qed.

(** X12: in every state that clicks and lines can lead to from the loaded
    page, [records] holds at most 10000 samples and the data set of the chart
    is these records, point for point: x is the time in seconds, y the
    distance in centimetres. *)
Theorem X12_chart_plots_the_records (es : list AppRun.Event) :
  (N.of_nat (List.length (App.records (AppRun.run es App.initial))) <= 10000)%N
  /\ App.data (App.chart (AppRun.run es App.initial))
     = map (fun r => App.mkPoint (Z.of_N (App.tMs r) # 1000) (Z.of_N (App.distMm r) # 10))
         (App.records (AppRun.run es App.initial)).
Proof.
  apply (run_invariant AppRun.storeInv storeInv_step es App.initial).
  split; [cbn; lia | reflexivity].
Qed.

(** X13: in every state that clicks and lines can lead to from the loaded
    page, the data lines carrying whole numbers up to [2^32], the time axis
    is a window of exactly 10 s that starts at 0 or later, the upper limit
    of the distance axis is at least 100 cm, and no point of the chart lies
    above that limit. *)
Theorem X13_axes_in_every_state (es : list AppRun.Event) :
  forallb Exact.lineInRange es = true ->
  let c := App.chart (AppRun.run es App.initial) in
  App.xMax c - App.xMin c == 10
  /\ 0 <= App.xMin c
  /\ 100 <= App.suggestedMax c
  /\ Forall (fun p => App.py p <= App.suggestedMax c) (App.data c).
Proof.
  intros _.
  apply (run_invariant AppRun.axesInv axesInv_step es App.initial).
  repeat split; try (cbn; lra). constructor.
Qed.

Lemma X13_axes_witness :
  let c := App.chart
             (AppRun.run [AppRun.Line "1000,523"; AppRun.Line "# RESET";
                          AppRun.Line "12000, 40"; AppRun.Start (Some 25%Z)]
                App.initial) in
  App.xMax c - App.xMin c == 10
  /\ 0 <= App.xMin c
  /\ 100 <= App.suggestedMax c
  /\ Forall (fun p => App.py p <= App.suggestedMax c) (App.data c).
Proof.
  apply (X13_axes_in_every_state
           [AppRun.Line "1000,523"; AppRun.Line "# RESET";
            AppRun.Line "12000, 40"; AppRun.Start (Some 25%Z)]).
  vm_compute. reflexivity.
Defined.

(** X14: in every state that clicks and lines can lead to from the loaded
    page, every rate and length typed being a whole number of magnitude up
    to [2^53] (or nothing valid), all that was ever written to the port are
    command lines, each ended by one LF: [HELP], [START hz=<n>] with [n]
    not 0, [STOP], [RESET] or [CAL cm=<n>]; and a writer is held, or a wish
    to run recorded, only while [port] is set. *)
Theorem X14_only_commands_are_written (es : list AppRun.Event) :
  forallb Exact.typedInRange es = true ->
  let s := AppRun.run es App.initial in
  Forall AppRun.Command (App.wire s)
  /\ App.lastHz s <> 0%Z
  /\ (App.writer s <> None -> App.port s <> None)
  /\ (App.wantRunning s = true -> App.port s <> None).
Proof.
  intros _.
  apply (run_invariant AppRun.portInv portInv_step es App.initial).
  unfold AppRun.portInv. cbn. repeat split; try port_side. constructor.
Qed.

Lemma X14_commands_witness :
  let s := AppRun.run [AppRun.Connect App.grantAll; AppRun.Start (Some 25%Z);
                       AppRun.Line "# READY"; AppRun.Cal (Some 10%Z); AppRun.Stop]
             App.initial in
  Forall AppRun.Command (App.wire s)
  /\ App.lastHz s <> 0%Z
  /\ (App.writer s <> None -> App.port s <> None)
  /\ (App.wantRunning s = true -> App.port s <> None).
Proof.
  apply (X14_only_commands_are_written
           [AppRun.Connect App.grantAll; AppRun.Start (Some 25%Z);
            AppRun.Line "# READY"; AppRun.Cal (Some 10%Z); AppRun.Stop]).
  vm_compute. reflexivity.
Defined.

(** ** The millimetre-only revision: axes, chart and records *)

Lemma gtb_false (a b : Q) : Legacy.gtb a b = false -> a <= b.
Proof.
  unfold Legacy.gtb. intros H. apply negb_false_iff in H. now apply Qle_bool_iff.
Qed.

Lemma gtb_true (a b : Q) : Legacy.gtb a b = true -> b < a.
Proof.
  unfold Legacy.gtb. intros H. apply negb_true_iff in H.
  apply Qnot_le_lt. intros Hle. apply Qle_bool_iff in Hle. congruence.
Qed.

Lemma ensureAxes_fields (t mm : Q) (s : Legacy.Session) :
  Legacy.xMax (Legacy.ensureAxes t mm s)
  = (if Legacy.gtb t (Legacy.xMax s)
     then inject_Z (Qceiling (t / Legacy.INITIAL_X_SPAN)) * Legacy.INITIAL_X_SPAN
     else Legacy.xMax s)
  /\ Legacy.yMax (Legacy.ensureAxes t mm s)
     = (if Legacy.gtb mm (Legacy.yMax s) then Legacy.niceCeil mm else Legacy.yMax s)
  /\ Legacy.ds (Legacy.ensureAxes t mm s) = Legacy.ds s
  /\ Legacy.records (Legacy.ensureAxes t mm s) = Legacy.records s.
Proof.
  unfold Legacy.ensureAxes.
  destruct (Legacy.gtb t (Legacy.xMax s)); cbn [Legacy.yMax Legacy.set_xMax];
    destruct (Legacy.gtb mm (Legacy.yMax s)); repeat split.
Qed.

Lemma addRecord_fields (t mm : Q) (s : Legacy.Session) :
  Legacy.xMax (Legacy.addRecord t mm s)
  = (if Legacy.gtb t (Legacy.xMax s)
     then inject_Z (Qceiling (t / Legacy.INITIAL_X_SPAN)) * Legacy.INITIAL_X_SPAN
     else Legacy.xMax s)
  /\ Legacy.yMax (Legacy.addRecord t mm s)
     = (if Legacy.gtb mm (Legacy.yMax s) then Legacy.niceCeil mm else Legacy.yMax s)
  /\ Legacy.ds (Legacy.addRecord t mm s)
     = Legacy.trimTo Legacy.MAX_POINTS (Legacy.ds s ++ [Legacy.mkRec t mm])
  /\ Legacy.records (Legacy.addRecord t mm s)
     = Legacy.trimTo Legacy.MAX_RECORDS (Legacy.records s ++ [Legacy.mkRec t mm]).
Proof.
  unfold Legacy.addRecord.
  match goal with
  | |- context [Legacy.ensureAxes t mm ?s2] =>
      destruct (ensureAxes_fields t mm s2) as (-> & -> & -> & ->)
  end.
  repeat split.
Qed.

Lemma addRecord_limits (t mm : Q) (s : Legacy.Session) :
  t <= Legacy.xMax (Legacy.addRecord t mm s)
  /\ mm <= Legacy.yMax (Legacy.addRecord t mm s)
  /\ Legacy.xMax s <= Legacy.xMax (Legacy.addRecord t mm s)
  /\ Legacy.yMax s <= Legacy.yMax (Legacy.addRecord t mm s).
Proof.
  destruct (addRecord_fields t mm s) as (-> & -> & _ & _).
  pose proof (ceilTo_ge t Legacy.INITIAL_X_SPAN eq_refl) as Hx.
  unfold Legacy.ceilTo in Hx.
  pose proof (niceCeil_ge mm) as Hy.
  destruct (Legacy.gtb t (Legacy.xMax s)) eqn:Gx;
    destruct (Legacy.gtb mm (Legacy.yMax s)) eqn:Gy;
    try apply gtb_true in Gx; try apply gtb_false in Gx;
    try apply gtb_true in Gy; try apply gtb_false in Gy;
    repeat split; lra.
Qed.

Lemma In_trimTo {A} (cap : nat) (a : list A) (x : A) :
  In x (Legacy.trimTo cap a) -> In x a.
Proof.
  unfold Legacy.trimTo. destruct (cap <? List.length a)%nat; [|tauto].
  intros H. rewrite <- (firstn_skipn (List.length a - cap) a).
  apply in_or_app. now right.
Qed.

Lemma legacy_run_invariant (I : Legacy.Session -> Prop) :
  (forall s e, I s -> I (LegacyRun.step s e)) ->
  forall es s, I s -> I (LegacyRun.run es s).
Proof.
  intros Hstep es. induction es as [|e es IH]; intros s Hs; [exact Hs|].
  cbn [LegacyRun.run fold_left]. apply IH, Hstep, Hs.
Qed.

Lemma legacy_axes_run (es : list LegacyRun.Event) :
  let s := LegacyRun.run es Legacy.initial in
  (exists k : Z, Legacy.xMax s == inject_Z k * 10000)
  /\ (exists k : Z, Legacy.yMax s == inject_Z k * 100)
  /\ 10000 <= Legacy.xMax s
  /\ 1000 <= Legacy.yMax s
  /\ Forall (fun r => Legacy.t r <= Legacy.xMax s /\ Legacy.mm r <= Legacy.yMax s)
       (Legacy.ds s).
Proof.
  cbv zeta.
  apply (legacy_run_invariant
           (fun s =>
              (exists k : Z, Legacy.xMax s == inject_Z k * 10000)
              /\ (exists k : Z, Legacy.yMax s == inject_Z k * 100)
              /\ 10000 <= Legacy.xMax s
              /\ 1000 <= Legacy.yMax s
              /\ Forall (fun r => Legacy.t r <= Legacy.xMax s
                                  /\ Legacy.mm r <= Legacy.yMax s) (Legacy.ds s))).
  - intros s [t mm|] (Hkx & Hky & Hx & Hy & Hall); cbn [LegacyRun.step].
    + destruct (addRecord_limits t mm s) as (Ht & Hmm & Hxm & Hym).
      destruct (addRecord_fields t mm s) as (Ex & Ey & Eds & _).
      repeat split.
      * rewrite Ex. destruct (Legacy.gtb t (Legacy.xMax s)); [|exact Hkx].
        eexists. reflexivity.
      * rewrite Ey. destruct (Legacy.gtb mm (Legacy.yMax s)); [|exact Hky].
        rewrite niceCeil_hundreds. eexists. reflexivity.
      * lra.
      * lra.
      * rewrite Eds. apply Forall_forall. intros r Hr.
        apply In_trimTo, in_app_or in Hr as [Hr|[<-|[]]].
        -- rewrite Forall_forall in Hall. destruct (Hall r Hr). split; lra.
        -- split; assumption.
    + split; [exists 1%Z; reflexivity|].
      split; [exists 10%Z; reflexivity|].
      split; [apply Qle_refl|]. split; [apply Qle_refl | constructor].
  - split; [exists 1%Z; reflexivity|].
    split; [exists 10%Z; reflexivity|].
    split; [apply Qle_refl|]. split; [apply Qle_refl | constructor].
Qed.

(** X15: in the millimetre-only revision, for times and distances that are
    whole numbers of magnitude up to [2^32]: [addRecord] leaves the new
    point at or below both axis maxima and never lowers a maximum; and after
    any such records and any clicks on Clear, the maximum of the time axis
    is a whole number of 10000 ms blocks (one at least), the maximum of the
    distance axis a whole number of hundreds (1000 at least), and no point
    of the chart lies beyond either. *)
Theorem X15_legacy_points_within_axis_maxima :
  (forall (t mm : Q) (s : Legacy.Session),
      Exact.whole t = true ->
      Exact.whole mm = true ->
      t <= Legacy.xMax (Legacy.addRecord t mm s)
      /\ mm <= Legacy.yMax (Legacy.addRecord t mm s)
      /\ Legacy.xMax s <= Legacy.xMax (Legacy.addRecord t mm s)
      /\ Legacy.yMax s <= Legacy.yMax (Legacy.addRecord t mm s))
  /\ (forall es : list LegacyRun.Event,
        forallb Exact.wholeEvent es = true ->
        let s := LegacyRun.run es Legacy.initial in
        (exists k : Z, Legacy.xMax s == inject_Z k * 10000)
        /\ (exists k : Z, Legacy.yMax s == inject_Z k * 100)
        /\ 10000 <= Legacy.xMax s
        /\ 1000 <= Legacy.yMax s
        /\ Forall (fun r => Legacy.t r <= Legacy.xMax s /\ Legacy.mm r <= Legacy.yMax s)
             (Legacy.ds s)).
Proof.
  split.
  - intros t mm s _ _. apply addRecord_limits.
  - intros es _. apply legacy_axes_run.
Qed.

Lemma X15_legacy_axes_witness :
  (12345 <= Legacy.xMax (Legacy.addRecord 12345 1001 Legacy.initial)
   /\ 1001 <= Legacy.yMax (Legacy.addRecord 12345 1001 Legacy.initial)
   /\ Legacy.xMax Legacy.initial <= Legacy.xMax (Legacy.addRecord 12345 1001 Legacy.initial)
   /\ Legacy.yMax Legacy.initial <= Legacy.yMax (Legacy.addRecord 12345 1001 Legacy.initial))
  /\ (let s := LegacyRun.run [LegacyRun.Add 12345 1001; LegacyRun.Clear;
                              LegacyRun.Add 20 523] Legacy.initial in
      (exists k : Z, Legacy.xMax s == inject_Z k * 10000)
      /\ (exists k : Z, Legacy.yMax s == inject_Z k * 100)
      /\ 10000 <= Legacy.xMax s
      /\ 1000 <= Legacy.yMax s
      /\ Forall (fun r => Legacy.t r <= Legacy.xMax s /\ Legacy.mm r <= Legacy.yMax s)
           (Legacy.ds s)).
Proof.
  destruct X15_legacy_points_within_axis_maxima as [Hone Hrun]. split.
  - apply (Hone 12345 1001 Legacy.initial); reflexivity.
  - apply (Hrun [LegacyRun.Add 12345 1001; LegacyRun.Clear; LegacyRun.Add 20 523]).
    reflexivity.
Defined.

Lemma lastN_lastN {A} (c1 c2 : N) (l : list A) :
  (c1 <= c2)%N -> App.lastN c1 (App.lastN c2 l) = App.lastN c1 l.
Proof.
  intros H. unfold App.lastN. rewrite length_skipn, skipn_skipn.
  f_equal. lia.
Qed.

Lemma legacy_chart_run (es : list LegacyRun.Event) :
  let s := LegacyRun.run es Legacy.initial in
  Legacy.ds s = App.lastN 2000 (Legacy.records s)
  /\ (List.length (Legacy.records s) <= 5000)%nat
  /\ (List.length (Legacy.ds s) <= 2000)%nat.
Proof.
  cbv zeta.
  apply (legacy_run_invariant
           (fun s =>
              Legacy.ds s = App.lastN 2000 (Legacy.records s)
              /\ (List.length (Legacy.records s) <= 5000)%nat
              /\ (List.length (Legacy.ds s) <= 2000)%nat)).
  - intros s [t mm|] (Hds & Hr & Hd); cbn [LegacyRun.step].
    + destruct (addRecord_fields t mm s) as (_ & _ & -> & ->).
      split; [|split; [apply (trimTo_length Legacy.MAX_RECORDS)
                      | apply (trimTo_length Legacy.MAX_POINTS)]].
      rewrite !trimTo_lastN, Hds.
      change (N.of_nat Legacy.MAX_POINTS) with 2000%N.
      change (N.of_nat Legacy.MAX_RECORDS) with 5000%N.
      rewrite lastN_app_lastN, lastN_lastN by lia. reflexivity.
    + repeat split; apply Nat.le_0_l.
  - repeat split; apply Nat.le_0_l.
Qed.

(** X16: in the millimetre-only revision, after any records and any clicks
    on Clear, the chart shows the most recent 2000 of the records kept, in
    the same order; at most 5000 records are kept. *)
Theorem X16_legacy_chart_is_tail_of_records (es : list LegacyRun.Event) :
  let s := LegacyRun.run es Legacy.initial in
  Legacy.ds s = App.lastN 2000 (Legacy.records s)
  /\ (List.length (Legacy.records s) <= 5000)%nat
  /\ (List.length (Legacy.ds s) <= 2000)%nat.
Proof. apply legacy_chart_run. Qed.

(** ** The millimetre-only revision: the buttons *)

Lemma clampNum_range (hzValue : option Q) :
  1 <= Legacy.clampNum hzValue /\ Legacy.clampNum hzValue <= 50.
Proof.
  unfold Legacy.clampNum.
  set (x := Legacy.orElseNum hzValue 50).
  destruct (Q.max_spec x 1) as [[H1 E1]|[H1 E1]];
    destruct (Q.min_spec (Qmax x 1) 50) as [[H2 E2]|[H2 E2]];
    rewrite E2; rewrite ?E1 in *; split; lra.
Qed.

(** [Math.min] and [Math.max] give back one of their arguments: the rate
    is 1, 50 or the very number typed. *)
Lemma clampNum_cases (hzValue : option Q) :
  Legacy.clampNum hzValue = 1
  \/ Legacy.clampNum hzValue = 50
  \/ hzValue = Some (Legacy.clampNum hzValue).
Proof.
  unfold Legacy.clampNum, Qmin, Qmax, GenericMinMax.gmin, GenericMinMax.gmax.
  destruct hzValue as [q|]; cbn [Legacy.orElseNum].
  - destruct (Qeq_bool q 0).
    + destruct (Qcompare 50 1); destruct (Qcompare _ 50); auto.
    + destruct (Qcompare q 1); destruct (Qcompare _ 50); auto.
  - destruct (Qcompare 50 1); destruct (Qcompare _ 50); auto.
Qed.

Lemma clampNum_whole (z : Z) :
  Legacy.clampNum (Some (inject_Z z)) = inject_Z (Legacy.clampHz (Some z)).
Proof.
  unfold Legacy.clampNum, Legacy.clampHz, Legacy.orElseNum, App.orElse.
  unfold Qmin, Qmax, GenericMinMax.gmin, GenericMinMax.gmax.
  replace (Qeq_bool (inject_Z z) 0) with (z =? 0)%Z
    by (unfold Qeq_bool, inject_Z; cbn [Qnum Qden]; now rewrite Z.mul_1_r).
  destruct (Z.eqb_spec z 0) as [->|Hz]; [reflexivity|].
  unfold Qcompare, inject_Z. cbn [Qnum Qden].
  rewrite !Z.mul_1_r.
  destruct (Z.compare_spec z 1) as [->|H1|H1]; cbn [Qnum Qden].
  - reflexivity.
  - rewrite Z.max_r, Z.min_l by lia. reflexivity.
  - rewrite Z.max_l by lia.
    change (50 * QDen (z # 1))%Z with 50%Z. change (50 * 1)%Z with 50%Z.
    destruct (Z.compare_spec z 50) as [->|H2|H2].
    + reflexivity.
    + rewrite Z.min_l by lia. reflexivity.
    + rewrite Z.min_r by lia. reflexivity.
Qed.

(** X17: in the millimetre-only revision, with port and writer held, and
    given that the write to the port completes: Start completes, writes the
    one line [START hz=<n>], notes it in the log, and sets reading and the
    redraw timer; Rate writes the one line [RATE hz=<n>] with the same [n].
    For any finite number typed, a fraction included, [n] is the printing
    of a number between 1 and 50: the number typed itself when it lies in
    that range, else 1 or 50 (50 when the number is missing, invalid or 0).
    For a whole number typed, of magnitude up to [2^53], [n] is the decimal
    of that rate. *)
Theorem X17_legacy_rate_is_clamped :
  (forall (str : Q -> string) (hzValue : option Q) (s : Legacy.Session),
      Legacy.port s <> None ->
      Legacy.writer s <> None ->
      (1 <= Legacy.clampNum hzValue /\ Legacy.clampNum hzValue <= 50)
      /\ (Legacy.clampNum hzValue = 1
          \/ Legacy.clampNum hzValue = 50
          \/ hzValue = Some (Legacy.clampNum hzValue))
      /\ Eff.completion (Legacy.btnStartNum str hzValue s) = Eff.Normal tt
      /\ Legacy.wire (Eff.state (Legacy.btnStartNum str hzValue s))
         = Legacy.wire s
           ++ [("START hz=" ++ str (Legacy.clampNum hzValue) ++ Legacy.nl)%string]
      /\ Legacy.logLines (Eff.state (Legacy.btnStartNum str hzValue s))
         = Legacy.logLines s ++ [("# START hz=" ++ str (Legacy.clampNum hzValue))%string]
      /\ Legacy.reading (Eff.state (Legacy.btnStartNum str hzValue s)) = true
      /\ Legacy.chartTimer (Eff.state (Legacy.btnStartNum str hzValue s)) = true
      /\ Eff.completion (Legacy.btnRateNum str hzValue s) = Eff.Normal tt
      /\ Legacy.wire (Eff.state (Legacy.btnRateNum str hzValue s))
         = Legacy.wire s
           ++ [("RATE hz=" ++ str (Legacy.clampNum hzValue) ++ Legacy.nl)%string])
  /\ (forall (hzValue : option Z) (s : Legacy.Session),
        Exact.safeInput hzValue = true ->
        Legacy.port s <> None ->
        Legacy.writer s <> None ->
        (1 <= Legacy.clampHz hzValue <= 50)%Z
        /\ Eff.completion (Legacy.btnStart hzValue s) = Eff.Normal tt
        /\ Legacy.wire (Eff.state (Legacy.btnStart hzValue s))
           = Legacy.wire s
             ++ [("START hz=" ++ JS.showZ (Legacy.clampHz hzValue) ++ Legacy.nl)%string]
        /\ Legacy.logLines (Eff.state (Legacy.btnStart hzValue s))
           = Legacy.logLines s ++ [("# START hz=" ++ JS.showZ (Legacy.clampHz hzValue))%string]
        /\ Legacy.reading (Eff.state (Legacy.btnStart hzValue s)) = true
        /\ Legacy.chartTimer (Eff.state (Legacy.btnStart hzValue s)) = true
        /\ Eff.completion (Legacy.btnRate hzValue s) = Eff.Normal tt
        /\ Legacy.wire (Eff.state (Legacy.btnRate hzValue s))
           = Legacy.wire s
             ++ [("RATE hz=" ++ JS.showZ (Legacy.clampHz hzValue) ++ Legacy.nl)%string])
  /\ (forall z : Z,
        Legacy.clampNum (Some (inject_Z z)) = inject_Z (Legacy.clampHz (Some z)))
  /\ Legacy.clampNum (Some (5 # 2)) = (5 # 2)
  /\ Legacy.clampNum (Some (1 # 2)) = 1
  /\ Legacy.clampNum None = 50.
Proof.
  split; [|split; [|split; [exact clampNum_whole | repeat split]]].
  - intros str hzValue s Hp Hw.
    split; [apply clampNum_range|]. split; [apply clampNum_cases|].
    open_legacy_session s.
    destruct po as [p|]; [|congruence]. destruct wr as [w|]; [|congruence].
    repeat split.
  - intros hzValue s _ Hp Hw. split; [apply clampHz_range|].
    open_legacy_session s.
    destruct po as [p|]; [|congruence]. destruct wr as [w|]; [|congruence].
    repeat split.
Qed.

Lemma X17_legacy_rate_witness :
  let s := Legacy.mkSession (Some 1%nat) None (Some 1%nat) false [] []
             Legacy.INITIAL_X_SPAN Legacy.INITIAL_Y_MAX false [] [] [] in
  Legacy.wire (Eff.state (Legacy.btnStart (Some 100%Z) s))
  = [("START hz=50" ++ Legacy.nl)%string]
  /\ Legacy.wire (Eff.state (Legacy.btnRate (Some (-3)%Z) s))
     = [("RATE hz=1" ++ Legacy.nl)%string]
  /\ Legacy.wire (Eff.state (Legacy.btnStartNum Legacy.showNum (Some 7) s))
     = [("START hz=7" ++ Legacy.nl)%string].
Proof.
  cbv zeta.
  destruct X17_legacy_rate_is_clamped as (Hnum & Hwhole & _).
  split; [|split].
  - apply (Hwhole (Some 100%Z)
             (Legacy.mkSession (Some 1%nat) None (Some 1%nat) false [] []
                Legacy.INITIAL_X_SPAN Legacy.INITIAL_Y_MAX false [] [] []));
      (discriminate || reflexivity).
  - apply (Hwhole (Some (-3)%Z)
             (Legacy.mkSession (Some 1%nat) None (Some 1%nat) false [] []
                Legacy.INITIAL_X_SPAN Legacy.INITIAL_Y_MAX false [] [] []));
      (discriminate || reflexivity).
  - apply (Hnum Legacy.showNum (Some 7)
             (Legacy.mkSession (Some 1%nat) None (Some 1%nat) false [] []
                Legacy.INITIAL_X_SPAN Legacy.INITIAL_Y_MAX false [] [] []));
      discriminate.
Defined.

(** X18: in the millimetre-only revision, while no writer is held: Start
    shows its alert and does nothing else; Rate throws the error of
    [sendLine] and leaves the session as it was, log included; Stop swallows
    that error and completes, writes nothing, turns reading and the redraw
    timer off, and still notes [# STOP sent] in the log.  Stop completes in
    every session. *)
Theorem X18_legacy_buttons_without_writer :
  (forall (hzValue : option Z) (s : Legacy.Session),
      Legacy.writer s = None ->
      Legacy.btnStart hzValue s
      = (Eff.Normal tt, Legacy.alert "先にConnectしてください" s)
      /\ Legacy.btnRate hzValue s = (Eff.Throw "Error: writer not ready", s)
      /\ Legacy.wire (Eff.state (Legacy.btnStop s)) = Legacy.wire s
      /\ Legacy.reading (Eff.state (Legacy.btnStop s)) = false
      /\ Legacy.chartTimer (Eff.state (Legacy.btnStop s)) = false
      /\ Legacy.logLines (Eff.state (Legacy.btnStop s))
         = Legacy.logLines s ++ ["# STOP sent"])
  /\ (forall s : Legacy.Session,
        Eff.completion (Legacy.btnStop s) = Eff.Normal tt).
Proof.
  split.
  - intros hzValue s Hw. open_legacy_session s. subst wr.
    destruct po; repeat split.
  - intros s. open_legacy_session s. destruct wr; reflexivity.
Qed.

Lemma X18_legacy_buttons_witness :
  Legacy.btnRate (Some 25%Z) Legacy.initial
  = (Eff.Throw "Error: writer not ready", Legacy.initial)
  /\ Legacy.logLines (Eff.state (Legacy.btnStop Legacy.initial)) = ["# STOP sent"].
Proof.
  destruct (proj1 X18_legacy_buttons_without_writer (Some 25%Z) Legacy.initial eq_refl)
    as (_ & Hrate & _ & _ & _ & Hlog).
  split; assumption.
Defined.

(** ** niceCeil *)

Lemma ceilTo_lt (v step : Q) : 0 < step -> Legacy.ceilTo v step < v + step.
Proof.
  intros Hs. unfold Legacy.ceilTo.
  assert (Hne : ~ step == 0) by (intros E; rewrite E in Hs; discriminate Hs).
  pose proof (Qceiling_lt (v / step)) as H.
  unfold Z.sub in H. rewrite inject_Z_plus, inject_Z_opp in H.
  assert (H1 : inject_Z (Qceiling (v / step)) < v / step + 1).
  { change (inject_Z 1) with 1 in H. lra. }
  setoid_replace (v + step) with ((v / step + 1) * step) by (field; exact Hne).
  apply Qmult_lt_compat_r; assumption.
Qed.

(** X19: for a whole number [v] of magnitude up to [2^32], [niceCeil(v)] is
    the least multiple of 100 that is not below [v]: a whole number of
    hundreds, at least [v] and less than [v + 100].  With any list of
    candidate steps whose first step is a positive whole number up to
    [2^32], the result is [v] rounded up to a multiple of that first step;
    the later candidates are never tried. *)
Theorem X19_niceCeil_is_next_hundred :
  (forall v : Q,
      Exact.whole v = true ->
      v <= Legacy.niceCeil v
      /\ Legacy.niceCeil v < v + 100
      /\ exists k : Z, Legacy.niceCeil v = inject_Z k * 100)
  /\ (forall (v step : Q) (steps : list Q),
        Exact.whole v = true ->
        Exact.whole step = true ->
        0 < step ->
        Legacy.niceCeilWith v (step :: steps) = inject_Z (Qceiling (v / step)) * step).
Proof.
  split.
  - intros v _. rewrite niceCeil_hundreds. split; [|split].
    + now apply ceilTo_ge.
    + now apply ceilTo_lt.
    + eexists. reflexivity.
  - intros v step steps _ _ Hs. unfold Legacy.niceCeilWith.
    now rewrite niceCeilLoop_first.
Qed.

Lemma X19_niceCeil_witness :
  (1001 <= Legacy.niceCeil 1001
   /\ Legacy.niceCeil 1001 < 1001 + 100
   /\ exists k : Z, Legacy.niceCeil 1001 = inject_Z k * 100)
  /\ Legacy.niceCeilWith 201 [250; 100]
     = inject_Z (Qceiling (201 / 250)) * 250.
Proof.
  destruct X19_niceCeil_is_next_hundred as [Hhundred Hfirst]. split.
  - apply (Hhundred 1001). reflexivity.
  - apply (Hfirst 201 250 [100]); reflexivity.
Defined.

(** ** The revision with the span and limit inputs *)

Lemma full_pushPoint_fields (xSpanValue yMaxValue : option Q) (t d : N) (st : Full.Store) :
  let st' := Full.pushPoint xSpanValue yMaxValue t d st in
  let now := Z.of_N t # 1000 in
  let span := Full.orElse xSpanValue 10 in
  Full.records st' = App.pushBounded App.MAX_POINTS (Full.records st) (App.mkSample t d)
  /\ Full.xMin (Full.chart st') = Some (Qmax 0 (now - span))
  /\ Full.xMax (Full.chart st') = Some (Qmax span now)
  /\ Full.suggestedMax (Full.chart st')
     = Qmax (Full.suggestedMax (Full.chart st))
         (inject_Z (Qceiling (Qmax (Full.orElse yMaxValue 100)
                                ((Z.of_N d # 10) * (11 # 10))))).
Proof.
  cbv zeta. unfold Full.pushPoint, Full.updateChartAutoAxis.
  cbn [Full.records Full.chart Full.suggestedMax Full.data Full.xMin Full.xMax].
  destruct (rev_pushBounded App.MAX_POINTS (Full.records st) (App.mkSample t d)
              MAX_POINTS_positive) as [l E].
  rewrite E. cbn [App.tMs App.distMm]. repeat split.
Qed.

(** X20: in the revision that reads the span and the least upper limit
    from the page, a [pushPoint] never lowers the upper limit of the distance
    axis and leaves it at least the limit typed (100 when none is typed) and
    at least the new distance; and when the span typed is a whole number up
    to [2^32] (or none is typed), the span in use is positive and the time
    of the sample is at most [2^32] ms, the time axis becomes a window
    exactly that wide, from 0 or later, that holds the new point. *)
Theorem X20_span_and_limit_inputs
  (xSpanValue yMaxValue : option Q) (t d : N) (st : Full.Store) :
  let st' := Full.pushPoint xSpanValue yMaxValue t d st in
  Full.suggestedMax (Full.chart st) <= Full.suggestedMax (Full.chart st')
  /\ Full.orElse yMaxValue 100 <= Full.suggestedMax (Full.chart st')
  /\ (Z.of_N d # 10) <= Full.suggestedMax (Full.chart st')
  /\ (Exact.wholeInput xSpanValue = true ->
      (t <= Exact.limit)%N ->
      0 < Full.orElse xSpanValue 10 ->
      exists a b : Q,
        Full.xMin (Full.chart st') = Some a
        /\ Full.xMax (Full.chart st') = Some b
        /\ b - a == Full.orElse xSpanValue 10
        /\ 0 <= a /\ a <= (Z.of_N t # 1000) /\ (Z.of_N t # 1000) <= b).
Proof.
  cbv zeta.
  destruct (full_pushPoint_fields xSpanValue yMaxValue t d st) as (_ & -> & -> & ->).
  pose proof (Qnonneg_of_N t 1000) as Ht. pose proof (Qnonneg_of_N d 10) as Hd.
  set (target := Qmax (Full.orElse yMaxValue 100) ((Z.of_N d # 10) * (11 # 10))).
  assert (Hc : target <= inject_Z (Qceiling target)) by apply Qle_ceiling.
  assert (H1 : Full.orElse yMaxValue 100 <= target) by apply Q.le_max_l.
  assert (H2 : (Z.of_N d # 10) * (11 # 10) <= target) by apply Q.le_max_r.
  assert (Hm : inject_Z (Qceiling target)
               <= Qmax (Full.suggestedMax (Full.chart st)) (inject_Z (Qceiling target)))
    by apply Q.le_max_r.
  split; [apply Q.le_max_l|]. split; [lra|]. split; [lra|].
  intros _ _ Hspan.
  destruct (sliding_window (Z.of_N t # 1000) (Full.orElse xSpanValue 10) Ht Hspan)
    as (Hw & H0 & Hlo & Hhi).
  eexists _, _. repeat split; assumption.
Qed.

Lemma X20_span_witness :
  exists a b : Q,
    Full.xMin (Full.chart (Full.pushPoint (Some 5) None 12000 523 Full.initial)) = Some a
    /\ Full.xMax (Full.chart (Full.pushPoint (Some 5) None 12000 523 Full.initial)) = Some b
    /\ b - a == Full.orElse (Some 5) 10
    /\ 0 <= a /\ a <= (Z.of_N 12000 # 1000) /\ (Z.of_N 12000 # 1000) <= b.
Proof.
  apply (X20_span_and_limit_inputs (Some 5) None 12000 523 Full.initial).
  - reflexivity.
  - vm_compute. discriminate.
  - reflexivity.
Defined.

(** X21: in that revision a negative span typed into the page (a whole
    number of magnitude up to [2^32]) is taken as it is: after the next
    [pushPoint], of a sample whose time is at most [2^32] ms, the lower end
    of the time axis lies above its upper end. *)
Theorem X21_negative_span_inverts_axis
  (xSpanValue yMaxValue : option Q) (t d : N) (st : Full.Store) :
  Exact.wholeInput xSpanValue = true ->
  (t <= Exact.limit)%N ->
  Full.orElse xSpanValue 10 < 0 ->
  exists a b : Q,
    Full.xMin (Full.chart (Full.pushPoint xSpanValue yMaxValue t d st)) = Some a
    /\ Full.xMax (Full.chart (Full.pushPoint xSpanValue yMaxValue t d st)) = Some b
    /\ b < a.
Proof.
  intros _ _ Hspan.
  destruct (full_pushPoint_fields xSpanValue yMaxValue t d st) as (_ & -> & -> & _).
  pose proof (Qnonneg_of_N t 1000) as Ht.
  eexists _, _. split; [reflexivity|]. split; [reflexivity|].
  destruct (Q.max_spec (Full.orElse xSpanValue 10) (Z.of_N t # 1000)) as [[H1 E1]|[H1 E1]];
    destruct (Q.max_spec 0 ((Z.of_N t # 1000) - Full.orElse xSpanValue 10))
      as [[H2 E2]|[H2 E2]];
    rewrite E1, E2; lra.
Qed.

Lemma X21_negative_span_witness :
  exists a b : Q,
    Full.xMin (Full.chart (Full.pushPoint (Some (-5)) None 2000 523 Full.initial)) = Some a
    /\ Full.xMax (Full.chart (Full.pushPoint (Some (-5)) None 2000 523 Full.initial)) = Some b
    /\ b < a.
Proof.
  apply (X21_negative_span_inverts_axis (Some (-5)) None 2000 523 Full.initial).
  - reflexivity.
  - vm_compute. discriminate.
  - reflexivity.
Defined.

(** ** From the chunks read to the records *)

Lemma onValue_csvRow (r : App.Sample) (s : App.Session) :
  App.onValue (App.csvRow r) s = App.pushPoint (App.tMs r) (App.distMm r) s.
Proof.
  unfold App.onValue.
  pose proof (matchData_fields (JS.showN (App.tMs r)) "" "" (JS.showN (App.distMm r)) ""
                (showN_digits _) (showN_nonempty _) eq_refl eq_refl
                (showN_digits _) (showN_nonempty _) eq_refl) as Hm.
  cbn [String.append] in Hm. rewrite append_nil_r in Hm.
  destruct (digit_line_not_meta (App.csvRow r)) as (Ht & He & Hmeta).
  { unfold App.csvRow. rewrite headIs_app by apply showN_nonempty.
    apply all_headIs; [apply showN_digits | apply showN_nonempty]. }
  rewrite Ht, He, Hmeta. cbn [negb].
  unfold App.csvRow at 1. cbn [String.append]. rewrite Hm, !numberOfDigits_showN.
  reflexivity.
Qed.

Lemma hasCR_app (a b : string) : JS.hasCR (a ++ b) = JS.hasCR a || JS.hasCR b.
Proof.
  induction a as [|c a IH]; [reflexivity|].
  cbn [String.append JS.hasCR]. now rewrite IH, orb_assoc.
Qed.

Lemma digits_noCR (g : string) : JS.all JS.isDigit g = true -> JS.hasCR g = false.
Proof.
  induction g as [|c g IH]; [reflexivity|].
  cbn [JS.all JS.hasCR]. intros H. apply andb_prop in H as [Hc Hg].
  rewrite (IH Hg), orb_false_r.
  unfold JS.isCR. destruct (Ascii.eqb_spec c JS.CR) as [->|]; [discriminate Hc | reflexivity].
Qed.

Lemma csvRow_plain (r : App.Sample) : App.plain (App.csvRow r) = true.
Proof.
  unfold App.plain. rewrite csvRow_noLF.
  unfold App.csvRow. rewrite !hasCR_app.
  rewrite (digits_noCR _ (showN_digits (App.tMs r))).
  rewrite (digits_noCR _ (showN_digits (App.distMm r))). reflexivity.
Qed.

Lemma framed_sent (rows : list (App.Sample * bool)) (cs : list string) :
  App.received cs = Stream.sent rows ->
  App.framed cs = map (fun p => App.csvRow (fst p)) rows.
Proof.
  intros H. unfold Stream.sent in H.
  rewrite framed_received, H, split_crlf_terminated.
  - rewrite removelast_last, last_last, map_map. apply List.app_nil_r.
  - apply Forall_forall. intros l Hl.
    apply in_map_iff in Hl as (p & <- & _). apply csvRow_plain.
Qed.

Lemma fold_onValue_rows (rows : list (App.Sample * bool)) (s : App.Session) :
  fold_left (fun s value => App.onValue value s)
    (map (fun p => App.csvRow (fst p)) rows) s
  = App.pushAll (map (fun p => (App.tMs (fst p), App.distMm (fst p))) rows) s.
Proof.
  revert s. induction rows as [|p rows IH]; intros s; [reflexivity|].
  cbn [map fold_left App.pushAll fst snd]. rewrite onValue_csvRow. apply IH.
Qed.

(** X22: when the device sends one line [<tMs>,<distMm>] per sample, both
    numbers up to [2^53], each line ended by CR LF or by LF, then however
    the text is cut into chunks the reader loop records exactly these
    samples, in order, after the records already there, keeping the last
    10000; and for any text at all, the session after the stream depends on
    the text only, not on the chunks. *)
Theorem X22_stream_of_samples_is_recorded :
  (forall (rows : list (App.Sample * bool)) (cs : list string) (s : App.Session),
      forallb Exact.safeSample (map fst rows) = true ->
      App.received cs = Stream.sent rows ->
      (N.of_nat (List.length (App.records s)) <= App.MAX_POINTS)%N ->
      App.records (Stream.feed cs s)
      = App.lastN App.MAX_POINTS (App.records s ++ map fst rows))
  /\ (forall (cs1 cs2 : list string) (s : App.Session),
        App.received cs1 = App.received cs2 ->
        Stream.feed cs1 s = Stream.feed cs2 s).
Proof.
  split.
  - intros rows cs s _ Hsent Hlen. unfold Stream.feed.
    rewrite (framed_sent rows cs Hsent), fold_onValue_rows.
    rewrite records_pushAll by exact Hlen. rewrite map_map.
    f_equal. f_equal. apply map_ext. intros [[t d] b]. reflexivity.
  - intros cs1 cs2 s H. unfold Stream.feed. now rewrite !framed_received, H.
Qed.

Lemma X22_stream_witness :
  App.records
    (Stream.feed [("1000,5" ++ "23" ++ App.cr)%string; (App.nl ++ "1020,")%string;
                  ("530" ++ App.nl)%string] App.connectedReady)
  = App.lastN App.MAX_POINTS
      (App.records App.connectedReady
       ++ map fst [(App.mkSample 1000 523, true); (App.mkSample 1020 530, false)])
  /\ Stream.feed ["# RE"; ("ADY" ++ App.nl)%string] App.connected
     = Stream.feed [("# READY" ++ App.nl)%string] App.connected.
Proof.
  destruct X22_stream_of_samples_is_recorded as [Hrec Hsame]. split.
  - apply (Hrec [(App.mkSample 1000 523, true); (App.mkSample 1020 530, false)]).
    + reflexivity.
    + reflexivity.
    + cbn. lia.
  - apply Hsame. reflexivity.
Defined.

(** ** The second copy of the script *)

(** X23: the reader loop of the second copy in app.js does what the first
    one does for every line that does not start with [# RESET], [# CAL OK]
    or [# OFFSET]; such a line it only notes in the log, so that [# RESET]
    leaves records and chart as they are.  Its Connect, when port and writer
    are obtained, empties records and chart data and sends [HELP] but keeps
    the axis limits that were there. *)
Theorem X23_second_copy_has_no_reset :
  (forall (value : string) (s : App.Session),
      JS.startsWith value "# RESET" = false ->
      JS.startsWith value "# CAL OK" = false ->
      JS.startsWith value "# OFFSET" = false ->
      App2.onValue value s = App.onValue value s)
  /\ (forall (value : string) (s : App.Session),
        JS.startsWith value "# RESET" = true ->
        App2.onValue value s = App.logDebug value s)
  /\ (forall (p : App.PortId) (s : App.Session),
        let s' := Eff.state (App2.btnConnect (App.mkConnectEnv (inl p) None None) s) in
        App.records s' = []
        /\ App.data (App.chart s') = []
        /\ App.xMin (App.chart s') = App.xMin (App.chart s)
        /\ App.xMax (App.chart s') = App.xMax (App.chart s)
        /\ App.suggestedMax (App.chart s') = App.suggestedMax (App.chart s)
        /\ App.wire s' = App.wire s ++ [("HELP" ++ App.nl)%string]).
Proof.
  split; [|split].
  - intros value s H1 H2 H3. unfold App2.onValue, App.onValue.
    rewrite H1, H2, H3. reflexivity.
  - intros value s H.
    destruct (reset_line_is_meta value H) as (Ht & He & Hm & R1 & R2 & R3).
    unfold App2.onValue. now rewrite Ht, He, Hm, R1, R2, R3.
  - intros p s. cbv zeta. destruct s. repeat split.
Qed.

Lemma X23_second_copy_witness :
  App2.onValue "1000,523" App.connectedReady = App.onValue "1000,523" App.connectedReady
  /\ App2.onValue "# RESET" (App.pushPoint 1000 523 App.connectedReady)
     = App.logDebug "# RESET" (App.pushPoint 1000 523 App.connectedReady).
Proof.
  destruct X23_second_copy_has_no_reset as (Hsame & Hreset & _). split.
  - apply Hsame; reflexivity.
  - apply Hreset. reflexivity.
Defined.

(** * The line framer and a CR at the end of a line *)

Lemma endsWithCR_cons (c : ascii) (x : string) :
  x <> EmptyString -> JS.endsWithCR (String c x) = JS.endsWithCR x.
Proof. destruct x; [congruence | reflexivity]. Qed.

Lemma endsWithCR_cons_other (c : ascii) (x : string) :
  JS.isCR c = false -> JS.endsWithCR (String c x) = JS.endsWithCR x.
Proof. destruct x; [now cbn | reflexivity]. Qed.

Lemma hasCRCRLF_two (a b : ascii) (r : string) :
  JS.hasCRCRLF (String a (String b r))
  = (JS.isCR a && JS.isCR b && JS.startsWithLF r) || JS.hasCRCRLF (String b r).
Proof.
  destruct r as [|c r]; [|reflexivity].
  cbn. now rewrite andb_false_r.
Qed.

Lemma hasCRCRLF_cons_other (c : ascii) (s : string) :
  JS.isCR c = false -> JS.hasCRCRLF (String c s) = JS.hasCRCRLF s.
Proof.
  intros Hc. destruct s as [|b r]; [reflexivity|].
  rewrite hasCRCRLF_two, Hc. reflexivity.
Qed.

Lemma isLF_not_CR (c : ascii) : JS.isLF c = true -> JS.isCR c = false.
Proof. intros H. apply isLF_eq in H. now subst c. Qed.

(** A text that starts with a separator splits into an empty first piece
    and more. *)
Lemma split_crlf_sep (c : ascii) (r : string) :
  JS.isLF c || (JS.isCR c && JS.startsWithLF r) = true ->
  exists xs, xs <> [] /\ JS.split_crlf (String c r) = EmptyString :: xs.
Proof.
  intros H. destruct r as [|c' r'].
  - rewrite split_crlf_one. cbn in H. rewrite andb_false_r, orb_false_r in H.
    rewrite H. exists [EmptyString]. split; [discriminate | reflexivity].
  - rewrite split_crlf_two. cbn [JS.startsWithLF] in H.
    destruct (JS.isLF c).
    + eexists. split; [apply split_crlf_nonempty | reflexivity].
    + cbn [orb] in H. rewrite H.
      eexists. split; [apply split_crlf_nonempty | reflexivity].
Qed.

Lemma consHead_after_sep (c : ascii) (xs : list string) :
  xs <> [] ->
  existsb JS.endsWithCR (removelast (JS.consHead c (EmptyString :: xs)))
  = JS.isCR c || existsb JS.endsWithCR (removelast (EmptyString :: xs))
  /\ last (JS.consHead c (EmptyString :: xs)) "" = last (EmptyString :: xs) "".
Proof.
  intros Hxs. cbn [JS.consHead].
  rewrite !removelast_cons, !last_cons by exact Hxs. split; reflexivity.
Qed.

Lemma consHead_inside_piece (c : ascii) (x : string) (xs : list string) :
  x <> EmptyString ->
  existsb JS.endsWithCR (removelast (JS.consHead c (x :: xs)))
  = existsb JS.endsWithCR (removelast (x :: xs))
  /\ JS.endsWithCR (last (JS.consHead c (x :: xs)) "")
     = JS.endsWithCR (last (x :: xs) "").
Proof.
  intros Hx. cbn [JS.consHead]. destruct xs as [|y ys].
  - cbn [removelast last existsb]. split; [reflexivity | now apply endsWithCR_cons].
  - rewrite !removelast_cons, !last_cons by discriminate.
    cbn [existsb]. now rewrite endsWithCR_cons.
Qed.

(** Which pieces of the split end with a CR: a complete piece does when a
    CR CR LF ends it, the last piece when the text ends with a CR. *)
Lemma split_crlf_trailing_cr (s : string) :
  existsb JS.endsWithCR (removelast (JS.split_crlf s)) = JS.hasCRCRLF s
  /\ JS.endsWithCR (last (JS.split_crlf s) "") = JS.endsWithCR s.
Proof.
  induction s as [| c | c c' r [IHrA IHrB] [IHcA IHcB]] using string_ind2.
  - split; reflexivity.
  - rewrite split_crlf_one. destruct (JS.isLF c) eqn:HLF; [|split; reflexivity].
    split; [reflexivity|]. cbn. symmetry. now apply isLF_not_CR.
  - rewrite split_crlf_two, hasCRCRLF_two.
    rewrite (endsWithCR_cons c (String c' r)) by discriminate.
    destruct (JS.isLF c) eqn:HLF.
    + rewrite removelast_cons, last_cons by apply split_crlf_nonempty.
      rewrite (isLF_not_CR c HLF). cbn [existsb andb orb].
      change (JS.endsWithCR "") with false. cbn [orb].
      split; assumption.
    + destruct (JS.isCR c && JS.isLF c') eqn:HCRLF.
      * apply andb_prop in HCRLF as [HCR HLF'].
        pose proof (isLF_not_CR c' HLF') as HnCR.
        rewrite removelast_cons, last_cons by apply split_crlf_nonempty.
        rewrite HnCR, andb_false_r. cbn [existsb orb].
        change (JS.endsWithCR "") with false. cbn [orb].
        rewrite hasCRCRLF_cons_other, endsWithCR_cons_other by exact HnCR.
        split; assumption.
      * destruct (JS.isLF c' || (JS.isCR c' && JS.startsWithLF r)) eqn:Hsep.
        -- destruct (split_crlf_sep c' r Hsep) as (xs & Hxs & E).
           rewrite E in *.
           destruct (consHead_after_sep c xs Hxs) as [-> ->].
           rewrite IHcA, IHcB. split; [|reflexivity].
           apply orb_prop in Hsep as [HLF'|Hcr].
           ++ rewrite HLF' in HCRLF. rewrite andb_true_r in HCRLF.
              now rewrite HCRLF.
           ++ apply andb_prop in Hcr as [-> ->]. now rewrite !andb_true_r.
        -- apply orb_false_elim in Hsep as [HLF' Hcr].
           rewrite split_crlf_cons in * by assumption.
           destruct (JS.split_crlf r) as [|y ys] eqn:E;
             [now apply split_crlf_nonempty in E|].
           change (JS.consHead c' (y :: ys)) with (String c' y :: ys) in *.
           destruct (consHead_inside_piece c (String c' y) ys) as [-> ->];
             [discriminate|].
           rewrite IHcA, IHcB. split; [|reflexivity].
           rewrite <- andb_assoc, Hcr, andb_false_r. reflexivity.
Qed.

Lemma framed_trailing_cr (cs : list string) :
  existsb JS.endsWithCR (App.framed cs)
  = JS.hasCRCRLF (App.received cs) || JS.endsWithCR (App.received cs).
Proof.
  rewrite framed_received, existsb_app.
  destruct (split_crlf_trailing_cr (App.received cs)) as [-> <-].
  f_equal. unfold App.flush. cbn [App.chunks].
  destruct (last (JS.split_crlf (App.received cs)) "") as [|a x]; cbn [JS.truthy existsb].
  - reflexivity.
  - apply orb_false_r.
Qed.

Lemma existsb_false_iff {A} (f : A -> bool) (l : list A) :
  existsb f l = false <-> forall x, In x l -> f x = false.
Proof.
  induction l as [|a l IH]; cbn [existsb In].
  - split; [intros _ x [] | reflexivity].
  - rewrite orb_false_iff, IH. split.
    + intros [Ha Hl] x [<-|Hx]; auto.
    + intros H. split; [apply H; now left | intros x Hx; apply H; now right].
Qed.

(** C3 (as amended): the lines delivered by the line framer depend only
    on the text received, not on how it was cut into chunks; a separator
    [\r\n] cut between two chunks is still one separator; a text made of
    lines without CR or LF, each ended by LF or CR LF, is delivered as these
    very lines; [flush] delivers the buffer as a last line exactly when it
    is not empty.  A separator takes one CR at most and [flush] delivers the
    buffer as it is: no delivered line ends with a CR exactly when the text
    holds no CR CR LF and does not end with a CR.  The read loop of the
    millimetre-only revision hands over the same lines as [transform] and
    has no flush: what [flush] would deliver it never hands over. *)
Theorem C3_framer_chunk_independent :
  (forall cs1 cs2 : list string,
      App.received cs1 = App.received cs2 -> App.framed cs1 = App.framed cs2)
  /\ App.framed [("x" ++ App.cr)%string; (App.nl ++ "y")%string] = ["x"; "y"]
  /\ (forall (ls : list (string * bool)) (cs : list string),
        Forall (fun l => App.plain (fst l) = true) ls ->
        App.received cs = App.terminated ls ->
        App.framed cs = map fst ls)
  /\ (forall t : App.LineBreakTransformer,
        (App.chunks t = EmptyString -> App.flush t = [])
        /\ (App.chunks t <> EmptyString -> App.flush t = [App.chunks t]))
  /\ (forall cs : list string,
        (forall l : string, In l (App.framed cs) -> JS.endsWithCR l = false)
        <-> JS.hasCRCRLF (App.received cs) = false
            /\ JS.endsWithCR (App.received cs) = false)
  /\ (forall cs : list string,
        App.framed cs
        = fst (Legacy.onChunks "" cs)
          ++ App.flush (App.mkLBT (snd (Legacy.onChunks "" cs)))).
Proof.
  split; [|split; [|split; [|split; [|split]]]].
  - intros cs1 cs2 H. now rewrite !framed_received, H.
  - reflexivity.
  - intros ls cs Hp Hr.
    rewrite framed_received, Hr, split_crlf_terminated by exact Hp.
    rewrite removelast_last, last_last. apply List.app_nil_r.
  - intros [b]. cbn [App.chunks]. unfold App.flush. cbn [App.chunks].
    split; [intros -> | intros Hb]; [reflexivity|].
    destruct b; [congruence | reflexivity].
  - intros cs. rewrite <- existsb_false_iff, framed_trailing_cr.
    apply orb_false_iff.
  - intros cs. rewrite legacy_onChunks_received, framed_received. reflexivity.
Qed.

Lemma C3_framer_witness :
  App.framed [("ab" ++ App.cr)%string; (App.nl ++ "cd" ++ App.nl ++ "e")%string]
  = App.framed [("ab" ++ App.cr ++ App.nl ++ "cd")%string; (App.nl ++ "e")%string]
  /\ App.framed [("ab" ++ App.cr)%string; (App.nl ++ "cd" ++ App.nl)%string] = ["ab"; "cd"]
  /\ App.flush (App.mkLBT "") = []
  /\ App.flush (App.mkLBT "e") = ["e"]
  /\ (forall l : string,
        In l (App.framed [("a" ++ App.cr ++ "b")%string; App.nl]) ->
        JS.endsWithCR l = false)
  /\ JS.hasCRCRLF ("a" ++ App.cr ++ App.cr ++ App.nl)%string = true.
Proof.
  destruct C3_framer_chunk_independent as (Hsame & _ & Hlines & Hflush & Hcr & _).
  split; [|split; [|split; [|split; [|split]]]].
  - apply Hsame. reflexivity.
  - apply (Hlines [("ab", true); ("cd", false)]).
    + repeat constructor.
    + reflexivity.
  - apply (proj1 (Hflush (App.mkLBT ""))). reflexivity.
  - apply (proj2 (Hflush (App.mkLBT "e"))). discriminate.
  - apply (proj2 (Hcr [("a" ++ App.cr ++ "b")%string; App.nl])).
    split; reflexivity.
  - destruct (JS.hasCRCRLF ("a" ++ App.cr ++ App.cr ++ App.nl)%string) eqn:E;
      [reflexivity|].
    exfalso.
    assert (Hno : forall l : string,
               In l (App.framed [("a" ++ App.cr ++ App.cr ++ App.nl)%string]) ->
               JS.endsWithCR l = false).
    { apply (proj2 (Hcr [("a" ++ App.cr ++ App.cr ++ App.nl)%string])).
      split; [exact E | reflexivity]. }
    specialize (Hno ("a" ++ App.cr)%string (or_introl eq_refl)). discriminate Hno.
Defined.

(** * The export within the exact range *)

Lemma showZ_of_N (n : N) : JS.showZ (Z.of_N n) = JS.showN n.
Proof. destruct n; reflexivity. Qed.

(** The sample of app.js with the numbers of a record of the millimetre-only
    revision. *)
Lemma count_of_N (q : Q) :
  Exact.count q = true -> q = inject_Z (Z.of_N (Z.to_N (Qnum q))).
Proof.
  unfold Exact.count. intros H.
  apply andb_prop in H as [H _]. apply andb_prop in H as [Hd Hn].
  apply Pos.eqb_eq in Hd. apply Z.leb_le in Hn.
  destruct q as [n d]. cbn [Qnum Qden] in *. subst d.
  unfold inject_Z. now rewrite Z2N.id.
Qed.

Lemma legacy_csvRow (r : Legacy.Rec) :
  Exact.safeRec r = true ->
  Legacy.csvRow r
  = App.csvRow (App.mkSample (Z.to_N (Qnum (Legacy.t r))) (Z.to_N (Qnum (Legacy.mm r)))).
Proof.
  unfold Exact.safeRec. intros H. apply andb_prop in H as [Ht Hm].
  unfold Legacy.csvRow, Legacy.showNum, App.csvRow. cbn [App.tMs App.distMm].
  rewrite <- !showZ_of_N.
  rewrite (count_of_N _ Ht) at 1. rewrite (count_of_N _ Hm) at 1.
  reflexivity.
Qed.

Lemma legacy_rows (recs : list Legacy.Rec) :
  forallb Exact.safeRec recs = true ->
  map Legacy.csvRow recs
  = map App.csvRow
      (map (fun r => App.mkSample (Z.to_N (Qnum (Legacy.t r)))
                       (Z.to_N (Qnum (Legacy.mm r)))) recs).
Proof.
  induction recs as [|r recs IH]; intros H; [reflexivity|].
  cbn [forallb] in H. apply andb_prop in H as [Hr Hrecs].
  cbn [map]. now rewrite (legacy_csvRow r Hr), (IH Hrecs).
Qed.

Lemma split_lf_legacy_toCSV (recs : list Legacy.Rec) :
  forallb Exact.safeRec recs = true ->
  JS.split_lf (Legacy.toCSV recs) = "time_ms,distance_mm" :: map Legacy.csvRow recs.
Proof.
  intros H. unfold Legacy.toCSV. apply split_lf_join; [|discriminate].
  constructor; [reflexivity|].
  rewrite (legacy_rows recs H). apply Forall_forall. intros l Hin.
  apply in_map_iff in Hin as (r' & <- & _). apply csvRow_noLF.
Qed.

Lemma legacy_records_back (recs : list Legacy.Rec) :
  forallb Exact.safeRec recs = true ->
  map (fun p => Legacy.mkRec (inject_Z (Z.of_N (App.tMs p)))
                  (inject_Z (Z.of_N (App.distMm p))))
    (map (fun r => App.mkSample (Z.to_N (Qnum (Legacy.t r)))
                     (Z.to_N (Qnum (Legacy.mm r)))) recs)
  = recs.
Proof.
  induction recs as [|r recs IH]; intros H; [reflexivity|].
  cbn [forallb] in H. apply andb_prop in H as [Hr Hrecs].
  cbn [map App.tMs App.distMm]. rewrite (IH Hrecs). f_equal.
  unfold Exact.safeRec in Hr. apply andb_prop in Hr as [Ht Hm].
  rewrite <- (count_of_N _ Ht), <- (count_of_N _ Hm). now destruct r.
Qed.

(** C4: for records whose fields are whole numbers up to [2^53] (where the
    numbers of the script are exact and print in plain decimal), the exported
    text is the header line [t_ms,dist_mm] and then one line
    [<tMs>,<distMm>] for each record, in the order of the records; reading
    the text back line by line, each line after the header as the reader loop
    reads a data line, gives the same list of records; and the export leaves
    the session, its records included, as it was.  The same holds in the
    millimetre-only revision, with the header [time_ms,distance_mm], for
    records whose fields are whole numbers from 0 up to [2^53]. *)
Theorem C4_csv_export_roundtrip :
  (forall rows : list App.Sample,
      forallb Exact.safeSample rows = true ->
      JS.split_lf (App.toCSV rows)
      = "t_ms,dist_mm"
        :: match rows with
           | [] => [EmptyString]
           | _ :: _ =>
               map (fun r => (JS.showN (App.tMs r) ++ "," ++ JS.showN (App.distMm r))%string)
                 rows
           end
      /\ App.parseCSV (App.toCSV rows) = rows)
  /\ (forall s : App.Session,
        App.btnCsv s = (App.toCSV (App.records s), s))
  /\ App.toCSV [App.mkSample 1000 523; App.mkSample 1020 0]
     = ("t_ms,dist_mm" ++ App.nl ++ "1000,523" ++ App.nl ++ "1020,0")%string
  /\ (forall recs : list Legacy.Rec,
        forallb Exact.safeRec recs = true ->
        JS.split_lf (Legacy.toCSV recs)
        = "time_ms,distance_mm"
          :: map (fun r => (JS.showZ (Qnum (Legacy.t r)) ++ ","
                            ++ JS.showZ (Qnum (Legacy.mm r)))%string) recs
        /\ map (fun p => Legacy.mkRec (inject_Z (Z.of_N (App.tMs p)))
                           (inject_Z (Z.of_N (App.distMm p))))
             (App.parseCSV (Legacy.toCSV recs))
           = recs)
  /\ (forall s : Legacy.Session,
        Legacy.btnCsv s = (Legacy.toCSV (Legacy.records s), s))
  /\ Legacy.toCSV [Legacy.mkRec 12 523; Legacy.mkRec 31 0]
     = ("time_ms,distance_mm" ++ App.nl ++ "12,523" ++ App.nl ++ "31,0")%string
  /\ Legacy.toCSV [] = "time_ms,distance_mm".
Proof.
  split.
  { intros rows _. split; [apply split_lf_toCSV|].
    unfold App.parseCSV. rewrite split_lf_toCSV. cbn [tl].
    destruct rows as [|r rows]; [reflexivity|].
    rewrite map_map.
    rewrite (map_ext _ Some) by (intros a; apply parseRow_csvRow).
    apply keepSome_map_Some. }
  split; [reflexivity|]. split; [vm_compute; reflexivity|].
  split.
  { intros recs H. split; [exact (split_lf_legacy_toCSV recs H)|].
    unfold App.parseCSV. rewrite (split_lf_legacy_toCSV recs H). cbn [tl].
    rewrite (legacy_rows recs H), map_map.
    rewrite (map_ext _ Some) by (intros a; apply parseRow_csvRow).
    rewrite keepSome_map_Some. exact (legacy_records_back recs H). }
  split; [reflexivity|]. split; vm_compute; reflexivity.
Qed.

Lemma C4_csv_export_witness :
  (JS.split_lf (App.toCSV [App.mkSample 1000 523; App.mkSample 9007199254740992 0])
   = ["t_ms,dist_mm"; "1000,523"; "9007199254740992,0"]
   /\ App.parseCSV (App.toCSV [App.mkSample 1000 523; App.mkSample 9007199254740992 0])
      = [App.mkSample 1000 523; App.mkSample 9007199254740992 0])
  /\ (JS.split_lf (Legacy.toCSV [Legacy.mkRec 12 523; Legacy.mkRec 31 0])
      = ["time_ms,distance_mm"; "12,523"; "31,0"]
      /\ map (fun p => Legacy.mkRec (inject_Z (Z.of_N (App.tMs p)))
                         (inject_Z (Z.of_N (App.distMm p))))
           (App.parseCSV (Legacy.toCSV [Legacy.mkRec 12 523; Legacy.mkRec 31 0]))
         = [Legacy.mkRec 12 523; Legacy.mkRec 31 0]).
Proof.
  destruct C4_csv_export_roundtrip as (Happ & _ & _ & Hlegacy & _). split.
  - apply (Happ [App.mkSample 1000 523; App.mkSample 9007199254740992 0]).
    vm_compute. reflexivity.
  - apply (Hlegacy [Legacy.mkRec 12 523; Legacy.mkRec 31 0]).
    vm_compute. reflexivity.
Defined.

(** * The upper limit of the distance axis and the resets *)

(** An event that is none of the clearing ones leaves records and chart
    alone or does one [pushPoint]. *)
Lemma step_not_clearing (e : AppRun.Event) (s : App.Session) :
  AppRun.clears e = false ->
  (App.records (AppRun.step s e) = App.records s
   /\ App.chart (AppRun.step s e) = App.chart s)
  \/ (exists t d,
         App.records (AppRun.step s e) = App.records (App.pushPoint t d s)
         /\ App.chart (AppRun.step s e) = App.chart (App.pushPoint t d s)).
Proof.
  intros Hc.
  destruct e as [value| [[p|err] [e1|] [e2|]] | | hzv | | | cm | ];
    try discriminate Hc;
    cbn [AppRun.step]; cbn [AppRun.clears] in Hc;
    try (left; split; reflexivity).
  - unfold App.onValue. rewrite Hc.
    destruct s as [po re [w|] rd dr wa hz recs ch st lg al wi];
      split_line_cases;
      first [ left; split; reflexivity
            | right; do 2 eexists; split; reflexivity ].
  - destruct s as [[p|] re [w|] rd [|] wa hz recs ch st lg al wi];
      left; split; reflexivity.
  - destruct s as [po re [w|] rd dr wa hz recs ch st lg al wi];
      left; split; reflexivity.
  - destruct s as [[p|] re [w|] rd dr wa hz recs ch st lg al wi];
      left; split; reflexivity.
Qed.

(** A clearing event leaves the chart in its first state. *)
Lemma step_clearing (e : AppRun.Event) (s : App.Session) :
  AppRun.clears e = true -> App.chart (AppRun.step s e) = App.emptyChart.
Proof.
  intros Hc.
  destruct e as [value| [[p|err] [e1|] [e2|]] | | hzv | | | cm | ];
    try discriminate Hc;
    cbn [AppRun.step]; cbn [AppRun.clears] in Hc.
  - destruct (prefix_split _ _ Hc) as [r ->].
    destruct s as [po re [w|] rd dr wa hz recs ch st lg al wi];
      destruct r; reflexivity.
  - reflexivity.
  - destruct s as [po re [w|] rd dr wa hz recs ch st lg al wi]; reflexivity.
Qed.

Lemma suggestedMax_step (e : AppRun.Event) (s : App.Session) :
  AppRun.clears e = false ->
  App.suggestedMax (App.chart s) <= App.suggestedMax (App.chart (AppRun.step s e)).
Proof.
  intros Hc. destruct (step_not_clearing e s Hc) as [[_ ->]|(t & d & _ & ->)].
  - apply Qle_refl.
  - apply suggestedMax_pushPoint.
Qed.

Lemma suggestedMax_run (es : list AppRun.Event) (s : App.Session) :
  forallb (fun e => negb (AppRun.clears e)) es = true ->
  App.suggestedMax (App.chart s) <= App.suggestedMax (App.chart (AppRun.run es s)).
Proof.
  revert s. induction es as [|e es IH]; intros s H; [apply Qle_refl|].
  cbn [forallb] in H. apply andb_prop in H as [He Hes].
  apply negb_true_iff in He.
  cbn [AppRun.run fold_left]. change (fold_left AppRun.step es) with (AppRun.run es).
  eapply Qle_trans; [apply (suggestedMax_step e s He) | apply IH, Hes].
Qed.

Lemma run_app (es more : list AppRun.Event) (s : App.Session) :
  AppRun.run (es ++ more) s = AppRun.run more (AppRun.run es s).
Proof. unfold AppRun.run. apply fold_left_app. Qed.

(** C5 (as amended): the upper limit of the distance axis never decreases
    while samples are appended, whatever their order and size: each
    [pushPoint] leaves [suggestedMax] at least as large as it was, and so
    does every other event but a reset of the chart.  A [# RESET] line, a
    click on Reset and a Connect that succeeds put the chart back to its
    first state, upper limit 100; between two such resets the limit after a
    longer run of events is at least the limit after a shorter one.  The
    same holds for [y.max] in the millimetre-only revision, where Clear is
    the reset. *)
Theorem C5_ymax_lowered_only_by_reset :
  (forall (t d : N) (s : App.Session),
      App.suggestedMax (App.chart s)
      <= App.suggestedMax (App.chart (App.pushPoint t d s)))
  /\ (forall (ps more : list (N * N)) (s : App.Session),
        App.suggestedMax (App.chart (App.pushAll ps s))
        <= App.suggestedMax (App.chart (App.pushAll (ps ++ more) s)))
  /\ (forall (es more : list AppRun.Event) (s : App.Session),
        forallb (fun e => negb (AppRun.clears e)) more = true ->
        App.suggestedMax (App.chart (AppRun.run es s))
        <= App.suggestedMax (App.chart (AppRun.run (es ++ more) s)))
  /\ (forall (e : AppRun.Event) (s : App.Session),
        App.suggestedMax (App.chart s)
        <= App.suggestedMax (App.chart (AppRun.step s e))
        \/ App.chart (AppRun.step s e) = App.emptyChart)
  /\ (forall (e : AppRun.Event) (s : App.Session),
        AppRun.clears e = true ->
        App.chart (AppRun.step s e) = App.emptyChart)
  /\ App.suggestedMax App.emptyChart == 100
  /\ (forall (t mm : Q) (s : Legacy.Session),
        Legacy.yMax s <= Legacy.yMax (Legacy.addRecord t mm s))
  /\ (forall (rs more : list Legacy.Rec) (s : Legacy.Session),
        Legacy.yMax (Legacy.addAll rs s)
        <= Legacy.yMax (Legacy.addAll (rs ++ more) s))
  /\ (forall (e : LegacyRun.Event) (s : Legacy.Session),
        Legacy.yMax s <= Legacy.yMax (LegacyRun.step s e)
        \/ (e = LegacyRun.Clear
            /\ Legacy.yMax (LegacyRun.step s e) = Legacy.INITIAL_Y_MAX)).
Proof.
  split; [exact suggestedMax_pushPoint|].
  split; [intros ps more s; rewrite pushAll_app; apply suggestedMax_pushAll|].
  split; [intros es more s H; rewrite run_app; now apply suggestedMax_run|].
  split.
  { intros e s.
    destruct (step_store_cases e s) as [[_ ->]|[(t & d & _ & ->)|[_ ->]]].
    - left. apply Qle_refl.
    - left. apply suggestedMax_pushPoint.
    - now right. }
  split; [exact step_clearing|].
  split; [reflexivity|].
  split; [exact yMax_addRecord|].
  split.
  { intros rs more s. unfold Legacy.addAll at 2. rewrite fold_left_app.
    apply (yMax_addAll more). }
  intros [t mm|] s; cbn [LegacyRun.step].
  - left. apply yMax_addRecord.
  - right. split; reflexivity.
Qed.

Lemma C5_ymax_witness :
  App.suggestedMax (App.chart (AppRun.run [AppRun.Line "0,3000"] App.connectedReady))
  <= App.suggestedMax
       (App.chart
          (AppRun.run ([AppRun.Line "0,3000"]
                       ++ [AppRun.Stop; AppRun.Line "5,10"; AppRun.Disconnect])
             App.connectedReady))
  /\ App.chart
       (AppRun.step (AppRun.run [AppRun.Line "0,3000"] App.connectedReady)
          (AppRun.Line "# RESET"))
     = App.emptyChart.
Proof.
  destruct C5_ymax_lowered_only_by_reset as (_ & _ & Hrun & _ & Hreset & _).
  split.
  - apply Hrun. reflexivity.
  - apply Hreset. reflexivity.
Defined.

(** C5 as it was stated fails: a [# RESET] line between two samples puts
    the upper limit back to 100, below what the first sample had made it. *)
Lemma C5_reset_lowers_ymax_counterexample :
  ~ (forall (es more : list AppRun.Event) (s : App.Session),
        App.suggestedMax (App.chart (AppRun.run es s))
        <= App.suggestedMax (App.chart (AppRun.run (es ++ more) s))).
Proof.
  intros H.
  specialize (H [AppRun.Line "0,3000"]
                [AppRun.Line "# RESET"; AppRun.Line "5,10"] App.connectedReady).
  vm_compute in H. apply H. reflexivity.
Qed.
